(** * CodeAudit orchestrator core: security guardrails, tool registry,
      rate limiter, execution tracer and orchestrator runtime.

    A shallow embedding of the TypeScript sources
    (orchestrator/security.ts, registry.ts, tracing.ts, runtime.ts and
    agents/base.ts) together with the properties checked against them.

    Conventions of the embedding.
    - A JavaScript string is a [string] whose characters are UTF-16 code
      units below 256; [String.length] is [.length].
    - [Date.now()] readings, generated span ids and session ids, the
      answers of tool servers and the behaviour of agents and event
      subscribers come from outside the modelled code: every function
      takes the ones it consumes as arguments.
    - A JavaScript exception is the [inl] of a sum; the payload is the
      thrown [Error] object. *)

From Stdlib Require Import ZArith Lia Bool Ascii String List.
From Stdlib Require Import DecimalString Reals Lra.
From stdpp Require Import base option list gmap strings.

Set Warnings "-register-all".

Local Open Scope string_scope.
Local Open Scope list_scope.
Local Open Scope Z_scope.

(** ** JavaScript strings *)

Module JsString.

Definition code (c : ascii) : N := N_of_ascii c.

Definition between (lo hi : N) (c : ascii) : bool :=
  ((lo <=? code c) && (code c <=? hi))%N.

Definition isDigit : ascii -> bool := between 48 57.
Definition isUpper : ascii -> bool := between 65 90.
Definition isLower : ascii -> bool := between 97 122.

(** [String.prototype.toLowerCase] on code units below 256: the letters
    A-Z and the Latin-1 capitals U+00C0..U+00DE (U+00D7 is the
    multiplication sign) move up by 32, nothing else changes. *)
Definition lowerChar (c : ascii) : ascii :=
  if isUpper c || (between 192 222 c && negb (code c =? 215)%N)
  then ascii_of_N (code c + 32) else c.

Fixpoint toLowerCase (s : string) : string :=
  match s with
  | EmptyString => EmptyString
  | String c s' => String (lowerChar c) (toLowerCase s')
  end.

(** [s.includes(sub)] *)
Fixpoint includes (s sub : string) : bool :=
  if String.prefix sub s then true
  else match s with
       | EmptyString => false
       | String _ s' => includes s' sub
       end.

(** [s.substring(0, n)] *)
Definition firstChars (n : nat) (s : string) : string :=
  String.substring 0 n s.

(** [s.substring(s.length - n)] for [n <= s.length] *)
Definition lastChars (n : nat) (s : string) : string :=
  String.substring (String.length s - n) n s.

Fixpoint all (p : ascii -> bool) (s : string) : bool :=
  match s with
  | EmptyString => true
  | String c s' => p c && all p s'
  end.

Fixpoint count (c : ascii) (s : string) : nat :=
  match s with
  | EmptyString => 0
  | String d s' => (if Ascii.eqb c d then 1 else 0) + count c s'
  end.

(** [s.replace(/[\x00-\x1F\x7F]/g, '')] *)
Fixpoint stripControl (s : string) : string :=
  match s with
  | EmptyString => EmptyString
  | String c s' =>
      if ((code c <=? 31) || (code c =? 127))%N then stripControl s'
      else String c (stripControl s')
  end.

End JsString.

(** ** JSON values: what [axios] hands back and what agents pass around *)

Inductive json : Type :=
| JNull
| JBool (b : bool)
| JNum (n : Z)
| JStr (s : string)
| JArr (items : list json)
| JObj (fields : list (string * json)).

Module Json.

(** [obj[key]] on an object literal; [None] is [undefined]. *)
Fixpoint prop (key : string) (fields : list (string * json)) : option json :=
  match fields with
  | [] => None
  | (k, v) :: rest => if String.eqb k key then Some v else prop key rest
  end.

(** The key a [for ... in] loop or a spread sees for array index [i]. *)
Definition indexKey (i : nat) : string :=
  NilEmpty.string_of_uint (Nat.to_uint i).

(** A place inside a value: a property name or an array index. *)
Inductive seg : Type :=
| Key (k : string)
| Idx (i : nat).

Fixpoint getPath (p : list seg) (d : json) : option json :=
  match p with
  | [] => Some d
  | Key k :: p' =>
      match d with
      | JObj fields =>
          match prop k fields with
          | Some v => getPath p' v
          | None => None
          end
      | _ => None
      end
  | Idx i :: p' =>
      match d with
      | JArr items =>
          match nth_error items i with
          | Some v => getPath p' v
          | None => None
          end
      | _ => None
      end
  end.

(** Decimal rendering of an integer, as a template literal does. *)
Definition showZ (n : Z) : string := NilEmpty.string_of_int (Z.to_int n).

Definition hexDigit (n : N) : ascii :=
  ascii_of_N (if (n <? 10)%N then 48 + n else 87 + n).

(** One code unit inside a JSON string literal. *)
Definition escapeChar (c : ascii) : string :=
  let n := JsString.code c in
  let bs := ascii_of_N 92 in
  let two (d : ascii) := String bs (String d EmptyString) in
  if (n =? 34)%N then two c
  else if (n =? 92)%N then two c
  else if (n =? 8)%N then two "b"%char
  else if (n =? 12)%N then two "f"%char
  else if (n =? 10)%N then two "n"%char
  else if (n =? 13)%N then two "r"%char
  else if (n =? 9)%N then two "t"%char
  else if (n <? 32)%N then
    String bs
      (String "u" (String "0" (String "0"
         (String (hexDigit (n / 16)) (String (hexDigit (n mod 16))
            EmptyString)))))
  else String c EmptyString.

Fixpoint escape (s : string) : string :=
  match s with
  | EmptyString => EmptyString
  | String c s' => escapeChar c +:+ escape s'
  end.

Definition quote (s : string) : string :=
  let q := String (ascii_of_N 34) EmptyString in
  q +:+ escape s +:+ q.

Fixpoint joinComma (parts : list string) : string :=
  match parts with
  | [] => EmptyString
  | [x] => x
  | x :: rest => x +:+ "," +:+ joinComma rest
  end.

(** [JSON.stringify(d)] without indentation; numbers are integers and
    print in decimal. *)
Fixpoint stringify (d : json) : string :=
  match d with
  | JNull => "null"
  | JBool true => "true"
  | JBool false => "false"
  | JNum n => showZ n
  | JStr s => quote s
  | JArr items => "[" +:+ joinComma (map stringify items) +:+ "]"
  | JObj fields =>
      "{" +:+
      joinComma (map (fun kv => quote (fst kv) +:+ ":" +:+ stringify (snd kv))
                     fields)
      +:+ "}"
  end.

(** JavaScript truthiness. *)
Definition truthy (d : json) : bool :=
  match d with
  | JNull => false
  | JBool b => b
  | JNum n => negb (n =? 0)
  | JStr s => negb (String.eqb s "")
  | JArr _ | JObj _ => true
  end.

End Json.

(** ** Thrown errors *)

(** An [Error] object: its message and its [code] property, which Node
    and axios set on network failures and a plain [new Error(..)] lacks. *)
Record JsError : Type := mkError {
  message : string;
  code : option string
}.

Definition plainError (msg : string) : JsError :=
  {| message := msg; code := None |}.

(** ** SecurityGuardrails (orchestrator/security.ts) *)

Module SecurityGuardrails.
Import JsString Json.

Definition accessControl : list (string * list string) :=
  [ ("planner-agent", ["git-api"; "metrics-analyzer"]);
    ("security-agent", ["code-analysis"; "security-db"; "git-api"]);
    ("quality-agent", ["code-analysis"; "git-api"; "metrics-analyzer"]);
    ("validator-agent", ["security-db"; "llm-inference"]);
    ("prioritizer-agent",
      ["metrics-analyzer"; "compliance-engine"; "llm-inference"]);
    ("explainer-agent", ["security-db"; "llm-inference"]);
    ("ui-composer-agent", ["llm-inference"]) ].

Fixpoint lookupAgent (agentId : string) (m : list (string * list string))
  : option (list string) :=
  match m with
  | [] => None
  | (a, tools) :: rest =>
      if String.eqb a agentId then Some tools else lookupAgent agentId rest
  end.

(** The properties an object literal inherits from [Object.prototype]:
    [this.accessControl[agentId]] finds a function under these names,
    and the prototype itself under [__proto__]. *)
Definition inheritedProperties : list string :=
  [ "constructor"; "__defineGetter__"; "__defineSetter__";
    "hasOwnProperty"; "__lookupGetter__"; "__lookupSetter__";
    "isPrototypeOf"; "propertyIsEnumerable"; "toString"; "valueOf";
    "__proto__"; "toLocaleString" ].

(** [validateAgentAccess(agentId, toolId)].  The matrix is a plain
    object: for an agent id that names an inherited property the lookup
    gives a truthy value without [includes], and the call of
    [allowedTools.includes] throws a [TypeError]. *)
Definition validateAgentAccess (agentId toolId : string) : JsError + bool :=
  match lookupAgent agentId accessControl with
  | Some allowedTools => inr (existsb (String.eqb toolId) allowedTools)
  | None =>
      if existsb (String.eqb agentId) inheritedProperties
      then inl (plainError "allowedTools.includes is not a function")
      else inr false
  end.

Definition sensitiveKeys : list string :=
  [ "password"; "secret"; "api_key"; "apikey"; "token";
    "api-key"; "auth"; "credential"; "private_key" ].

Definition isSensitiveKey (key : string) : bool :=
  existsb (fun sk => includes (toLowerCase key) sk) sensitiveKeys.

Definition redactSecret (value : string) : string :=
  if (String.length value <=? 8)%nat then "***"
  else firstChars 4 value +:+ "..." +:+ lastChars 4 value.

(** *** Pattern redaction *)

(** [/AKIA[0-9A-Z]{16}/] matches at the head of [s]. *)
Definition awsKeyAt (s : string) : bool :=
  String.prefix "AKIA" s
  && (String.length (String.substring 4 16 s) =? 16)%nat
  && all (fun c => isDigit c || isUpper c) (String.substring 4 16 s).

(** [str.replace(/AKIA[0-9A-Z]{16}/g, 'AKIA...REDACTED')]: a left to
    right scan; [skip] counts the characters of the current match that
    are still to be consumed. *)
Fixpoint replaceAwsKeys (skip : nat) (s : string) : string :=
  match s with
  | EmptyString => EmptyString
  | String c s' =>
      match skip with
      | S k => replaceAwsKeys k s'
      | O =>
          if awsKeyAt s then "AKIA...REDACTED" +:+ replaceAwsKeys 19 s'
          else String c (replaceAwsKeys 0 s')
      end
  end.

(** The character class [[A-Za-z0-9+/=]]. *)
Definition isTokenChar (c : ascii) : bool :=
  isUpper c || isLower c || isDigit c
  || (code c =? 43)%N || (code c =? 47)%N || (code c =? 61)%N.

(** The distinct characters of [s] in order of first occurrence: the
    keys of the [charCounts] map. *)
Fixpoint distinctChars (seen : list ascii) (s : string) : list ascii :=
  match s with
  | EmptyString => []
  | String c s' =>
      if existsb (Ascii.eqb c) seen then distinctChars seen s'
      else c :: distinctChars (c :: seen) s'
  end.

Definition charCounts (s : string) : list Z :=
  map (fun c => Z.of_nat (count c s)) (distinctChars [] s).

(** The sum the loop of [hasHighEntropy] accumulates, over the reals:
    [entropy -= p * Math.log2(p)] for each count, [p = count / length]. *)
Definition entropy (s : string) : R :=
  fold_left
    (fun (acc : R) (count : Z) =>
       let p := (IZR count / INR (String.length s))%R in
       (acc - p * (ln p / ln 2))%R)
    (charCounts s) 0%R.

(** [hasHighEntropy]: [entropy > 4].  With [n] the length and
    [c_1 .. c_k] the counts (their sum is [n]),
      - sum (c_i/n) * log2 (c_i/n) > 4
    is  n * log2 n - sum c_i * log2 c_i > 4 * n,  that is
      n ^ n > 16 ^ n * prod (c_i ^ c_i),
    which is the comparison made here on integers, so that the test can
    be evaluated ([hasHighEntropy_entropy] below proves it equivalent to
    [4 < entropy s]).  The code evaluates the sum in double precision:
    the two can differ where the entropy is within rounding distance of
    4, as for a run whose entropy is exactly 4, so the statements below
    rely on the test only where the entropy is well away from 4: for
    strings of 40 characters, whose entropy is never closer to 4 than
    0.0001, and in worked examples. *)
Definition hasHighEntropy (s : string) : bool :=
  let n := Z.of_nat (String.length s) in
  16 ^ n * fold_right (fun c acc => c ^ c * acc) 1 (charCounts s) <? n ^ n.

(** The replacement callback of the second [replace]. *)
Definition redactMatch (m : string) : string :=
  if hasHighEntropy m then firstChars 4 m +:+ "...REDACTED" else m.

(** What becomes of a maximal run of token characters. *)
Definition flushRun (run : string) : string :=
  if (32 <=? String.length run)%nat then redactMatch run else run.

(** [str.replace(/[A-Za-z0-9+/=]{32,}/g, callback)]: the quantifier is
    greedy, so a match is a maximal run of token characters of length
    at least 32; [run] is the run read so far. *)
Fixpoint replaceTokens (run : string) (s : string) : string :=
  match s with
  | EmptyString => flushRun run
  | String c s' =>
      if isTokenChar c then replaceTokens (run +:+ String c EmptyString) s'
      else flushRun run +:+ String c (replaceTokens EmptyString s')
  end.

Definition redactPatternsInString (str : string) : string :=
  replaceTokens EmptyString (replaceAwsKeys 0 str).

(** *** Output filtering *)

(** The body of the loop of [filterObjectRecursive] for a string
    property. *)
Definition filterString (key value : string) : string :=
  redactPatternsInString
    (if isSensitiveKey key then redactSecret value else value).

(** The loop body of [filterObjectRecursive] for the property [key]
    holding [v]; [recur] is the recursive call. *)
Definition filterProp (recur : json -> json) (key : string) (v : json)
  : json :=
  match v with
  | JStr s => JStr (filterString key s)
  | JArr _ | JObj _ => recur v
  | _ => v
  end.

(** [for (const key in obj)] over the properties of an object ... *)
Definition filterProps (recur : json -> json)
  : list (string * json) -> list (string * json) :=
  fix props (fs : list (string * json)) :=
    match fs with
    | [] => []
    | (k, v) :: fs' => (k, filterProp recur k v) :: props fs'
    end.

(** ... and over the indices of an array, from index [i] on. *)
Definition filterElems (recur : json -> json)
  : nat -> list json -> list json :=
  fix elems (i : nat) (xs : list json) :=
    match xs with
    | [] => []
    | v :: xs' => filterProp recur (indexKey i) v :: elems (S i) xs'
    end.

Fixpoint filterObjectRecursive (obj : json) : json :=
  match obj with
  | JObj fields => JObj (filterProps filterObjectRecursive fields)
  | JArr items => JArr (filterElems filterObjectRecursive 0%nat items)
  | _ => obj
  end.

(** [JSON.parse(JSON.stringify(data))] is the identity on [json]. *)
Definition filterSensitiveData (data : json) : json :=
  match data with
  | JArr _ | JObj _ => filterObjectRecursive data
  | _ => data
  end.

End SecurityGuardrails.

(** ** RateLimitTracker (orchestrator/registry.ts) *)

Record RateLimitConfig : Type := {
  requestsPerMinute : Z;
  maxConcurrentRequests : Z
}.

Record RateLimitTracker : Type := {
  requestCounts : gmap string (list Z);
  config : RateLimitConfig
}.

Module RateLimit.

Definition newTracker (cfg : RateLimitConfig) : RateLimitTracker :=
  {| requestCounts := ∅; config := cfg |}.

(** [this.requestCounts.get(key) || []] *)
Definition window (key : string) (t : RateLimitTracker) : list Z :=
  default [] (requestCounts t !! key).

(** [timestamps.filter(ts => ts > oneMinuteAgo)] *)
Definition prune (now : Z) (timestamps : list Z) : list Z :=
  List.filter (fun ts => now - 60000 <? ts) timestamps.

(** [allowRequest(key)], [now] being the reading of [Date.now()]. *)
Definition allowRequest (now : Z) (key : string) (t : RateLimitTracker)
  : bool * RateLimitTracker :=
  let timestamps := prune now (window key t) in
  if requestsPerMinute (config t) <=? Z.of_nat (length timestamps)
  then (false, t)
  else (true, {| requestCounts :=
                   <[key := timestamps ++ [now]]> (requestCounts t);
                 config := config t |}).

(** A run of requests for one key at the given clock readings. *)
Fixpoint requests (times : list Z) (key : string) (t : RateLimitTracker)
  : list bool * RateLimitTracker :=
  match times with
  | [] => ([], t)
  | now :: rest =>
      let '(ok, t1) := allowRequest now key t in
      let '(oks, t2) := requests rest key t1 in
      (ok :: oks, t2)
  end.

End RateLimit.

(** ** ExecutionTracer (orchestrator/tracing.ts) *)

Inductive Component : Type := AgentC | OrchestratorC | McpToolC.

Record TraceEntry : Type := {
  traceId : string;
  spanId : string;
  parentSpanId : option string;
  timestamp : Z;
  duration : option Z;
  component : Component;
  componentId : string;
  action : string;
  input : option json;
  output : option json;
  error : option string;
  tags : list (string * string)
}.

Record StartSpanParams : Type := {
  p_component : Component;
  p_componentId : string;
  p_action : string;
  p_parentSpanId : option string;
  p_input : option json;
  p_tags : option (list (string * string))
}.

Record ExecutionTracer : Type := {
  traces : gmap string (list TraceEntry);
  activeSpans : gmap string TraceEntry
}.

Module Tracer.
Import Json.

Definition empty : ExecutionTracer := {| traces := ∅; activeSpans := ∅ |}.

Definition startTrace (traceId : string) (t : ExecutionTracer)
  : ExecutionTracer :=
  match traces t !! traceId with
  | Some _ => t
  | None => {| traces := <[traceId := []]> (traces t);
               activeSpans := activeSpans t |}
  end.

(** [generateSpanId]: [now] is [Date.now()], [rnd] the digits taken
    from [Math.random()]. *)
Definition generateSpanId (now : Z) (rnd : string) : string :=
  "span-" +:+ showZ now +:+ "-" +:+ rnd.

Definition sanitizeForLogging (data : json) : json :=
  match data with
  | JNull => JNull
  | _ =>
      let str := stringify data in
      if (1000 <? String.length str)%nat
      then JStr ("[Large object: " +:+ showZ (Z.of_nat (String.length str))
                 +:+ " bytes]")
      else data
  end.

(** [params.parentSpanId || spanId] *)
Definition orElse (o : option string) (d : string) : string :=
  match o with
  | Some s => if String.eqb s "" then d else s
  | None => d
  end.

(** [startSpan(params)]; [idNow] and [rnd] feed [generateSpanId],
    [now] is the reading stored as the span's timestamp. *)
Definition startSpan (idNow : Z) (rnd : string) (now : Z)
    (params : StartSpanParams) (t : ExecutionTracer)
  : string * ExecutionTracer :=
  let spanId := generateSpanId idNow rnd in
  let traceId := orElse (p_parentSpanId params) spanId in
  let entry :=
    {| traceId := traceId;
       spanId := spanId;
       parentSpanId := p_parentSpanId params;
       timestamp := now;
       duration := None;
       component := p_component params;
       componentId := p_componentId params;
       action := p_action params;
       input := sanitizeForLogging <$> p_input params;
       output := None;
       error := None;
       tags := default [] (p_tags params) |} in
  let t1 := {| traces := traces t;
               activeSpans := <[spanId := entry]> (activeSpans t) |} in
  (spanId, startTrace traceId t1).

Record SpanResult : Type := {
  r_output : option json;
  r_error : option string;
  r_duration : option Z
}.

(** [result.duration || (Date.now() - span.timestamp)] *)
Definition durationOr (d : option Z) (elapsed : Z) : Z :=
  match d with
  | Some n => if n =? 0 then elapsed else n
  | None => elapsed
  end.

(** [result.output ? this.sanitizeForLogging(result.output) : undefined] *)
Definition outputOf (o : option json) : option json :=
  match o with
  | Some d => if truthy d then Some (sanitizeForLogging d) else None
  | None => None
  end.

(** [endSpan(id, result)], [now] being the reading of [Date.now()]
    used when no duration is supplied. *)
Definition endSpan (now : Z) (id : string) (result : SpanResult)
    (t : ExecutionTracer) : ExecutionTracer :=
  match activeSpans t !! id with
  | None => t
  | Some span =>
      let done :=
        {| traceId := traceId span;
           spanId := spanId span;
           parentSpanId := parentSpanId span;
           timestamp := timestamp span;
           duration := Some (durationOr (r_duration result)
                                        (now - timestamp span));
           component := component span;
           componentId := componentId span;
           action := action span;
           input := input span;
           output := outputOf (r_output result);
           error := r_error result;
           tags := tags span |} in
      {| traces :=
           match traces t !! traceId span with
           | Some trace => <[traceId span := trace ++ [done]]> (traces t)
           | None => traces t
           end;
         activeSpans := delete id (activeSpans t) |}
  end.

Definition getTrace (traceId : string) (t : ExecutionTracer)
  : list TraceEntry :=
  default [] (traces t !! traceId).

End Tracer.

(** ** MCPRegistry (orchestrator/registry.ts) *)

Inductive AuthType : Type := ApiKeyAuth | OAuthAuth | NoAuth.

Record Authentication : Type := {
  auth_type : AuthType;
  auth_header : option string;
  auth_token : option string
}.

(** A definition as [register] receives it: [None] is a missing
    ([undefined]) property. *)
Record MCPToolDefinition : Type := {
  def_id : option string;
  def_name : string;
  def_endpoint : option string;
  def_capabilities : option (list string);
  def_healthCheck : string;
  def_authentication : option Authentication;
  def_rateLimits : RateLimitConfig
}.

Record SecurityContext : Type := {
  agentId : string;
  sessionId : string;
  userId : option string
}.

Record ToolInvocationRequest : Type := {
  toolId : string;
  method : string;
  params : json;
  securityContext : SecurityContext
}.

Record InvocationError : Type := {
  err_code : string;
  err_message : string;
  err_retryable : bool
}.

Record InvocationMetadata : Type := {
  duration_ms : Z;
  tool_id : string;
  meta_method : string
}.

Record ToolInvocationResult : Type := {
  success : bool;
  data : option json;
  res_error : option InvocationError;
  metadata : InvocationMetadata
}.

Record MCPRegistry : Type := {
  tools : gmap string MCPToolDefinition;
  rateLimitTrackers : gmap string RateLimitTracker;
  tracer : ExecutionTracer
}.

(** The [Date.now()] readings and the random digits one [invokeTool]
    call consumes, in program order. *)
Record InvokeEnv : Type := {
  startTime : Z;      (* const startTime = Date.now() *)
  spanIdNow : Z;      (* generateSpanId *)
  spanRnd : string;   (* generateSpanId *)
  spanNow : Z;        (* timestamp of the span *)
  rateNow : Z;        (* allowRequest *)
  endTime : Z;        (* Date.now() - startTime *)
  endSpanNow : Z      (* endSpan, read when the duration is 0 *)
}.

Module Sanitize.
Import JsString Json.

Definition typeError (msg : string) : JsError := plainError msg.

(** [{ ...params }] as a list of own properties. *)
Fixpoint indexed (i : nat) (items : list json) : list (string * json) :=
  match items with
  | [] => []
  | v :: rest => (indexKey i, v) :: indexed (S i) rest
  end.

(** [x.includes(needle)] for a value [x] of unknown type, [name] being
    the variable that holds it: [inr b] is the answer, [inl] the
    TypeError of a receiver without the method. *)
Definition includesAny (name : string) (x : json) (needle : string)
  : JsError + bool :=
  match x with
  | JStr s => inr (includes s needle)
  | JArr items =>
      inr (existsb (fun v => match v with
                             | JStr s => String.eqb s needle
                             | _ => false
                             end) items)
  | JNull => inl (typeError
                    "Cannot read properties of null (reading 'includes')")
  | _ => inl (typeError (name +:+ ".includes is not a function"))
  end.

(** The path-traversal guard on [repo_path || file_path]. *)
Definition checkPath (fields : list (string * json)) : JsError + unit :=
  let pick (k : string) :=
    match prop k fields with
    | Some v => if truthy v then Some v else None
    | None => None
    end in
  match (match pick "repo_path" with
         | Some v => Some v
         | None => pick "file_path"
         end) with
  | None => inr tt
  | Some path =>
      match includesAny "path" path ".." with
      | inl e => inl e
      | inr true => inl (plainError "Path traversal detected")
      | inr false =>
          match includesAny "path" path "~" with
          | inl e => inl e
          | inr true => inl (plainError "Path traversal detected")
          | inr false => inr tt
          end
      end
  end.

(** [sanitized.files.map(file => ...)]: the first offending element
    throws. *)
Fixpoint checkFiles (files : list json) : JsError + unit :=
  match files with
  | [] => inr tt
  | file :: rest =>
      match includesAny "file" file ".." with
      | inl e => inl e
      | inr true => inl (plainError "Path traversal detected in file list")
      | inr false => checkFiles rest
      end
  end.

Definition stripStrings (fields : list (string * json))
  : list (string * json) :=
  map (fun kv => match snd kv with
                 | JStr s => (fst kv, JStr (stripControl s))
                 | _ => kv
                 end) fields.

Definition sanitizeObject (fields : list (string * json)) : JsError + json :=
  match checkPath fields with
  | inl e => inl e
  | inr _ =>
      match (match prop "files" fields with
             | Some (JArr files) => checkFiles files
             | _ => inr tt
             end) with
      | inl e => inl e
      | inr _ => inr (JObj (stripStrings fields))
      end
  end.

Definition sanitizeToolInput (params : json) : JsError + json :=
  match params with
  | JObj fields => sanitizeObject fields
  | JArr items => sanitizeObject (indexed 0 items)
  | _ => inr params
  end.

End Sanitize.

Module Registry.
Import Json.

Definition empty : MCPRegistry :=
  {| tools := ∅; rateLimitTrackers := ∅; tracer := Tracer.empty |}.

(** [!x] for a property that should hold a string. *)
Definition missing (x : option string) : bool :=
  match x with
  | None => true
  | Some s => String.eqb s ""
  end.

(** [register(tool)]: [inl] is the thrown error. *)
Definition register (tool : MCPToolDefinition) (r : MCPRegistry)
  : JsError + MCPRegistry :=
  match def_id tool, def_capabilities tool with
  | Some id, Some _ =>
      if missing (def_id tool) || missing (def_endpoint tool)
      then inl (plainError "Invalid tool definition")
      else inr {| tools := <[id := tool]> (tools r);
                  rateLimitTrackers :=
                    <[id := RateLimit.newTracker (def_rateLimits tool)]>
                      (rateLimitTrackers r);
                  tracer := tracer r |}
  | _, _ => inl (plainError "Invalid tool definition")
  end.

Definition getTool (id : string) (r : MCPRegistry)
  : option MCPToolDefinition :=
  tools r !! id.

Definition retryableCodes : list string :=
  ["ECONNREFUSED"; "ETIMEDOUT"; "RATE_LIMIT_EXCEEDED"].

Definition isRetryableError (e : JsError) : bool :=
  match code e with
  | Some c => existsb (String.eqb c) retryableCodes
  | None => false
  end.

Definition withTracer (t : ExecutionTracer) (r : MCPRegistry) : MCPRegistry :=
  {| tools := tools r; rateLimitTrackers := rateLimitTrackers r;
     tracer := t |}.

Definition withTracker (id : string) (t : RateLimitTracker)
    (r : MCPRegistry) : MCPRegistry :=
  {| tools := tools r;
     rateLimitTrackers := <[id := t]> (rateLimitTrackers r);
     tracer := tracer r |}.

Definition metadataOf (env : InvokeEnv) (req : ToolInvocationRequest)
  : InvocationMetadata :=
  {| duration_ms := endTime env - startTime env;
     tool_id := toolId req;
     meta_method := method req |}.

(** Steps 1 to 4 of the [try] block: lookup, access control, rate
    limiting, input sanitization. *)
Definition checks (env : InvokeEnv) (req : ToolInvocationRequest)
    (r : MCPRegistry)
  : (JsError + (MCPToolDefinition * json)) * MCPRegistry :=
  let ctx := securityContext req in
  match getTool (toolId req) r with
  | None =>
      (inl (plainError ("Tool " +:+ toolId req +:+ " not found in registry")),
       r)
  | Some tool =>
      match SecurityGuardrails.validateAgentAccess (agentId ctx)
              (toolId req) with
      | inl e => (inl e, r)
      | inr false =>
          (inl (plainError ("Agent " +:+ agentId ctx
                            +:+ " not authorized to access " +:+ toolId req)),
           r)
      | inr true =>
        match rateLimitTrackers r !! toolId req with
        | None =>
            (inl (Sanitize.typeError
               "Cannot read properties of undefined (reading 'allowRequest')"),
             r)
        | Some rateLimiter =>
            let '(ok, limiter1) :=
              RateLimit.allowRequest (rateNow env) (sessionId ctx)
                                     rateLimiter in
            let r1 := withTracker (toolId req) limiter1 r in
            if negb ok
            then (inl (plainError ("Rate limit exceeded for " +:+ toolId req)),
                  r1)
            else
              match Sanitize.sanitizeToolInput (params req) with
              | inl e => (inl e, r1)
              | inr sanitizedParams => (inr (tool, sanitizedParams), r1)
              end
        end
      end
  end.

(** [error.code || 'TOOL_INVOCATION_ERROR'] *)
Definition codeOf (e : JsError) : string :=
  match code e with
  | Some c => if String.eqb c "" then "TOOL_INVOCATION_ERROR" else c
  | None => "TOOL_INVOCATION_ERROR"
  end.

(** The [catch] block. *)
Definition failed (env : InvokeEnv) (req : ToolInvocationRequest)
    (span : string) (e : JsError) (r : MCPRegistry)
  : ToolInvocationResult * MCPRegistry :=
  let duration := endTime env - startTime env in
  let t := Tracer.endSpan (endSpanNow env) span
             {| Tracer.r_output := None;
                Tracer.r_error := Some (message e);
                Tracer.r_duration := Some duration |} (tracer r) in
  ({| success := false;
      data := None;
      res_error := Some {| err_code := codeOf e;
                           err_message := message e;
                           err_retryable := isRetryableError e |};
      metadata := metadataOf env req |},
   withTracer t r).

(** Steps 6 and 7 of the [try] block, after the tool server answered. *)
Definition succeeded (env : InvokeEnv) (req : ToolInvocationRequest)
    (span : string) (response : json) (r : MCPRegistry)
  : ToolInvocationResult * MCPRegistry :=
  let filteredOutput := SecurityGuardrails.filterSensitiveData response in
  let duration := endTime env - startTime env in
  let t := Tracer.endSpan (endSpanNow env) span
             {| Tracer.r_output := Some filteredOutput;
                Tracer.r_error := None;
                Tracer.r_duration := Some duration |} (tracer r) in
  ({| success := true;
      data := Some filteredOutput;
      res_error := None;
      metadata := metadataOf env req |},
   withTracer t r).

(** An invocation suspended at [await this.callToolAPI(..)]. *)
Record PendingCall : Type := {
  call_span : string;
  call_tool : MCPToolDefinition;
  call_params : json
}.

Inductive Begun : Type :=
| Rejected (res : ToolInvocationResult)
| Pending (call : PendingCall).

(** [invokeTool] up to the point where the HTTP request is sent. *)
Definition invokeBegin (env : InvokeEnv) (req : ToolInvocationRequest)
    (r : MCPRegistry) : Begun * MCPRegistry :=
  let '(span, t) :=
    Tracer.startSpan (spanIdNow env) (spanRnd env) (spanNow env)
      {| p_component := McpToolC;
         p_componentId := toolId req;
         p_action := method req;
         p_parentSpanId := Some (sessionId (securityContext req));
         p_input := Some (params req);
         p_tags := None |} (tracer r) in
  match checks env req (withTracer t r) with
  | (inl e, r1) =>
      let '(res, r2) := failed env req span e r1 in (Rejected res, r2)
  | (inr (tool, sanitizedParams), r1) =>
      (Pending {| call_span := span; call_tool := tool;
                  call_params := sanitizedParams |}, r1)
  end.

(** [invokeTool] from the answer of the tool server on: [inl] is the
    error [axios.post] rejected with. *)
Definition invokeEnd (env : InvokeEnv) (req : ToolInvocationRequest)
    (call : PendingCall) (response : JsError + json) (r : MCPRegistry)
  : ToolInvocationResult * MCPRegistry :=
  match response with
  | inl e => failed env req (call_span call) e r
  | inr body => succeeded env req (call_span call) body r
  end.

(** [axios.post(url, body, { headers, timeout })]: the answer of the
    tool server, or the error the request is rejected with. *)
Definition Http : Type :=
  string -> list (string * string) -> json -> JsError + json.

Definition orUndefined (x : option string) : string :=
  default "undefined" x.

(** [callToolAPI(tool, method, params)] *)
Definition callToolAPI (post : Http) (tool : MCPToolDefinition)
    (meth : string) (args : json) : JsError + json :=
  let headers :=
    match def_authentication tool with
    | Some {| auth_type := ApiKeyAuth; auth_header := h; auth_token := t |} =>
        if String.eqb (orUndefined h) "Content-Type"
        then [("Content-Type", orUndefined t)]
        else [("Content-Type", "application/json");
              (orUndefined h, orUndefined t)]
    | _ => [("Content-Type", "application/json")]
    end in
  post (orUndefined (def_endpoint tool) +:+ "/" +:+ meth) headers args.

Definition invokeTool (env : InvokeEnv) (post : Http)
    (req : ToolInvocationRequest) (r : MCPRegistry)
  : ToolInvocationResult * MCPRegistry :=
  match invokeBegin env req r with
  | (Rejected res, r1) => (res, r1)
  | (Pending call, r1) =>
      invokeEnd env req call
        (callToolAPI post (call_tool call) (method req) (call_params call))
        r1
  end.

End Registry.

(** ** BaseAgent (agents/base.ts) *)

Record AgentContext : Type := {
  ctx_sessionId : string;
  ctx_input : json
}.

(** An agent: its identity and its [run] method.  [run] is the
    agent-specific logic; it works on the registry it shares with the
    orchestrator and either returns a result or throws. *)
Record BaseAgent : Type := {
  agent_id : string;
  agent_name : string;
  run : AgentContext -> MCPRegistry -> (JsError + json) * MCPRegistry
}.

(** The readings one [execute] call consumes for its own span. *)
Record SpanEnv : Type := {
  se_idNow : Z;
  se_rnd : string;
  se_now : Z;
  se_endNow : Z
}.

Module Agent.

(** [execute(context)] *)
Definition execute (env : SpanEnv) (a : BaseAgent) (context : AgentContext)
    (r : MCPRegistry) : (JsError + json) * MCPRegistry :=
  let '(span, t) :=
    Tracer.startSpan (se_idNow env) (se_rnd env) (se_now env)
      {| p_component := AgentC;
         p_componentId := agent_id a;
         p_action := "execute";
         p_parentSpanId := Some (ctx_sessionId context);
         p_input := Some (ctx_input context);
         p_tags := None |} (tracer r) in
  match run a context (Registry.withTracer t r) with
  | (inr result, r1) =>
      (inr result,
       Registry.withTracer
         (Tracer.endSpan (se_endNow env) span
            {| Tracer.r_output := Some result;
               Tracer.r_error := None;
               Tracer.r_duration := None |} (tracer r1)) r1)
  | (inl e, r1) =>
      (inl e,
       Registry.withTracer
         (Tracer.endSpan (se_endNow env) span
            {| Tracer.r_output := None;
               Tracer.r_error := Some (message e);
               Tracer.r_duration := None |} (tracer r1)) r1)
  end.

(** The protected helper [invokeTool(toolId, method, params, sessionId)]
    of the agent with identity [self]. *)
Definition invokeTool (env : InvokeEnv) (post : Registry.Http)
    (self : string) (tool meth : string) (args : json) (session : string)
    (r : MCPRegistry) : (JsError + json) * MCPRegistry :=
  let '(result, r1) :=
    Registry.invokeTool env post
      {| toolId := tool; method := meth; params := args;
         securityContext :=
           {| agentId := self; sessionId := session; userId := None |} |}
      r in
  if success result
  then (inr (default JNull (data result)), r1)
  else (inl (plainError
               ("Tool invocation failed: "
                +:+ match res_error result with
                    | Some e => err_message e
                    | None => "undefined"
                    end)), r1).

End Agent.

(** ** OrchestratorRuntime (orchestrator/runtime.ts) *)

Inductive Status : Type := Planning | Running | Completed | Failed.

Record Summary : Type := {
  critical : Z;
  high : Z;
  medium : Z;
  low : Z;
  totalFindings : Z
}.

Record AuditResults : Type := {
  summary : Summary;
  findings : list json;
  complianceScore : option json;
  remediationPlan : option json;
  uiSpec : option json
}.

Record AuditSession : Type := {
  session_id : string;
  status : Status;
  startedAt : Z;
  completedAt : option Z;
  results : option AuditResults;
  session_error : option string
}.

Record AuditOptions : Type := {
  frameworks : option (list string);
  priority : option string
}.

Record AuditRequest : Type := {
  repoPath : string;
  req_userId : option string;
  options : option AuditOptions
}.

(** The lifecycle notifications, one constructor per [emit] call site. *)
Inductive Event : Type :=
| AuditStarted (session : string) (request : AuditRequest)
| AuditProgress (session : string) (stage : string)
| AgentStarted (session agent : string)
| AgentCompleted (session agent : string) (result : json)
| AgentFailed (session agent : string) (err : string)
| AuditCompleted (session : string) (res : AuditResults) (elapsed : Z)
| AuditFailed (session : string) (err : string).

(** A listener registered with [on], as far as the control flow of the
    emitter goes: it returns ([None]) or throws.  The code hands the
    payload over by reference; what a listener writes to the request, a
    plan or result, or the results of a session is not part of this
    model, and nothing below is stated about listeners that do. *)
Definition Subscriber : Type := Event -> option JsError.

(** A session object lives on the heap; the [activeSessions] map and
    every caller of [getSession] hold its address. *)
Record OrchestratorRuntime : Type := {
  registry : MCPRegistry;
  agents : gmap string BaseAgent;
  activeSessions : gmap string nat;
  heap : list AuditSession
}.

(** The order in which the three agents of the parallel stage finish
    (S: security, Q: quality, C: compliance). *)
Inductive Schedule : Type := SQC | SCQ | QSC | QCS | CSQ | CQS.

(** What one audit reads from outside: the generated session id, the
    [Date.now()] readings of the orchestrator, the readings of each
    agent's span and the schedule of the parallel stage. *)
Record AuditEnv : Type := {
  uuid : string;
  startedNow : Z;
  completedNow : Z;
  failedNow : Z;
  spanEnvOf : string -> SpanEnv;
  schedule : Schedule
}.

Module Orchestrator.
Import Json.

(** *** State and exception monad *)

Definition M (A : Type) : Type :=
  OrchestratorRuntime -> (JsError + A) * OrchestratorRuntime.

Definition ret {A} (a : A) : M A := fun o => (inr a, o).
Definition throw {A} (e : JsError) : M A := fun o => (inl e, o).
Definition bind {A B} (m : M A) (k : A -> M B) : M B :=
  fun o => match m o with
           | (inr a, o1) => k a o1
           | (inl e, o1) => (inl e, o1)
           end.
Definition tryCatch {A} (m : M A) (handler : JsError -> M A) : M A :=
  fun o => match m o with
           | (inr a, o1) => (inr a, o1)
           | (inl e, o1) => handler e o1
           end.
Definition lift {A} (x : JsError + A) : M A := fun o => (x, o).

Notation "'let!' x ':=' m 'in' k" := (bind m (fun x => k))
  (at level 10, x name, m at level 100, k at level 200).
Notation "'run!' m 'in' k" := (bind m (fun _ => k))
  (at level 10, m at level 100, k at level 200).

(** *** Plain helpers *)

Definition empty : OrchestratorRuntime :=
  {| registry := Registry.empty; agents := ∅; activeSessions := ∅;
     heap := [] |}.

Definition registerAgent (a : BaseAgent) (o : OrchestratorRuntime)
  : OrchestratorRuntime :=
  {| registry := registry o;
     agents := <[agent_id a := a]> (agents o);
     activeSessions := activeSessions o;
     heap := heap o |}.

Definition withRegistry (r : MCPRegistry) (o : OrchestratorRuntime)
  : OrchestratorRuntime :=
  {| registry := r; agents := agents o;
     activeSessions := activeSessions o; heap := heap o |}.

(** A write to a property of the session object at address [loc]. *)
Definition update (loc : nat) (f : AuditSession -> AuditSession) : M unit :=
  fun o =>
    (inr tt,
     {| registry := registry o; agents := agents o;
        activeSessions := activeSessions o;
        heap := match heap o !! loc with
                | Some s => <[loc := f s]> (heap o)
                | None => heap o
                end |}).

Definition setStatus (st : Status) (s : AuditSession) : AuditSession :=
  {| session_id := session_id s; status := st; startedAt := startedAt s;
     completedAt := completedAt s; results := results s;
     session_error := session_error s |}.

Definition setCompletedAt (now : Z) (s : AuditSession) : AuditSession :=
  {| session_id := session_id s; status := status s;
     startedAt := startedAt s; completedAt := Some now;
     results := results s; session_error := session_error s |}.

Definition setResults (res : AuditResults) (s : AuditSession)
  : AuditSession :=
  {| session_id := session_id s; status := status s;
     startedAt := startedAt s; completedAt := completedAt s;
     results := Some res; session_error := session_error s |}.

Definition setError (msg : string) (s : AuditSession) : AuditSession :=
  {| session_id := session_id s; status := status s;
     startedAt := startedAt s; completedAt := completedAt s;
     results := results s; session_error := Some msg |}.

(** [this.emit(event)]: the listeners run synchronously in
    registration order; the first one that throws ends the emission and
    the exception leaves [emit]. *)
Fixpoint fire (subs : list Subscriber) (ev : Event) : option JsError :=
  match subs with
  | [] => None
  | s :: rest =>
      match s ev with
      | Some e => Some e
      | None => fire rest ev
      end
  end.

Definition emit (subs : list Subscriber) (ev : Event) : M unit :=
  fun o => match fire subs ev with
           | Some e => (inl e, o)
           | None => (inr tt, o)
           end.

(** [x.name] for a value [x] of unknown type; [None] is [undefined]. *)
Definition getProp (name : string) (x : json) : JsError + option json :=
  match x with
  | JNull => inl (plainError ("Cannot read properties of null (reading '"
                              +:+ name +:+ "')"))
  | JObj fields => inr (prop name fields)
  | _ => inr None
  end.

(** An object literal; a property whose value is [undefined] is left
    out, as [JSON.stringify] does when the tracer and the agents see
    the object. *)
Fixpoint objOf (fields : list (string * option json))
  : list (string * json) :=
  match fields with
  | [] => []
  | (k, Some v) :: rest => (k, v) :: objOf rest
  | (_, None) :: rest => objOf rest
  end.

Fixpoint chars (i : nat) (s : string) : list (string * json) :=
  match s with
  | EmptyString => []
  | String c s' =>
      (indexKey i, JStr (String c EmptyString)) :: chars (S i) s'
  end.

(** The own enumerable properties [{ ...x }] copies. *)
Definition spread (x : json) : list (string * json) :=
  match x with
  | JObj fields => fields
  | JArr items => Sanitize.indexed 0 items
  | JStr s => chars 0 s
  | _ => []
  end.

Fixpoint setProp (key : string) (v : json) (fields : list (string * json))
  : list (string * json) :=
  match fields with
  | [] => [(key, v)]
  | (k, w) :: rest =>
      if String.eqb k key then (k, v) :: rest
      else (k, w) :: setProp key v rest
  end.

(** [request.options?.frameworks || ['PCI-DSS']] *)
Definition frameworksOf (request : AuditRequest) : json :=
  match options request with
  | Some opts =>
      match frameworks opts with
      | Some fs => JArr (map JStr fs)
      | None => JArr [JStr "PCI-DSS"]
      end
  | None => JArr [JStr "PCI-DSS"]
  end.

Definition optionsJson (request : AuditRequest) : option json :=
  match options request with
  | Some opts =>
      Some (JObj (objOf
        [("frameworks", (fun fs => JArr (map JStr fs)) <$> frameworks opts);
         ("priority", JStr <$> priority opts)]))
  | None => None
  end.

(** [x.slice(0, 10)] for a value [x] of unknown type. *)
Definition slice10 (x : option json) : JsError + json :=
  match x with
  | None => inl (plainError
                   "Cannot read properties of undefined (reading 'slice')")
  | Some JNull => inl (plainError
                   "Cannot read properties of null (reading 'slice')")
  | Some (JArr items) => inr (JArr (firstn 10 items))
  | Some (JStr s) => inr (JStr (JsString.firstChars 10 s))
  | Some _ => inl (plainError
      "prioritizationResults.prioritizedFindings.slice is not a function")
  end.

(** [finding.severity || finding.original_severity] *)
Definition severityOf (finding : json) : JsError + option json :=
  match getProp "severity" finding with
  | inl e => inl e
  | inr (Some v) =>
      if truthy v then inr (Some v) else getProp "original_severity" finding
  | inr None => getProp "original_severity" finding
  end.

Definition bump (sev : option json) (s : Summary) : Summary :=
  let named (name : string) :=
    match sev with
    | Some (JStr x) => String.eqb x name
    | _ => false
    end in
  if named "critical" then
    {| critical := critical s + 1; high := high s; medium := medium s;
       low := low s; totalFindings := totalFindings s |}
  else if named "high" then
    {| critical := critical s; high := high s + 1; medium := medium s;
       low := low s; totalFindings := totalFindings s |}
  else if named "medium" then
    {| critical := critical s; high := high s; medium := medium s + 1;
       low := low s; totalFindings := totalFindings s |}
  else if named "low" then
    {| critical := critical s; high := high s; medium := medium s;
       low := low s + 1; totalFindings := totalFindings s |}
  else s.

Fixpoint tally (items : list json) (s : Summary) : JsError + Summary :=
  match items with
  | [] => inr s
  | finding :: rest =>
      match severityOf finding with
      | inl e => inl e
      | inr sev => tally rest (bump sev s)
      end
  end.

(** [calculateSummary(findings)]; only an array has both [length] and
    [forEach]. *)
Definition calculateSummary (x : option json)
  : JsError + (Summary * list json) :=
  match x with
  | Some (JArr items) =>
      match tally items
              {| critical := 0; high := 0; medium := 0; low := 0;
                 totalFindings := Z.of_nat (length items) |} with
      | inl e => inl e
      | inr s => inr (s, items)
      end
  | None => inl (plainError
              "Cannot read properties of undefined (reading 'length')")
  | Some JNull => inl (plainError
              "Cannot read properties of null (reading 'length')")
  | Some _ => inl (plainError "findings.forEach is not a function")
  end.

(** *** Running agents *)

(** [agent.execute({ sessionId, input })] on the shared registry. *)
Definition executeAgent (env : AuditEnv) (a : BaseAgent)
    (session : string) (input : json) : M json :=
  fun o =>
    let '(res, r) :=
      Agent.execute (spanEnvOf env (agent_id a)) a
        {| ctx_sessionId := session; ctx_input := input |} (registry o) in
    (res, withRegistry r o).

(** The promise an [async] call has returned. *)
Inductive Promise : Type :=
| Settled (outcome : JsError + json)
| Running_ (a : BaseAgent).

(** [runAgent] up to its [await]: look the agent up and announce it. *)
Definition runAgentStart (subs : list Subscriber) (agent session : string)
  : OrchestratorRuntime -> Promise * OrchestratorRuntime :=
  fun o =>
    match agents o !! agent with
    | None =>
        (Settled (inl (plainError ("Agent " +:+ agent +:+ " not found"))), o)
    | Some a =>
        match emit subs (AgentStarted session agent) o with
        | (inl e, o1) => (Settled (inl e), o1)
        | (inr _, o1) => (Running_ a, o1)
        end
    end.

(** [runAgent] from its [await] on: the [try] and [catch] blocks. *)
Definition runAgentFinish (subs : list Subscriber) (env : AuditEnv)
    (agent session : string) (input : json) (a : BaseAgent) : M json :=
  tryCatch
    (let! result := executeAgent env a session input in
     run! emit subs (AgentCompleted session agent result) in
     ret result)
    (fun e =>
       run! emit subs (AgentFailed session agent (message e)) in
       throw e).

Definition settle (subs : list Subscriber) (env : AuditEnv)
    (agent session : string) (input : json) (p : Promise)
  : OrchestratorRuntime -> Promise * OrchestratorRuntime :=
  fun o =>
    match p with
    | Settled _ => (p, o)
    | Running_ a =>
        let '(res, o1) := runAgentFinish subs env agent session input a o in
        (Settled res, o1)
    end.

Definition outcome (p : Promise) : option (JsError + json) :=
  match p with
  | Settled x => Some x
  | Running_ _ => None
  end.

(** [await this.runAgent(agentId, sessionId, input)] *)
Definition runAgent (subs : list Subscriber) (env : AuditEnv)
    (agent session : string) (input : json) : M json :=
  fun o =>
    let '(p, o1) := runAgentStart subs agent session o in
    match p with
    | Settled x => (x, o1)
    | Running_ a => runAgentFinish subs env agent session input a o1
    end.

(** *** The parallel analysis stage *)

Inductive Slot : Type := SecuritySlot | QualitySlot | ComplianceSlot.

Definition order (s : Schedule) : list Slot :=
  match s with
  | SQC => [SecuritySlot; QualitySlot; ComplianceSlot]
  | SCQ => [SecuritySlot; ComplianceSlot; QualitySlot]
  | QSC => [QualitySlot; SecuritySlot; ComplianceSlot]
  | QCS => [QualitySlot; ComplianceSlot; SecuritySlot]
  | CSQ => [ComplianceSlot; SecuritySlot; QualitySlot]
  | CQS => [ComplianceSlot; QualitySlot; SecuritySlot]
  end.

Definition rejection (p : Promise) : option JsError :=
  match p with
  | Settled (inl e) => Some e
  | _ => None
  end.

(** The first of two rejections is the one [Promise.all] reports. *)
Definition orFirst (a b : option JsError) : option JsError :=
  match a with
  | Some e => Some e
  | None => b
  end.

Record Parallel : Type := {
  securityP : Promise;
  qualityP : Promise;
  complianceP : Promise;
  rejected : option JsError
}.

(** The three calls of [runAgent] inside the array literal, each up to
    its [await]. *)
Definition startAll (subs : list Subscriber) (session : string)
  : OrchestratorRuntime -> Parallel * OrchestratorRuntime :=
  fun o =>
    let '(p0, o0) := runAgentStart subs "security-agent" session o in
    let '(p1, o1) := runAgentStart subs "quality-agent" session o0 in
    let '(p2, o2) := runAgentStart subs "compliance-agent" session o1 in
    ({| securityP := p0; qualityP := p1; complianceP := p2;
        rejected := orFirst (rejection p0)
                      (orFirst (rejection p1) (rejection p2)) |}, o2).

(** One agent of the stage runs to completion. *)
Definition settleSlot (subs : list Subscriber) (env : AuditEnv)
    (session : string) (plan complianceInput : json) (slot : Slot)
    (ps : Parallel) : OrchestratorRuntime -> Parallel * OrchestratorRuntime :=
  fun o =>
    match slot with
    | SecuritySlot =>
        let '(q, o1) :=
          settle subs env "security-agent" session plan (securityP ps) o in
        ({| securityP := q; qualityP := qualityP ps;
            complianceP := complianceP ps;
            rejected := orFirst (rejected ps) (rejection q) |}, o1)
    | QualitySlot =>
        let '(q, o1) :=
          settle subs env "quality-agent" session plan (qualityP ps) o in
        ({| securityP := securityP ps; qualityP := q;
            complianceP := complianceP ps;
            rejected := orFirst (rejected ps) (rejection q) |}, o1)
    | ComplianceSlot =>
        let '(q, o1) :=
          settle subs env "compliance-agent" session complianceInput
                 (complianceP ps) o in
        ({| securityP := securityP ps; qualityP := qualityP ps;
            complianceP := q;
            rejected := orFirst (rejected ps) (rejection q) |}, o1)
    end.

Fixpoint settleAll (subs : list Subscriber) (env : AuditEnv)
    (session : string) (plan complianceInput : json) (slots : list Slot)
    (ps : Parallel) : OrchestratorRuntime -> Parallel * OrchestratorRuntime :=
  fun o =>
    match slots with
    | [] => (ps, o)
    | slot :: rest =>
        let '(ps1, o1) :=
          settleSlot subs env session plan complianceInput slot ps o in
        settleAll subs env session plan complianceInput rest ps1 o1
    end.

(** [await Promise.all([...])]: the promises already rejected when the
    array is built are seen first, in array order; then the agents
    finish in the order of the schedule, each [execute] taken as one
    step.  The first rejection is the result; the other agents run on. *)
Definition parallelStage (subs : list Subscriber) (env : AuditEnv)
    (session : string) (plan : json) (request : AuditRequest)
  : M (json * json * json) :=
  fun o =>
    let complianceInput :=
      JObj (setProp "frameworks" (frameworksOf request) (spread plan)) in
    let '(ps, o1) := startAll subs session o in
    let '(ps1, o2) :=
      settleAll subs env session plan complianceInput
                (order (schedule env)) ps o1 in
    match rejected ps1, securityP ps1, qualityP ps1, complianceP ps1 with
    | Some e, _, _, _ => (inl e, o2)
    | None, Settled (inr a), Settled (inr b), Settled (inr c) =>
        (inr (a, b, c), o2)
    | None, _, _, _ =>
        (* not reached: every schedule settles the three promises *)
        (inl (plainError "parallel stage left unsettled"), o2)
    end.

(** *** The audit workflow *)

(** [this.activeSessions.get(sessionId)!] *)
Definition sessionRef (session : string) : M nat :=
  fun o =>
    match activeSessions o !! session with
    | Some loc => (inr loc, o)
    | None =>
        (inl (plainError
           "Cannot set properties of undefined (setting 'status')"), o)
    end.

(** A read of the session object at [loc]; addresses handed out by
    [startAudit] never dangle. *)
Definition load (loc : nat) : M AuditSession :=
  fun o =>
    match heap o !! loc with
    | Some s => (inr s, o)
    | None => (inl (plainError "dangling session reference"), o)
    end.

Definition plannerAgent : M BaseAgent :=
  fun o =>
    match agents o !! "planner-agent" with
    | Some a => (inr a, o)
    | None => (inl (plainError "Planner agent not found"), o)
    end.

Definition runAudit (subs : list Subscriber) (env : AuditEnv)
    (session : string) (request : AuditRequest) : M unit :=
  let! loc := sessionRef session in
  (* Step 1: planning *)
  run! update loc (setStatus Planning) in
  run! emit subs (AuditProgress session "planning") in
  let! planner := plannerAgent in
  let! plan :=
    executeAgent env planner session
      (JObj [("repoPath", JStr (repoPath request))]) in
  run! emit subs (AgentCompleted session "planner-agent" plan) in
  (* Step 2: parallel analysis *)
  run! update loc (setStatus Running) in
  run! emit subs (AuditProgress session "analysis") in
  let! analysis := parallelStage subs env session plan request in
  let securityResults := fst (fst analysis) in
  let qualityResults := snd (fst analysis) in
  let complianceResults := snd analysis in
  (* Step 3: validation *)
  run! emit subs (AuditProgress session "validation") in
  let! securityFindings := lift (getProp "findings" securityResults) in
  let! qualityFindings := lift (getProp "findings" qualityResults) in
  let! validationResults :=
    runAgent subs env "validator-agent" session
      (JObj (objOf [("securityFindings", securityFindings);
                    ("qualityFindings", qualityFindings)])) in
  (* Step 4: prioritization *)
  run! emit subs (AuditProgress session "prioritization") in
  let! validated := lift (getProp "validatedFindings" validationResults) in
  let! prioritizationResults :=
    runAgent subs env "prioritizer-agent" session
      (JObj (objOf [("findings", validated);
                    ("businessContext", optionsJson request)])) in
  (* Step 5: explanation of the top findings *)
  run! emit subs (AuditProgress session "explanation") in
  let! prioritized :=
    lift (getProp "prioritizedFindings" prioritizationResults) in
  let! top := lift (slice10 prioritized) in
  let! explainerResults :=
    runAgent subs env "explainer-agent" session
      (JObj [("findings", top)]) in
  (* Step 6: UI generation *)
  run! emit subs (AuditProgress session "ui-generation") in
  let! explanations := lift (getProp "explanations" explainerResults) in
  let! score := lift (getProp "score" complianceResults) in
  let! remediation :=
    lift (getProp "remediationPlan" prioritizationResults) in
  let! uiComposerResults :=
    runAgent subs env "ui-composer-agent" session
      (JObj (objOf [("findings", prioritized);
                    ("explanations", explanations);
                    ("complianceScore", score);
                    ("remediationPlan", remediation)])) in
  (* Step 7: complete *)
  run! update loc (setStatus Completed) in
  run! update loc (setCompletedAt (completedNow env)) in
  let! counted := lift (calculateSummary prioritized) in
  let! ui := lift (getProp "uiSpec" uiComposerResults) in
  let res := {| summary := fst counted;
                findings := snd counted;
                complianceScore := score;
                remediationPlan := remediation;
                uiSpec := ui |} in
  run! update loc (setResults res) in
  let! s := load loc in
  emit subs (AuditCompleted session res (completedNow env - startedAt s)).

(** The handler of [this.runAudit(sessionId, request).catch(..)];
    [loc] is the session object the closure captured. *)
Definition onAuditError (subs : list Subscriber) (env : AuditEnv)
    (session : string) (loc : nat) (e : JsError) : M unit :=
  run! update loc (setStatus Failed) in
  run! update loc (setError (message e)) in
  run! update loc (setCompletedAt (failedNow env)) in
  emit subs (AuditFailed session (message e)).

(** The background task [startAudit] leaves behind.  An [inl] result
    is a rejection nobody handles. *)
Definition auditTask (subs : list Subscriber) (env : AuditEnv)
    (session : string) (loc : nat) (request : AuditRequest) : M unit :=
  tryCatch (runAudit subs env session request)
           (onAuditError subs env session loc).

Definition newSession (env : AuditEnv) : AuditSession :=
  {| session_id := uuid env; status := Planning;
     startedAt := startedNow env; completedAt := None;
     results := None; session_error := None |}.

(** [startAudit(request)] up to its [return]: the session id, or the
    exception of a listener of 'audit:started'. *)
Definition startAudit (subs : list Subscriber) (env : AuditEnv)
    (request : AuditRequest) : M string :=
  fun o =>
    let session := uuid env in
    let o1 :=
      {| registry :=
           Registry.withTracer
             (Tracer.startTrace session (tracer (registry o))) (registry o);
         agents := agents o;
         activeSessions := <[session := length (heap o)]> (activeSessions o);
         heap := heap o ++ [newSession env] |} in
    match emit subs (AuditStarted session request) o1 with
    | (inl e, o2) => (inl e, o2)
    | (inr _, o2) => (inr session, o2)
    end.

(** [startAudit] followed by its background task run to the end. *)
Definition audit (subs : list Subscriber) (env : AuditEnv)
    (request : AuditRequest) : M string :=
  fun o =>
    match startAudit subs env request o with
    | (inl e, o1) => (inl e, o1)
    | (inr session, o1) =>
        (inr session,
         snd (auditTask subs env session (length (heap o)) request o1))
    end.

(** [getSession(sessionId)]: the entry of the map, an address. *)
Definition getSession (session : string) (o : OrchestratorRuntime)
  : option nat :=
  activeSessions o !! session.

(** What a holder of the address [loc] reads through it. *)
Definition deref (loc : nat) (o : OrchestratorRuntime)
  : option AuditSession :=
  heap o !! loc.

Definition getTrace (session : string) (o : OrchestratorRuntime)
  : list TraceEntry :=
  Tracer.getTrace session (tracer (registry o)).

End Orchestrator.

(** ** Notions used to state the properties *)

Module Props.
Import JsString Json SecurityGuardrails.

(** A value that has properties to enumerate. *)
Definition container (d : json) : bool :=
  match d with
  | JArr _ | JObj _ => true
  | _ => false
  end.



(** A span of a tool invocation of [tool]. *)
Definition isToolSpan (tool : string) (e : TraceEntry) : bool :=
  match component e with
  | McpToolC => String.eqb (componentId e) tool
  | _ => false
  end.

(** The invocations of [tool] that have started and not yet ended:
    their spans are the active ones. *)
Definition inFlight (tool : string) (r : MCPRegistry) : nat :=
  length (List.filter (fun kv => isToolSpan tool (snd kv))
                      (map_to_list (activeSpans (tracer r)))).

(** The same configuration with another concurrency cap. *)
Definition recapConfig (cap : Z) (c : RateLimitConfig) : RateLimitConfig :=
  {| requestsPerMinute := requestsPerMinute c;
     maxConcurrentRequests := cap |}.

Definition recapTracker (cap : Z) (t : RateLimitTracker) : RateLimitTracker :=
  {| requestCounts := requestCounts t;
     config := recapConfig cap (config t) |}.

Definition recapTool (cap : Z) (d : MCPToolDefinition) : MCPToolDefinition :=
  {| def_id := def_id d; def_name := def_name d;
     def_endpoint := def_endpoint d;
     def_capabilities := def_capabilities d;
     def_healthCheck := def_healthCheck d;
     def_authentication := def_authentication d;
     def_rateLimits := recapConfig cap (def_rateLimits d) |}.

(** The registry with every declared cap replaced by [cap]. *)
Definition recap (cap : Z) (r : MCPRegistry) : MCPRegistry :=
  {| tools := recapTool cap <$> tools r;
     rateLimitTrackers := recapTracker cap <$> rateLimitTrackers r;
     tracer := tracer r |}.

(** The spans of a trace that have no parent. *)
Definition roots (trace : list TraceEntry) : list TraceEntry :=
  List.filter (fun e => match parentSpanId e with
                        | None => true
                        | Some _ => false
                        end) trace.

(** Some span of the trace carries the identity [id]. *)
Definition hasSpan (id : string) (trace : list TraceEntry) : bool :=
  existsb (fun e => String.eqb (spanId e) id) trace.

(** Every span with a parent finds it in the trace. *)
Definition parentsPresent (trace : list TraceEntry) : bool :=
  forallb (fun e => match parentSpanId e with
                    | None => true
                    | Some p => hasSpan p trace
                    end) trace.

(** The character [c] occurs in [s]. *)
Fixpoint occurs (c : ascii) (s : string) : Prop :=
  match s with
  | EmptyString => False
  | String d s' => c = d \/ occurs c s'
  end.

Definition sumZ (l : list Z) : Z := fold_right Z.add 0 l.

Definition sumR (f : Z -> R) (l : list Z) : R :=
  fold_right (fun c acc => (f c + acc)%R) 0%R l.

(** The product of [c ^ c] over the counts. *)
Definition selfPowers (l : list Z) : Z :=
  fold_right (fun c acc => c ^ c * acc) 1 l.

(** The promise of [slot] in the parallel stage has settled. *)
Definition settledAt (slot : Orchestrator.Slot) (ps : Orchestrator.Parallel)
  : bool :=
  match (match slot with
         | Orchestrator.SecuritySlot => Orchestrator.securityP ps
         | Orchestrator.QualitySlot => Orchestrator.qualityP ps
         | Orchestrator.ComplianceSlot => Orchestrator.complianceP ps
         end) with
  | Orchestrator.Settled _ => true
  | Orchestrator.Running_ _ => false
  end.

(** The registry in which [invokeBegin] runs its checks: the span of
    the invocation has been started. *)
Definition traced (env : InvokeEnv) (req : ToolInvocationRequest)
    (r : MCPRegistry) : MCPRegistry :=
  Registry.withTracer
    (snd (Tracer.startSpan (spanIdNow env) (spanRnd env) (spanNow env)
            {| p_component := McpToolC;
               p_componentId := toolId req;
               p_action := method req;
               p_parentSpanId := Some (sessionId (securityContext req));
               p_input := Some (params req);
               p_tags := None |} (tracer r))) r.

Definition recapChecked (cap : Z)
    (x : JsError + (MCPToolDefinition * json))
  : JsError + (MCPToolDefinition * json) :=
  match x with
  | inl e => inl e
  | inr (tool, sp) => inr (recapTool cap tool, sp)
  end.

End Props.

(** ** A deployment to run the code on *)

Module Examples.
Import Json.

Definition toolDef (id endpoint : string) (limit cap : Z)
  : MCPToolDefinition :=
  {| def_id := Some id;
     def_name := id;
     def_endpoint := Some endpoint;
     def_capabilities := Some ["scan_repository"; "get_recent_changes"];
     def_healthCheck := endpoint +:+ "/health";
     def_authentication :=
       Some {| auth_type := NoAuth; auth_header := None;
               auth_token := None |};
     def_rateLimits := {| requestsPerMinute := limit;
                          maxConcurrentRequests := cap |} |}.

(** The Git tool as the entry point registers it. *)
Definition gitApi : MCPToolDefinition :=
  toolDef "git-api" "http://localhost:8083" 15 3.

Definition registryWith (tool : MCPToolDefinition) : MCPRegistry :=
  match Registry.register tool Registry.empty with
  | inr r => r
  | inl _ => Registry.empty
  end.

Definition envAt (t : Z) (rnd : string) : InvokeEnv :=
  {| startTime := t; spanIdNow := t; spanRnd := rnd; spanNow := t;
     rateNow := t; endTime := t + 5; endSpanNow := t + 5 |}.

Definition sid : string := "3f2b8c1e-0d4a-4c56-9e7f-1a2b3c4d5e6f".

Definition scan : ToolInvocationRequest :=
  {| toolId := "git-api";
     method := "scan_repository";
     params := JObj [("repo_path", JStr "/repo")];
     securityContext :=
       {| agentId := "planner-agent"; sessionId := sid; userId := None |} |}.

(** A tool server that answers every request with a repository
    summary carrying a credential. *)
Definition server : Registry.Http :=
  fun _ _ _ =>
    inr (JObj [("files", JArr []);
               ("apiKey", JStr "sk_live_abcdef1234567890")]).

(** A tool server nobody listens on. *)
Definition down : Registry.Http :=
  fun _ _ _ =>
    inl {| message := "connect ECONNREFUSED 127.0.0.1:8083";
           code := Some "ECONNREFUSED" |}.

(** An agent that scans the repository through the Git tool, as the
    planner does in its first step, and returns the answer. *)
Definition planner : BaseAgent :=
  {| agent_id := "planner-agent";
     agent_name := "Planner Agent";
     run := fun context r =>
              Agent.invokeTool (envAt 1000 "k3x9") server "planner-agent"
                "git-api" "scan_repository"
                (JObj [("repo_path", JStr "/repo")])
                (ctx_sessionId context) r |}.

(** An agent without tool calls that returns a fixed result. *)
Definition canned (id : string) (result : json) : BaseAgent :=
  {| agent_id := id; agent_name := id;
     run := fun _ r => (inr result, r) |}.

Definition finding : json :=
  JObj [("id", JStr "F-1"); ("severity", JStr "high")].

Definition deployment : OrchestratorRuntime :=
  fold_right Orchestrator.registerAgent
    (Orchestrator.withRegistry (registryWith gitApi) Orchestrator.empty)
    [ planner;
      canned "security-agent" (JObj [("findings", JArr [finding])]);
      canned "quality-agent" (JObj [("findings", JArr [])]);
      canned "compliance-agent" (JObj [("score", JNum 90)]);
      canned "validator-agent" (JObj [("validatedFindings", JArr [finding])]);
      canned "prioritizer-agent"
        (JObj [("prioritizedFindings", JArr [finding])]);
      canned "explainer-agent" (JObj [("explanations", JArr [])]);
      canned "ui-composer-agent" (JObj [("uiSpec", JStr "dashboard")]) ].

Definition auditEnv : AuditEnv :=
  {| uuid := sid;
     startedNow := 900;
     completedNow := 2000;
     failedNow := 1500;
     spanEnvOf := fun agent =>
                    {| se_idNow := 950; se_rnd := agent; se_now := 950;
                       se_endNow := 1900 |};
     schedule := SQC |}.

Definition request : AuditRequest :=
  {| repoPath := "/repo"; req_userId := None; options := None |}.

(** A listener that only logs ... *)
Definition logger : Subscriber := fun _ => None.




End Examples.

(** ** ExecutionTracer: timeline and retention (orchestrator/tracing.ts) *)

Inductive SpanStatus : Type := SuccessS | ErrorS.

Record TimelineSpan : Type := {
  tl_spanId : string;
  tl_parentSpanId : option string;
  relativeStartTime : Z;
  tl_duration : Z;
  tl_component : Component;
  tl_componentId : string;
  tl_action : string;
  tl_status : SpanStatus;
  tl_error : option string
}.

Record TraceTimeline : Type := {
  timeline_traceId : string;
  timeline_duration : Z;
  timeline_spans : list TimelineSpan
}.

Module Timeline.

(** [e.duration || 0] *)
Definition durationOrZero (d : option Z) : Z := default 0 d.

(** [Math.min(...xs)] and [Math.max(...xs)] for a list with head [x]. *)
Definition minOf (x : Z) (xs : list Z) : Z := fold_left Z.min xs x.
Definition maxOf (x : Z) (xs : list Z) : Z := fold_left Z.max xs x.

(** [e.error ? 'error' : 'success']: an empty message is falsy. *)
Definition statusOf (err : option string) : SpanStatus :=
  match err with
  | Some msg => if String.eqb msg "" then SuccessS else ErrorS
  | None => SuccessS
  end.

Definition endOf (e : TraceEntry) : Z :=
  timestamp e + durationOrZero (duration e).

Definition spanOf (startTime : Z) (e : TraceEntry) : TimelineSpan :=
  {| tl_spanId := spanId e;
     tl_parentSpanId := parentSpanId e;
     relativeStartTime := timestamp e - startTime;
     tl_duration := durationOrZero (duration e);
     tl_component := component e;
     tl_componentId := componentId e;
     tl_action := action e;
     tl_status := statusOf (error e);
     tl_error := error e |}.

(** [getTraceTimeline(traceId)] *)
Definition getTraceTimeline (traceId : string) (t : ExecutionTracer)
  : TraceTimeline :=
  match Tracer.getTrace traceId t with
  | [] => {| timeline_traceId := traceId; timeline_duration := 0;
             timeline_spans := [] |}
  | e :: rest =>
      let startTime := minOf (timestamp e) (map timestamp rest) in
      let endTime := maxOf (endOf e) (map endOf rest) in
      {| timeline_traceId := traceId;
         timeline_duration := endTime - startTime;
         timeline_spans := map (spanOf startTime) (e :: rest) |}
  end.

(** [Math.max(...entries.map(e => e.timestamp))]; [None] is the
    [-Infinity] of an empty list. *)
Definition latest (entries : list TraceEntry) : option Z :=
  match entries with
  | [] => None
  | e :: rest => Some (maxOf (timestamp e) (map timestamp rest))
  end.

(** [latestTimestamp < oneDayAgo] *)
Definition expired (now : Z) (entries : list TraceEntry) : bool :=
  match latest entries with
  | None => true
  | Some m => m <? now - 24 * 60 * 60 * 1000
  end.

(** [cleanupOldTraces()], [now] being the reading of [Date.now()]. *)
Definition cleanupOldTraces (now : Z) (t : ExecutionTracer)
  : ExecutionTracer :=
  {| traces := filter (fun kv => expired now (snd kv) = false) (traces t);
     activeSpans := activeSpans t |}.

End Timeline.

(** ** PlannerAgent helpers (agents/planner.ts)

    The repository structure the Git tool returns lists its files as
    objects with a string [path]; the helpers are modelled on the list of
    those paths. *)

Record PriorityModule : Type := {
  module_path : string;
  module_reason : string;
  module_risk : string
}.

Module Planner.
Import JsString.

Definition highRiskKeywords : list string :=
  ["auth"; "login"; "password"; "payment"; "stripe"; "sql"; "api"].

(** [s.split('/')]: [cur] is the piece being read. *)
Fixpoint splitSlash (cur : string) (s : string) : list string :=
  match s with
  | EmptyString => [cur]
  | String c s' =>
      if (code c =? 47)%N then cur :: splitSlash EmptyString s'
      else splitSlash (cur +:+ String c EmptyString) s'
  end.

(** [parts.join('/')] *)
Fixpoint joinSlash (parts : list string) : string :=
  match parts with
  | [] => EmptyString
  | [x] => x
  | x :: rest => x +:+ "/" +:+ joinSlash rest
  end.

(** [path.split('/').slice(0, -1).join('/') + '/'] *)
Definition modulePathOf (path : string) : string :=
  joinSlash (removelast (splitSlash EmptyString path)) +:+ "/".

(** The first keyword the inner loop finds in [path]. *)
Definition keywordOf (path : string) : option string :=
  List.find (fun keyword => includes path keyword) highRiskKeywords.

(** [modules.find(m => m.path === modulePath)] found something. *)
Definition known (modulePath : string) (modules : list PriorityModule) : bool :=
  existsb (fun m => String.eqb (module_path m) modulePath) modules.

(** The outer loop of [identifyHighRiskModules]: [modules] is the array
    built so far. *)
Fixpoint collectModules (files : list string) (modules : list PriorityModule)
  : list PriorityModule :=
  match files with
  | [] => modules
  | file :: rest =>
      let path := toLowerCase file in
      match keywordOf path with
      | Some keyword =>
          let modulePath := modulePathOf path in
          if known modulePath modules then collectModules rest modules
          else collectModules rest
                 (modules ++ [{| module_path := modulePath;
                                 module_reason :=
                                   "Contains " +:+ keyword +:+ "-related code";
                                 module_risk := "critical" |}])
      | None => collectModules rest modules
      end
  end.

(** [identifyHighRiskModules(repoStructure)] *)
Definition identifyHighRiskModules (files : list string)
  : list PriorityModule :=
  firstn 5 (collectModules files []).

(** The first loop of [selectFilesToScan]: the files of each priority
    module, module after module. *)
Fixpoint moduleFiles (files : list string) (modules : list PriorityModule)
  : list string :=
  match modules with
  | [] => []
  | m :: rest =>
      List.filter (fun f => String.prefix (module_path m) f) files
      ++ moduleFiles files rest
  end.

(** [selectFilesToScan(repoStructure, priorityModules)] *)
Definition selectFilesToScan (files : list string)
    (priorityModules : list PriorityModule) : list string :=
  let first := moduleFiles files priorityModules in
  first
  ++ List.filter (fun f => negb (existsb (String.eqb f) first)) files.

End Planner.

(** ** The tool table in registration order

    [findByCapability] reads the values of the [tools] map in insertion
    order, which the finite map of [MCPRegistry] does not keep; the table
    is modelled here as the association list a JavaScript [Map] is. *)

Module Discovery.

(** [Map.prototype.set]: an existing key keeps its place. *)
Fixpoint mapSet (id : string) (tool : MCPToolDefinition)
    (table : list (string * MCPToolDefinition))
  : list (string * MCPToolDefinition) :=
  match table with
  | [] => [(id, tool)]
  | (k, d) :: rest =>
      if String.eqb k id then (k, tool) :: rest
      else (k, d) :: mapSet id tool rest
  end.

(** The effect of [register(tool)] on the table; a rejected definition
    throws and leaves it alone. *)
Definition registerInto (table : list (string * MCPToolDefinition))
    (tool : MCPToolDefinition) : list (string * MCPToolDefinition) :=
  match def_id tool, def_capabilities tool with
  | Some id, Some _ =>
      if Registry.missing (def_id tool) || Registry.missing (def_endpoint tool)
      then table
      else mapSet id tool table
  | _, _ => table
  end.

(** The table after the given calls of [register], in order. *)
Definition registered (defs : list MCPToolDefinition)
  : list (string * MCPToolDefinition) :=
  fold_left registerInto defs [].

(** [tool.capabilities.includes(capability)] for a stored definition. *)
Definition offers (capability : string) (tool : MCPToolDefinition) : bool :=
  match def_capabilities tool with
  | Some caps => existsb (String.eqb capability) caps
  | None => false
  end.

(** [findByCapability(capability)] *)
Definition findByCapability (capability : string)
    (table : list (string * MCPToolDefinition)) : list MCPToolDefinition :=
  List.filter (offers capability) (map snd table).

(** The registry the same calls of [register] build. *)
Definition registryOf (defs : list MCPToolDefinition) : MCPRegistry :=
  fold_left (fun r tool => match Registry.register tool r with
                           | inr r' => r'
                           | inl _ => r
                           end) defs Registry.empty.

End Discovery.

(** ** SecurityAnalyzerAgent (agents/security-analyzer.ts)

    The summary the security agent attaches to its findings. *)

Record SeverityCounts : Type := {
  n_critical : Z;
  n_high : Z;
  n_medium : Z;
  n_low : Z
}.

Module SecurityAnalyzer.
Import Json.

(** [f.severity === name] *)
Definition severityIs (name : string) (f : json) : JsError + bool :=
  match Orchestrator.getProp "severity" f with
  | inl e => inl e
  | inr (Some (JStr x)) => inr (String.eqb x name)
  | inr _ => inr false
  end.

(** [findings.filter(f => f.severity === name).length]; the callback
    throws on the first finding that is [null]. *)
Fixpoint countWhere (name : string) (findings : list json) : JsError + Z :=
  match findings with
  | [] => inr 0
  | f :: rest =>
      match severityIs name f with
      | inl e => inl e
      | inr hit =>
          match countWhere name rest with
          | inl e => inl e
          | inr n => inr ((if hit then 1 else 0) + n)
          end
      end
  end.

(** [categorizeBySeverity(findings)] *)
Definition categorizeBySeverity (findings : list json)
  : JsError + SeverityCounts :=
  match countWhere "critical" findings with
  | inl e => inl e
  | inr c =>
      match countWhere "high" findings with
      | inl e => inl e
      | inr h =>
          match countWhere "medium" findings with
          | inl e => inl e
          | inr m =>
              match countWhere "low" findings with
              | inl e => inl e
              | inr l =>
                  inr {| n_critical := c; n_high := h; n_medium := m;
                         n_low := l |}
              end
          end
      end
  end.

End SecurityAnalyzer.

(** ** Further notions used to state properties *)

Module MoreProps.
Import Json.

(** No character of [s] is a control character. *)
Definition controlFree (s : string) : bool :=
  JsString.all (fun c => negb ((JsString.code c <=? 31)
                               || (JsString.code c =? 127))%N) s.

(** A value other than a string, an array or an object. *)
Definition scalar (d : json) : bool :=
  match d with
  | JNull | JBool _ | JNum _ => true
  | _ => false
  end.

(** The [code] property of a thrown error. *)
Definition thrownCode (e : JsError) : option string := code e.

(** The requests of a run that were admitted. *)
Fixpoint admitted (times : list Z) (oks : list bool) : list Z :=
  match times, oks with
  | t :: times', true :: oks' => t :: admitted times' oks'
  | _ :: times', false :: oks' => admitted times' oks'
  | _, _ => []
  end.


(** The timestamp [ts] lies in the window that trails [now]: it is less
    than 60000 ms old. *)
Definition inWindow (now ts : Z) : bool := now - ts <? 60000.

(** How many of the timestamps lie in the window that trails [now]. *)
Definition recent (now : Z) (timestamps : list Z) : Z :=
  Z.of_nat (length (List.filter (inWindow now) timestamps)).

(** The window of a (tool, session) pair; [None] when the tool has no
    tracker. *)
Definition windowOf (tool session : string) (r : MCPRegistry)
  : option (list Z) :=
  RateLimit.window session <$> (rateLimitTrackers r !! tool).

(** The span [invokeTool] files for a request with the given outcome. *)
Definition toolSpan (env : InvokeEnv) (req : ToolInvocationRequest)
    (res : ToolInvocationResult) : TraceEntry :=
  let span := Tracer.generateSpanId (spanIdNow env) (spanRnd env) in
  {| traceId := Tracer.orElse (Some (sessionId (securityContext req))) span;
     spanId := span;
     parentSpanId := Some (sessionId (securityContext req));
     timestamp := spanNow env;
     duration := Some (Tracer.durationOr (Some (endTime env - startTime env))
                                         (endSpanNow env - spanNow env));
     component := McpToolC;
     componentId := toolId req;
     action := method req;
     input := Some (Tracer.sanitizeForLogging (params req));
     output := Tracer.outputOf (data res);
     error := err_message <$> res_error res;
     tags := [] |}.

(** A Hoare triple for the orchestrator monad: from a state in [P] the
    computation ends in [Q] when it returns and in [E] when it throws. *)
Definition triple {A : Type} (P : OrchestratorRuntime -> Prop)
    (m : Orchestrator.M A) (Q : A -> OrchestratorRuntime -> Prop)
    (E : OrchestratorRuntime -> Prop) : Prop :=
  forall o, P o ->
    match m o with
    | (inr a, o') => Q a o'
    | (inl _, o') => E o'
    end.

(** The computation touches nothing but the registry. *)
Definition regOnly {X : Type}
    (f : OrchestratorRuntime -> X * OrchestratorRuntime) : Prop :=
  forall o, exists r, snd (f o) = Orchestrator.withRegistry r o.

(** The agents are [team], the session map is [sessions], and the heap
    holds the objects [older] followed by one more object, which
    satisfies [phi]. *)
Definition current (team : gmap string BaseAgent)
    (sessions : gmap string nat) (older : list AuditSession)
    (phi : AuditSession -> Prop) (o : OrchestratorRuntime) : Prop :=
  agents o = team /\ activeSessions o = sessions
  /\ exists s, heap o = older ++ [s] /\ phi s.

(** The sum of the four severity counters. *)
Definition counted (s : Summary) : Z :=
  critical s + high s + medium s + low s.

(** The table and the map of a registry hold the same definitions, each
    key once in the table and each definition under its own id. *)
Definition agree (table : list (string * MCPToolDefinition))
    (r : MCPRegistry) : Prop :=
  List.NoDup (map fst table)
  /\ (forall id d, In (id, d) table <-> tools r !! id = Some d)
  /\ (forall id d, In (id, d) table -> def_id d = Some id).

(** The fields of a session no step of the workflow writes. *)
Definition born (env : AuditEnv) (s : AuditSession) : Prop :=
  session_id s = uuid env /\ startedAt s = startedNow env.

Definition completedWith (env : AuditEnv) (s : AuditSession) : Prop :=
  born env s /\ status s = Completed
  /\ completedAt s = Some (completedNow env)
  /\ results s <> None /\ session_error s = None.

Definition failedWith (env : AuditEnv) (s : AuditSession) : Prop :=
  born env s /\ status s = Failed
  /\ completedAt s = Some (failedNow env)
  /\ session_error s <> None.

End MoreProps.

(** * Properties *)

(** ** Strings *)

Module StringFacts.

Lemma append_cons (x : ascii) (a b : string) :
  String x a +:+ b = String x (a +:+ b).
Proof. reflexivity. Qed.


Lemma append_assoc (a b c : string) : (a +:+ b) +:+ c = a +:+ (b +:+ c).
Proof.
  induction a as [|x a IH]; [reflexivity|].
  now rewrite !append_cons, IH.
Qed.

Lemma append_nil_r (s : string) : s +:+ "" = s.
Proof.
  induction s as [|x s IH]; [reflexivity|].
  now rewrite append_cons, IH.
Qed.

Lemma length_append (a b : string) :
  String.length (a +:+ b) = (String.length a + String.length b)%nat.
Proof.
  induction a as [|x a IH]; [reflexivity|].
  rewrite append_cons. simpl. now rewrite IH.
Qed.

Lemma length_substring_le (n m : nat) (s : string) :
  (String.length (String.substring n m s) <= String.length s - n)%nat.
Proof.
  revert n m. induction s as [|c s IH]; intros [|n] [|m]; simpl; try lia.
  - specialize (IH 0%nat m). lia.
  - apply (IH n 0%nat).
  - apply (IH n (S m)).
Qed.

Lemma length_substring_max (n m : nat) (s : string) :
  (String.length (String.substring n m s) <= m)%nat.
Proof.
  revert n m. induction s as [|c s IH]; intros [|n] [|m]; simpl; try lia.
  - specialize (IH 0%nat m). lia.
  - apply (IH n 0%nat).
  - apply (IH n (S m)).
Qed.

End StringFacts.

Module SecurityFacts.
Import JsString Json SecurityGuardrails StringFacts Props.

Lemma awsKeyAt_length (s : string) :
  awsKeyAt s = true -> (20 <= String.length s)%nat.
Proof.
  unfold awsKeyAt. intros H.
  apply andb_true_iff in H as [H _]. apply andb_true_iff in H as [_ H].
  apply Nat.eqb_eq in H.
  pose proof (length_substring_le 4 16 s). lia.
Qed.

Lemma replaceAwsKeys_short (s : string) :
  (String.length s < 20)%nat -> replaceAwsKeys 0 s = s.
Proof.
  induction s as [|c s IH]; intros Hlen; [reflexivity|].
  cbn [replaceAwsKeys].
  destruct (awsKeyAt (String c s)) eqn:E.
  - apply awsKeyAt_length in E. lia.
  - rewrite IH; [reflexivity | simpl in Hlen; lia].
Qed.

Lemma flushRun_short (run : string) :
  (String.length run < 32)%nat -> flushRun run = run.
Proof.
  intros H. unfold flushRun.
  destruct (32 <=? String.length run)%nat eqn:E; [|reflexivity].
  apply Nat.leb_le in E. lia.
Qed.

Lemma replaceTokens_short (s run : string) :
  (String.length run + String.length s < 32)%nat ->
  replaceTokens run s = run +:+ s.
Proof.
  revert run. induction s as [|c s IH]; intros run H; simpl in *.
  - rewrite append_nil_r. apply flushRun_short. lia.
  - destruct (isTokenChar c).
    + rewrite IH.
      * now rewrite append_assoc.
      * rewrite length_append. simpl. lia.
    + rewrite flushRun_short by lia.
      rewrite (IH ""); [reflexivity | simpl; lia].
Qed.

Lemma redactPatterns_short (s : string) :
  (String.length s < 20)%nat -> redactPatternsInString s = s.
Proof.
  intros H. unfold redactPatternsInString.
  rewrite replaceAwsKeys_short by exact H.
  apply (replaceTokens_short s ""). simpl. lia.
Qed.

Lemma length_redactSecret (v : string) :
  (String.length (redactSecret v) <= 11)%nat.
Proof.
  unfold redactSecret, firstChars, lastChars.
  destruct (String.length v <=? 8)%nat; [simpl; lia|].
  rewrite !length_append.
  pose proof (length_substring_max 0 4 v).
  pose proof (length_substring_max (String.length v - 4) 4 v).
  simpl. lia.
Qed.

Lemma redactPatterns_redactSecret (v : string) :
  redactPatternsInString (redactSecret v) = redactSecret v.
Proof.
  apply redactPatterns_short. pose proof (length_redactSecret v). lia.
Qed.

Lemma filterString_sensitive (k v : string) :
  isSensitiveKey k = true -> filterString k v = redactSecret v.
Proof.
  intros H. unfold filterString. rewrite H.
  apply redactPatterns_redactSecret.
Qed.

Lemma getPath_container (s : seg) (p : list seg) (d v : json) :
  getPath (s :: p) d = Some v -> container d = true.
Proof. destruct s, d; simpl; congruence. Qed.

Lemma getPath_snoc_container (p : list seg) (k : string) (d v : json) :
  getPath (p ++ [Key k]) d = Some v -> container d = true.
Proof.
  destruct p as [|s p].
  - apply (getPath_container (Key k) []).
  - apply (getPath_container s (p ++ [Key k])).
Qed.

Lemma filterProp_container (recur : json -> json) (k : string) (d : json) :
  container d = true -> filterProp recur k d = recur d.
Proof. destruct d; simpl; congruence. Qed.

Lemma prop_filterProps (recur : json -> json) (k : string)
    (fs : list (string * json)) :
  prop k (filterProps recur fs) = filterProp recur k <$> prop k fs.
Proof.
  induction fs as [|[k' v] fs IH]; [reflexivity|].
  simpl. destruct (String.eqb k' k) eqn:E.
  - apply String.eqb_eq in E. now subst.
  - exact IH.
Qed.

Lemma nth_error_filterElems (recur : json -> json) (n i : nat)
    (xs : list json) :
  nth_error (filterElems recur i xs) n
  = filterProp recur (indexKey (i + n)) <$> nth_error xs n.
Proof.
  revert i xs. induction n as [|n IH]; intros i [|x xs]; simpl; try reflexivity.
  - now rewrite Nat.add_0_r.
  - rewrite IH. now replace (S i + n)%nat with (i + S n)%nat by lia.
Qed.

Lemma filterObjectRecursive_path (p : list seg) :
  forall (d : json) (k v : string),
    getPath (p ++ [Key k]) d = Some (JStr v) ->
    getPath (p ++ [Key k]) (filterObjectRecursive d)
    = Some (JStr (filterString k v)).
Proof.
  induction p as [|s p IH]; intros d k v H.
  - destruct d; simpl in H; try discriminate.
    simpl. rewrite prop_filterProps.
    destruct (prop k fields) as [w|]; [|discriminate].
    injection H as ->. reflexivity.
  - destruct s as [k'|i], d; simpl in H; try discriminate; simpl.
    + rewrite prop_filterProps.
      destruct (prop k' fields) as [w|]; [|discriminate]. simpl.
      assert (C : container w = true)
        by (eapply getPath_snoc_container; exact H).
      rewrite (filterProp_container _ _ _ C). now apply IH.
    + rewrite nth_error_filterElems.
      destruct (nth_error items i) as [w|]; [|discriminate]. simpl.
      assert (C : container w = true)
        by (eapply getPath_snoc_container; exact H).
      rewrite (filterProp_container _ _ _ C). now apply IH.
Qed.

Lemma filterSensitiveData_path (p : list seg) (d : json) (k v : string) :
  getPath (p ++ [Key k]) d = Some (JStr v) ->
  getPath (p ++ [Key k]) (filterSensitiveData d)
  = Some (JStr (filterString k v)).
Proof.
  intros H.
  assert (C : container d = true)
    by (eapply getPath_snoc_container; exact H).
  destruct d; try discriminate; now apply filterObjectRecursive_path.
Qed.











End SecurityFacts.

(** ** The entropy test *)

Module EntropyFacts.
Import JsString SecurityGuardrails Props.

Lemma existsb_eqb_In (c : ascii) (l : list ascii) :
  existsb (Ascii.eqb c) l = true <-> In c l.
Proof.
  rewrite existsb_exists. split.
  - intros (x & Hx & E). apply Ascii.eqb_eq in E. now subst.
  - intros H. exists c. split; [exact H | apply Ascii.eqb_refl].
Qed.

Lemma distinctChars_sound (s : string) :
  forall seen c, In c (distinctChars seen s) -> occurs c s /\ ~ In c seen.
Proof.
  induction s as [|d s IH]; intros seen c H; simpl in *; [contradiction|].
  destruct (existsb (Ascii.eqb d) seen) eqn:E.
  - destruct (IH _ _ H). tauto.
  - destruct H as [<-|H].
    + split; [now left|]. intros Hin. apply existsb_eqb_In in Hin. congruence.
    + destruct (IH _ _ H) as [Ho Hn]. split; [now right|].
      intros Hin. apply Hn. now right.
Qed.

Lemma distinctChars_NoDup (s : string) :
  forall seen, List.NoDup (distinctChars seen s).
Proof.
  induction s as [|d s IH]; intros seen; simpl; [constructor|].
  destruct (existsb (Ascii.eqb d) seen); [apply IH|].
  constructor; [|apply IH].
  intros H. apply distinctChars_sound in H as [_ H]. apply H. now left.
Qed.

Lemma distinctChars_complete (s : string) :
  forall seen c, occurs c s -> In c seen \/ In c (distinctChars seen s).
Proof.
  induction s as [|d s IH]; intros seen c H; simpl in *; [contradiction|].
  destruct (existsb (Ascii.eqb d) seen) eqn:E.
  - destruct H as [->|H]; [left; now apply existsb_eqb_In | now apply IH].
  - destruct H as [->|H]; [right; now left|].
    destruct (IH (d :: seen) c H) as [[<-|Hs]|Hd]; auto.
    + right. now left.
    + right. now right.
Qed.

Lemma count_pos (c : ascii) (s : string) : occurs c s -> (1 <= count c s)%nat.
Proof.
  induction s as [|d s IH]; simpl; [contradiction|].
  intros [->|H].
  - rewrite Ascii.eqb_refl. lia.
  - specialize (IH H). lia.
Qed.

(** Over a duplicate-free list that holds [x], the indicator of [x] sums
    to one. *)
Lemma sum_indicator (x : ascii) (D : list ascii) :
  List.NoDup D -> In x D ->
  sumZ (map (fun c => Z.of_nat (if Ascii.eqb c x then 1 else 0)) D) = 1.
Proof.
  induction 1 as [|d D Hd HD IH]; intros Hin; [contradiction|].
  simpl. destruct (Ascii.eqb d x) eqn:E.
  - apply Ascii.eqb_eq in E. subst d.
    assert (Z : sumZ (map (fun c => Z.of_nat (if Ascii.eqb c x then 1 else 0)) D) = 0).
    { clear IH Hin HD. induction D as [|e D IHD]; [reflexivity|].
      simpl. destruct (Ascii.eqb e x) eqn:E.
      - apply Ascii.eqb_eq in E. subst e. exfalso. apply Hd. now left.
      - rewrite IHD; [reflexivity|]. intros H. apply Hd. now right. }
    rewrite Z. reflexivity.
  - destruct Hin as [->|Hin]; [rewrite Ascii.eqb_refl in E; discriminate|].
    rewrite (IH Hin). reflexivity.
Qed.

Lemma sumZ_add (f g : ascii -> Z) (D : list ascii) :
  sumZ (map (fun c => f c + g c) D) = sumZ (map f D) + sumZ (map g D).
Proof. induction D as [|d D IH]; simpl; [reflexivity | rewrite IH; lia]. Qed.

Lemma sum_counts (D : list ascii) (s : string) :
  List.NoDup D -> (forall c, occurs c s -> In c D) ->
  sumZ (map (fun c => Z.of_nat (count c s)) D) = Z.of_nat (String.length s).
Proof.
  intros HD. induction s as [|x s IH]; intros Hc.
  - clear HD Hc. induction D as [|d D IHD]; [reflexivity | exact IHD].
  - transitivity
      (sumZ (map (fun c => Z.of_nat (if Ascii.eqb c x then 1 else 0)
                           + Z.of_nat (count c s)) D)).
    + f_equal. apply map_ext. intros c. simpl. lia.
    + rewrite sumZ_add, sum_indicator, IH.
      * simpl String.length. lia.
      * intros c H. apply Hc. now right.
      * exact HD.
      * apply Hc. now left.
Qed.

Lemma sum_charCounts (s : string) :
  sumZ (charCounts s) = Z.of_nat (String.length s).
Proof.
  unfold charCounts. apply sum_counts.
  - apply distinctChars_NoDup.
  - intros c H. destruct (distinctChars_complete s [] c H) as [[]|]; auto.
Qed.

Lemma charCounts_pos (s : string) (c : Z) : In c (charCounts s) -> 1 <= c.
Proof.
  unfold charCounts. rewrite in_map_iff. intros (a & <- & Ha).
  apply distinctChars_sound in Ha as [Ho _].
  apply count_pos in Ho. lia.
Qed.
End EntropyFacts.

Module EntropyReal.
Import JsString SecurityGuardrails Props EntropyFacts.
Local Open Scope R_scope.

Lemma fold_left_sub (g : Z -> R) (l : list Z) (a : R) :
  fold_left (fun acc c => acc - g c) l a = a - sumR g l.
Proof.
  revert a. induction l as [|c l IH]; intros a; simpl; [lra|].
  rewrite IH. lra.
Qed.

Lemma sumR_IZR (l : list Z) : sumR IZR l = IZR (sumZ l).
Proof.
  induction l as [|c l IH]; simpl; [reflexivity|].
  now rewrite plus_IZR, IH.
Qed.

Lemma IZR_self_power (c : Z) :
  (1 <= c)%Z -> IZR (c ^ c) = IZR c ^ Z.to_nat c.
Proof.
  intros H. rewrite pow_IZR. now rewrite Z2Nat.id by lia.
Qed.

Lemma ln_self_power (c : Z) :
  (1 <= c)%Z -> ln (IZR (c ^ c)) = IZR c * ln (IZR c).
Proof.
  intros H. rewrite (IZR_self_power c H).
  rewrite ln_pow by (apply IZR_lt; lia).
  now rewrite INR_IZR_INZ, Z2Nat.id by lia.
Qed.

Lemma selfPowers_pos (l : list Z) :
  (forall c, In c l -> (1 <= c)%Z) -> (0 < selfPowers l)%Z.
Proof.
  induction l as [|c l IH]; intros H; simpl; [lia|].
  assert (1 <= c)%Z by (apply H; now left).
  assert (0 < selfPowers l)%Z by (apply IH; intros; apply H; now right).
  assert (0 < c ^ c)%Z by (apply Z.pow_pos_nonneg; lia).
  lia.
Qed.

Lemma ln_selfPowers (l : list Z) :
  (forall c, In c l -> (1 <= c)%Z) ->
  ln (IZR (selfPowers l)) = sumR (fun c => IZR c * ln (IZR c)) l.
Proof.
  induction l as [|c l IH]; intros H; simpl; [apply ln_1|].
  assert (Hc : (1 <= c)%Z) by (apply H; now left).
  assert (Hl : forall d, In d l -> (1 <= d)%Z) by (intros; apply H; now right).
  rewrite mult_IZR, ln_mult.
  - now rewrite ln_self_power, IH.
  - apply IZR_lt. apply Z.pow_pos_nonneg; lia.
  - apply IZR_lt. now apply selfPowers_pos.
Qed.

Lemma sum_terms (n : R) (l : list Z) :
  0 < n -> (forall c, In c l -> (1 <= c)%Z) ->
  sumR (fun c => IZR c / n * (ln (IZR c / n) / ln 2)) l
  = (sumR (fun c => IZR c * ln (IZR c)) l - sumR IZR l * ln n) / (n * ln 2).
Proof.
  intros Hn. pose proof ln_lt_2 as L2.
  induction l as [|c l IH]; intros H; simpl.
  - field. lra.
  - rewrite IH by (intros; apply H; now right).
    assert (Hc : 0 < IZR c) by (apply IZR_lt; specialize (H c); simpl in H; lia).
    assert (E : ln (IZR c / n) = ln (IZR c) - ln n).
    { unfold Rdiv. rewrite ln_mult, ln_Rinv; try lra.
      now apply Rinv_0_lt_compat. }
    rewrite E. field. lra.
Qed.

Lemma ln_16 : ln 16 = 4 * ln 2.
Proof.
  replace 16 with (2 ^ 4) by lra.
  rewrite ln_pow by lra. simpl. lra.
Qed.

(** The integer comparison of [hasHighEntropy] decides whether the
    entropy of the character frequencies exceeds 4. *)
Theorem hasHighEntropy_entropy (s : string) :
  hasHighEntropy s = true <-> 4 < entropy s.
Proof.
  unfold hasHighEntropy, entropy.
  fold (selfPowers (charCounts s)).
  pose proof (sum_charCounts s) as Hsum.
  pose proof (charCounts_pos s) as Hpos.
  pose proof ln_lt_2 as L2.
  rewrite (fold_left_sub
             (fun c => IZR c / INR (String.length s)
                       * (ln (IZR c / INR (String.length s)) / ln 2))).
  destruct (String.length s) as [|m] eqn:Hlen.
  - destruct s; [|discriminate]. simpl. split; [discriminate | lra].
  - set (len := S m) in *.
    assert (Hn : 0 < INR len) by (apply lt_0_INR; unfold len; lia).
    rewrite sum_terms by assumption.
    rewrite sumR_IZR, Hsum, <- INR_IZR_INZ.
    rewrite <- (ln_selfPowers _ Hpos).
    set (P := selfPowers (charCounts s)) in *.
    assert (HP : 0 < IZR P) by (apply IZR_lt; now apply selfPowers_pos).
    assert (H16 : IZR (16 ^ Z.of_nat len) = 16 ^ len) by now rewrite pow_IZR.
    assert (Hnn : IZR (Z.of_nat len ^ Z.of_nat len) = INR len ^ len)
      by now rewrite INR_IZR_INZ, pow_IZR.
    assert (Hl : 0 < IZR (16 ^ Z.of_nat len * P)).
    { rewrite mult_IZR, H16. apply Rmult_lt_0_compat; [apply pow_lt; lra | exact HP]. }
    assert (Hr : 0 < IZR (Z.of_nat len ^ Z.of_nat len))
      by (rewrite Hnn; now apply pow_lt).
    assert (Eln : ln (IZR (16 ^ Z.of_nat len * P))
                  = INR len * (4 * ln 2) + ln (IZR P)).
    { rewrite mult_IZR, ln_mult, H16, ln_pow, ln_16; try lra.
      rewrite H16. apply pow_lt. lra. }
    assert (Ern : ln (IZR (Z.of_nat len ^ Z.of_nat len)) = INR len * ln (INR len))
      by (rewrite Hnn; now apply ln_pow).
    assert (Hd : 0 < INR len * ln 2) by (apply Rmult_lt_0_compat; lra).
    rewrite Z.ltb_lt.
    split.
    + intros H. apply IZR_lt in H. apply ln_increasing in H; [|exact Hl].
      rewrite Eln, Ern in H.
      apply (Rmult_lt_reg_r (INR len * ln 2)); [exact Hd|].
      unfold Rdiv. replace (0 - _ * / (INR len * ln 2)) with
        ((INR len * ln (INR len) - ln (IZR P)) / (INR len * ln 2))
        by (field; lra).
      unfold Rdiv. rewrite Rmult_assoc, Rinv_l by lra. lra.
    + intros H. apply lt_IZR. apply ln_lt_inv; [exact Hl | exact Hr |].
      rewrite Eln, Ern.
      apply (Rmult_lt_compat_r (INR len * ln 2)) in H; [|exact Hd].
      replace ((0 - (ln (IZR P) - INR len * ln (INR len)) / (INR len * ln 2))
               * (INR len * ln 2))
        with (INR len * ln (INR len) - ln (IZR P)) in H by (field; lra).
      lra.
Qed.
End EntropyReal.

(** ** The sliding window *)

Module RateLimitFacts.
Import RateLimit.

Lemma prune_all (now : Z) (w : list Z) :
  (forall ts, In ts w -> now - 60000 < ts) -> prune now w = w.
Proof.
  induction w as [|x w IH]; intros H; [reflexivity|].
  unfold prune in *. simpl.
  assert (Hx : (now - 60000 <? x) = true)
    by (apply Z.ltb_lt; apply H; now left).
  rewrite Hx, IH; [reflexivity|].
  intros ts Hts. apply H. now right.
Qed.

Lemma length_prune (now : Z) (w : list Z) :
  (length (prune now w) <= length w)%nat.
Proof. apply List.filter_length_le. Qed.

Lemma window_insert (key : string) (l : list Z) (m : gmap string (list Z))
    (cfg : RateLimitConfig) :
  window key {| requestCounts := <[key := l]> m; config := cfg |} = l.
Proof. unfold window. simpl. now rewrite lookup_insert_eq. Qed.

Lemma allowRequest_iff (now : Z) (key : string) (t : RateLimitTracker) :
  fst (allowRequest now key t) = true
  <-> Z.of_nat (length (prune now (window key t)))
      < requestsPerMinute (config t).
Proof.
  unfold allowRequest.
  destruct (requestsPerMinute (config t)
            <=? Z.of_nat (length (prune now (window key t)))) eqn:E; simpl.
  - apply Z.leb_le in E. split; [discriminate | lia].
  - apply Z.leb_gt in E. split; [intros _; exact E | reflexivity].
Qed.

Lemma allowRequest_admitted (now : Z) (key : string) (t : RateLimitTracker) :
  Z.of_nat (length (prune now (window key t))) < requestsPerMinute (config t) ->
  allowRequest now key t
  = (true, {| requestCounts :=
                <[key := prune now (window key t) ++ [now]]> (requestCounts t);
              config := config t |}).
Proof.
  intros H. unfold allowRequest.
  destruct (requestsPerMinute (config t)
            <=? Z.of_nat (length (prune now (window key t)))) eqn:E.
  - apply Z.leb_le in E. lia.
  - reflexivity.
Qed.

Lemma allowRequest_rejected (now : Z) (key : string) (t : RateLimitTracker) :
  requestsPerMinute (config t) <= Z.of_nat (length (prune now (window key t))) ->
  allowRequest now key t = (false, t).
Proof.
  intros H. unfold allowRequest.
  destruct (requestsPerMinute (config t)
            <=? Z.of_nat (length (prune now (window key t)))) eqn:E.
  - reflexivity.
  - apply Z.leb_gt in E. lia.
Qed.

Lemma allowRequest_false (now : Z) (key : string) (t : RateLimitTracker) :
  fst (allowRequest now key t) = false -> allowRequest now key t = (false, t).
Proof.
  unfold allowRequest.
  destruct (requestsPerMinute (config t)
            <=? Z.of_nat (length (prune now (window key t)))); simpl;
    [reflexivity | discriminate].
Qed.

Lemma requests_app (a b : list Z) (key : string) (t : RateLimitTracker) :
  requests (a ++ b) key t
  = (fst (requests a key t) ++ fst (requests b key (snd (requests a key t))),
     snd (requests b key (snd (requests a key t)))).
Proof.
  revert t. induction a as [|x a IH]; intros t; simpl.
  - now destruct (requests b key t).
  - destruct (allowRequest x key t) as [ok t1]. rewrite IH.
    destruct (requests a key t1) as [oks t2]. reflexivity.
Qed.

(** Requests that all fall into one window and fit under the limit are
    all admitted and recorded in order. *)
Lemma requests_fill (now : Z) (key : string) (times : list Z) :
  forall (t : RateLimitTracker),
    (forall ts, In ts (window key t ++ times) -> now - 60000 < ts <= now) ->
    Z.of_nat (length (window key t) + length times)
      <= requestsPerMinute (config t) ->
    fst (requests times key t) = repeat true (length times)
    /\ window key (snd (requests times key t)) = window key t ++ times
    /\ config (snd (requests times key t)) = config t.
Proof.
  induction times as [|x times IH]; intros t Hin Hfit.
  - simpl. now rewrite List.app_nil_r.
  - assert (Hx : now - 60000 < x <= now)
      by (apply Hin, in_or_app; right; now left).
    assert (Hp : prune x (window key t) = window key t).
    { apply prune_all. intros ts Hts.
      assert (now - 60000 < ts <= now) by (apply Hin, in_or_app; now left).
      lia. }
    simpl. rewrite allowRequest_admitted; rewrite Hp.
    2:{ simpl in Hfit. lia. }
    set (t1 := {| requestCounts := _; config := config t |}).
    assert (W1 : window key t1 = window key t ++ [x])
      by apply window_insert.
    destruct (IH t1) as (A & B & C).
    + rewrite W1, <- List.app_assoc. exact Hin.
    + rewrite W1, List.length_app. simpl in *. lia.
    + destruct (requests times key t1) as [oks t2]. simpl in *.
      rewrite A, B, C, W1, <- List.app_assoc. auto.
Qed.

Lemma window_newTracker (key : string) (cfg : RateLimitConfig) :
  window key (newTracker cfg) = [].
Proof. unfold window, newTracker. simpl. now rewrite lookup_empty. Qed.

(** The state after [W] requests in one window and one more. *)
Lemma requests_full (cfg : RateLimitConfig) (key : string) (times : list Z)
    (now : Z) :
  requestsPerMinute cfg = Z.of_nat (length times) ->
  (forall ts, In ts times -> now - 60000 < ts <= now) ->
  fst (requests (times ++ [now]) key (newTracker cfg))
    = repeat true (length times) ++ [false]
  /\ window key (snd (requests (times ++ [now]) key (newTracker cfg))) = times
  /\ config (snd (requests (times ++ [now]) key (newTracker cfg))) = cfg.
Proof.
  intros HW Hin.
  destruct (requests_fill now key times (newTracker cfg)) as (A & B & C).
  - rewrite window_newTracker. exact Hin.
  - rewrite window_newTracker. simpl. lia.
  - rewrite window_newTracker in B. simpl in B, C.
    rewrite requests_app. simpl.
    set (t1 := snd (requests times key (newTracker cfg))) in *.
    rewrite allowRequest_rejected.
    + simpl. now rewrite A.
    + rewrite B, C, prune_all; [lia|].
      intros ts Hts. apply Hin in Hts. lia.
Qed.


(** *** The trailing window *)

Lemma prune_inWindow (now : Z) (w : list Z) :
  prune now w = List.filter (MoreProps.inWindow now) w.
Proof.
  unfold prune. apply List.filter_ext. intros ts. unfold MoreProps.inWindow.
  destruct (now - 60000 <? ts) eqn:A, (now - ts <? 60000) eqn:B;
    try reflexivity;
    [apply Z.ltb_lt in A; apply Z.ltb_ge in B
    |apply Z.ltb_ge in A; apply Z.ltb_lt in B]; lia.
Qed.

(** What an earlier reading of the clock has pruned is too old for a
    later one as well. *)
Lemma inWindow_prune (earlier now : Z) (w : list Z) :
  earlier <= now ->
  List.filter (MoreProps.inWindow now) (prune earlier w)
  = List.filter (MoreProps.inWindow now) w.
Proof.
  intros H. induction w as [|ts w IH]; [reflexivity|].
  unfold prune in *. simpl.
  destruct (earlier - 60000 <? ts) eqn:A; simpl; rewrite IH; [reflexivity|].
  unfold MoreProps.inWindow at 2.
  destruct (now - ts <? 60000) eqn:B; [|reflexivity].
  apply Z.ltb_ge in A. apply Z.ltb_lt in B. lia.
Qed.

(** After any run of requests, none later than [now], the timestamps of
    the record that lie in the window of [now] are those of the admitted
    requests. *)
Lemma requests_history (key : string) (times : list Z) :
  forall (t : RateLimitTracker) (now : Z),
    (forall ts, In ts times -> ts <= now) ->
    List.filter (MoreProps.inWindow now)
      (window key (snd (requests times key t)))
    = List.filter (MoreProps.inWindow now)
        (window key t ++ MoreProps.admitted times (fst (requests times key t)))
    /\ config (snd (requests times key t)) = config t.
Proof.
  induction times as [|x times IH]; intros t now Hle.
  - simpl. now rewrite List.app_nil_r.
  - assert (Hx : x <= now) by (apply Hle; now left).
    assert (Hrest : forall ts, In ts times -> ts <= now)
      by (intros ts Hts; apply Hle; now right).
    simpl.
    destruct (Z_lt_le_dec (Z.of_nat (length (prune x (window key t))))
                (requestsPerMinute (config t))) as [Hlt|Hge].
    + rewrite (allowRequest_admitted _ _ _ Hlt).
      set (t1 := {| requestCounts := _; config := config t |}).
      assert (W1 : window key t1 = prune x (window key t) ++ [x])
        by apply window_insert.
      destruct (IH t1 now Hrest) as [A B].
      destruct (requests times key t1) as [oks t2]. simpl in *.
      split; [|exact B].
      rewrite A, W1, <- List.app_assoc, !List.filter_app.
      rewrite (inWindow_prune x now _ Hx). f_equal.
      simpl. now destruct (MoreProps.inWindow now x).
    + rewrite (allowRequest_rejected _ _ _ Hge).
      destruct (IH t now Hrest) as [A B].
      destruct (requests times key t) as [oks t2]. simpl in *. auto.
Qed.

End RateLimitFacts.

(** ** The invocation pipeline *)

Module RegistryFacts.
Import Registry Props RateLimitFacts.

Section Checks.
Variables (env : InvokeEnv) (req : ToolInvocationRequest) (r : MCPRegistry).

Let ctx := securityContext req.

Lemma checks_not_found :
  tools r !! toolId req = None ->
  checks env req r
  = (inl (plainError ("Tool " +:+ toolId req +:+ " not found in registry")),
     r).
Proof. intros H. unfold checks, getTool. now rewrite H. Qed.

Lemma checks_denied (tool : MCPToolDefinition) :
  tools r !! toolId req = Some tool ->
  SecurityGuardrails.validateAgentAccess (agentId ctx) (toolId req) = inr false ->
  checks env req r
  = (inl (plainError ("Agent " +:+ agentId ctx
                      +:+ " not authorized to access " +:+ toolId req)), r).
Proof.
  intros H A. unfold checks, getTool. rewrite H. subst ctx. now rewrite A.
Qed.

(** Access control stops the checks, by a denial or by the exception of
    the lookup, before the rate limiter is asked. *)
Lemma checks_refused (tool : MCPToolDefinition) :
  tools r !! toolId req = Some tool ->
  SecurityGuardrails.validateAgentAccess (agentId ctx) (toolId req)
    <> inr true ->
  checks env req r
  = (inl (match SecurityGuardrails.validateAgentAccess (agentId ctx)
                  (toolId req) with
          | inl e => e
          | inr _ =>
              plainError ("Agent " +:+ agentId ctx
                          +:+ " not authorized to access " +:+ toolId req)
          end), r).
Proof.
  intros H A. unfold checks, getTool. rewrite H. subst ctx.
  destruct (SecurityGuardrails.validateAgentAccess _ _) as [e|[|]];
    congruence.
Qed.

Lemma checks_limited (tool : MCPToolDefinition) (limiter : RateLimitTracker) :
  tools r !! toolId req = Some tool ->
  SecurityGuardrails.validateAgentAccess (agentId ctx) (toolId req) = inr true ->
  rateLimitTrackers r !! toolId req = Some limiter ->
  fst (RateLimit.allowRequest (rateNow env) (sessionId ctx) limiter) = false ->
  checks env req r
  = (inl (plainError ("Rate limit exceeded for " +:+ toolId req)),
     withTracker (toolId req) limiter r).
Proof.
  intros H A L F. unfold checks, getTool. rewrite H. subst ctx.
  rewrite A, L. simpl. now rewrite (allowRequest_false _ _ _ F).
Qed.

Lemma checks_admitted (tool : MCPToolDefinition) (limiter : RateLimitTracker) :
  tools r !! toolId req = Some tool ->
  SecurityGuardrails.validateAgentAccess (agentId ctx) (toolId req) = inr true ->
  rateLimitTrackers r !! toolId req = Some limiter ->
  fst (RateLimit.allowRequest (rateNow env) (sessionId ctx) limiter) = true ->
  snd (checks env req r)
  = withTracker (toolId req)
      (snd (RateLimit.allowRequest (rateNow env) (sessionId ctx) limiter)) r.
Proof.
  intros H A L F. unfold checks, getTool. rewrite H. subst ctx.
  rewrite A, L. simpl.
  destruct (RateLimit.allowRequest _ _ limiter) as [ok l1]. simpl in *.
  subst ok. simpl. now destruct (Sanitize.sanitizeToolInput (params req)).
Qed.
End Checks.

Lemma trackers_failed env req span e r :
  rateLimitTrackers (snd (failed env req span e r)) = rateLimitTrackers r.
Proof. reflexivity. Qed.

Lemma trackers_succeeded env req span body r :
  rateLimitTrackers (snd (succeeded env req span body r))
  = rateLimitTrackers r.
Proof. reflexivity. Qed.

Lemma trackers_invokeEnd env req call response r :
  rateLimitTrackers (snd (invokeEnd env req call response r))
  = rateLimitTrackers r.
Proof. now destruct response. Qed.

Lemma invokeBegin_unfold env req r :
  invokeBegin env req r
  = match checks env req (traced env req r) with
    | (inl e, r1) =>
        (Rejected (fst (failed env req
                          (Tracer.generateSpanId (spanIdNow env) (spanRnd env))
                          e r1)),
         snd (failed env req
                (Tracer.generateSpanId (spanIdNow env) (spanRnd env)) e r1))
    | (inr (tool, sanitizedParams), r1) =>
        (Pending {| call_span :=
                      Tracer.generateSpanId (spanIdNow env) (spanRnd env);
                    call_tool := tool;
                    call_params := sanitizedParams |}, r1)
    end.
Proof. reflexivity. Qed.

Lemma trackers_invokeBegin env req r :
  rateLimitTrackers (snd (invokeBegin env req r))
  = rateLimitTrackers (snd (checks env req (traced env req r))).
Proof.
  rewrite invokeBegin_unfold.
  now destruct (checks env req (traced env req r)) as [[e|[tool sp]] r1].
Qed.

Lemma trackers_invokeTool env post req r :
  rateLimitTrackers (snd (invokeTool env post req r))
  = rateLimitTrackers (snd (invokeBegin env req r)).
Proof.
  unfold invokeTool.
  destruct (invokeBegin env req r) as [[res|call] r1]; [reflexivity|].
  apply trackers_invokeEnd.
Qed.


(** *** Registration *)


(** *** The concurrency cap is never read *)

Lemma allowRequest_recap (cap now : Z) (key : string) (t : RateLimitTracker) :
  RateLimit.allowRequest now key (recapTracker cap t)
  = (fst (RateLimit.allowRequest now key t),
     recapTracker cap (snd (RateLimit.allowRequest now key t))).
Proof.
  unfold RateLimit.allowRequest, RateLimit.window. simpl.
  now destruct (requestsPerMinute (config t) <=? _).
Qed.

Lemma withTracker_recap (cap : Z) (id : string) (t : RateLimitTracker)
    (r : MCPRegistry) :
  withTracker id (recapTracker cap t) (recap cap r)
  = recap cap (withTracker id t r).
Proof. unfold withTracker, recap. simpl. now rewrite fmap_insert. Qed.

Lemma checks_recap (cap : Z) env req r :
  checks env req (recap cap r)
  = (recapChecked cap (fst (checks env req r)),
     recap cap (snd (checks env req r))).
Proof.
  unfold checks, getTool. simpl. rewrite !lookup_fmap.
  destruct (tools r !! toolId req) as [tool|]; simpl; [|reflexivity].
  destruct (SecurityGuardrails.validateAgentAccess _ _) as [e|[|]];
    [reflexivity| |reflexivity].
  destruct (rateLimitTrackers r !! toolId req) as [limiter|]; simpl;
    [|reflexivity].
  rewrite allowRequest_recap.
  destruct (RateLimit.allowRequest _ _ limiter) as [ok l1]. simpl.
  rewrite withTracker_recap.
  destruct (negb ok); [reflexivity|].
  now destruct (Sanitize.sanitizeToolInput (params req)).
Qed.

Lemma callToolAPI_recap (cap : Z) post tool meth args :
  callToolAPI post (recapTool cap tool) meth args
  = callToolAPI post tool meth args.
Proof. reflexivity. Qed.

Lemma invokeTool_recap (cap : Z) env post req r :
  invokeTool env post req (recap cap r)
  = (fst (invokeTool env post req r),
     recap cap (snd (invokeTool env post req r))).
Proof.
  unfold invokeTool. rewrite !invokeBegin_unfold.
  change (traced env req (recap cap r)) with (recap cap (traced env req r)).
  rewrite checks_recap.
  destruct (checks env req (traced env req r)) as [[e|[tool sp]] r1]; simpl.
  - reflexivity.
  - rewrite callToolAPI_recap.
    now destruct (callToolAPI post tool (method req) sp).
Qed.

End RegistryFacts.

(** ** The audit pipeline *)

Module OrchestratorFacts.
Import Orchestrator Props.

Lemma bind_ext {A B} (m m' : M A) (k k' : A -> M B) :
  (forall o, m o = m' o) ->
  (forall a o, k a o = k' a o) ->
  forall o, bind m k o = bind m' k' o.
Proof.
  intros Hm Hk o. unfold bind. rewrite Hm.
  destruct (m' o) as [[e|a] o1]; [reflexivity | apply Hk].
Qed.

Lemma tryCatch_ext {A} (m m' : M A) (h h' : JsError -> M A) :
  (forall o, m o = m' o) ->
  (forall e o, h e o = h' e o) ->
  forall o, tryCatch m h o = tryCatch m' h' o.
Proof.
  intros Hm Hh o. unfold tryCatch. rewrite Hm.
  destruct (m' o) as [[e|a] o1]; [apply Hh | reflexivity].
Qed.



(** *** The parallel stage settles all of its promises *)

Section Settling.
Variables (subs : list Subscriber) (env : AuditEnv) (session : string).
Variables (plan cinput : json).

Lemma settle_settled agent input p o :
  exists x, fst (settle subs env agent session input p o) = Settled x.
Proof.
  unfold settle. destruct p as [x|a]; simpl; [now exists x|].
  destruct (runAgentFinish subs env agent session input a o) as [res o1].
  now exists res.
Qed.

Lemma settle_keeps agent input x o :
  fst (settle subs env agent session input (Settled x) o) = Settled x.
Proof. reflexivity. Qed.

Lemma settleSlot_own slot ps o :
  settledAt slot (fst (settleSlot subs env session plan cinput slot ps o))
  = true.
Proof.
  unfold settleSlot, settledAt.
  destruct slot;
    match goal with
    | |- context [settle subs env ?a session ?i ?p o] =>
        destruct (settle_settled a i p o) as [x Hx];
        destruct (settle subs env a session i p o) as [q o1];
        simpl in *; now rewrite Hx
    end.
Qed.

Lemma settleSlot_keeps slot other ps o :
  settledAt other ps = true ->
  settledAt other (fst (settleSlot subs env session plan cinput slot ps o))
  = true.
Proof.
  intros H.
  destruct slot, other; try apply settleSlot_own;
    unfold settleSlot, settledAt in *;
    match goal with
    | |- context [settle subs env ?a session ?i ?p o] =>
        destruct (settle subs env a session i p o) as [q o1]
    end; exact H.
Qed.

Lemma settleAll_keeps slots :
  forall other ps o,
    settledAt other ps = true ->
    settledAt other
      (fst (settleAll subs env session plan cinput slots ps o)) = true.
Proof.
  induction slots as [|slot slots IH]; intros other ps o H; [exact H|].
  simpl.
  pose proof (settleSlot_keeps slot other ps o H) as K.
  destruct (settleSlot subs env session plan cinput slot ps o) as [ps1 o1].
  now apply IH.
Qed.

Lemma settleAll_settles slots :
  forall slot ps o,
    In slot slots ->
    settledAt slot
      (fst (settleAll subs env session plan cinput slots ps o)) = true.
Proof.
  induction slots as [|s slots IH]; intros slot ps o H; [destruct H|].
  simpl.
  destruct H as [->|H].
  - pose proof (settleSlot_own slot ps o) as K.
    destruct (settleSlot subs env session plan cinput slot ps o) as [ps1 o1].
    now apply settleAll_keeps.
  - destruct (settleSlot subs env session plan cinput s ps o) as [ps1 o1].
    now apply IH.
Qed.

(** Whatever the schedule, no promise of the stage is left pending. *)
Lemma schedule_settles (sch : Schedule) (slot : Slot) ps o :
  settledAt slot
    (fst (settleAll subs env session plan cinput (order sch) ps o)) = true.
Proof.
  apply settleAll_settles. destruct sch, slot; simpl; auto.
Qed.
End Settling.

(** *** Session objects *)

Lemma update_deref (loc : nat) (f : AuditSession -> AuditSession)
    (o : OrchestratorRuntime) (s : AuditSession) :
  deref loc o = Some s ->
  deref loc (snd (update loc f o)) = Some (f s).
Proof.
  unfold deref, update. simpl. intros H. rewrite H.
  apply list_lookup_insert_eq. now apply lookup_lt_Some in H.
Qed.

Lemma update_getSession (loc : nat) (f : AuditSession -> AuditSession)
    (o : OrchestratorRuntime) (session : string) :
  getSession session (snd (update loc f o)) = getSession session o.
Proof. reflexivity. Qed.

(** A write to the session object allocated last. *)
Lemma update_last (f : AuditSession -> AuditSession) r a m h s :
  update (length h) f
    {| registry := r; agents := a; activeSessions := m; heap := h ++ [s] |}
  = (inr tt,
     {| registry := r; agents := a; activeSessions := m;
        heap := h ++ [f s] |}).
Proof.
  unfold update. simpl. f_equal. f_equal.
  rewrite list_lookup_middle by reflexivity.
  rewrite insert_app_r_alt by lia.
  now rewrite Nat.sub_diag.
Qed.

Lemma startAudit_ok subs env request o :
  fire subs (AuditStarted (uuid env) request) = None ->
  startAudit subs env request o
  = (inr (uuid env),
     {| registry :=
          Registry.withTracer
            (Tracer.startTrace (uuid env) (tracer (registry o)))
            (registry o);
        agents := agents o;
        activeSessions :=
          <[uuid env := length (heap o)]> (activeSessions o);
        heap := heap o ++ [newSession env] |}).
Proof. intros H. unfold startAudit, emit. now rewrite H. Qed.

Lemma startAudit_getSession subs env request o :
  fire subs (AuditStarted (uuid env) request) = None ->
  getSession (uuid env) (snd (startAudit subs env request o))
    = Some (length (heap o))
  /\ deref (length (heap o)) (snd (startAudit subs env request o))
    = Some (newSession env).
Proof.
  intros H. rewrite (startAudit_ok _ _ _ _ H). unfold getSession, deref.
  simpl. split.
  - apply lookup_insert_eq.
  - now apply list_lookup_middle.
Qed.


End OrchestratorFacts.

(** ** Supporting facts about spans and results *)

Module SpanFacts.
Import Registry Props.

(** The span [invokeTool] starts names the session id as its parent,
    whatever spans are active at that moment. *)
Lemma tool_span_parent (env : InvokeEnv) (req : ToolInvocationRequest)
    (r : MCPRegistry) :
  exists e : TraceEntry,
    activeSpans (tracer (traced env req r))
      !! Tracer.generateSpanId (spanIdNow env) (spanRnd env) = Some e
    /\ component e = McpToolC
    /\ parentSpanId e = Some (sessionId (securityContext req)).
Proof.
  unfold traced, Tracer.startSpan, Tracer.startTrace. simpl.
  eexists. split.
  - destruct (traces (tracer r) !! _); simpl; apply lookup_insert_eq.
  - split; reflexivity.
Qed.


End SpanFacts.

(** ** The audit pipeline *)

Module PipelineFacts.
Import Orchestrator MoreProps.

Lemma withRegistry_id (o : OrchestratorRuntime) :
  o = withRegistry (registry o) o.
Proof. now destruct o. Qed.

Lemma regOnly_ret {A} (a : A) : regOnly (ret a).
Proof. intros o. exists (registry o). apply withRegistry_id. Qed.

Lemma regOnly_throw {A} (e : JsError) : regOnly (@throw A e).
Proof. intros o. exists (registry o). apply withRegistry_id. Qed.

Lemma regOnly_lift {A} (x : JsError + A) : regOnly (lift x).
Proof. intros o. exists (registry o). apply withRegistry_id. Qed.

Lemma regOnly_emit subs ev : regOnly (emit subs ev).
Proof.
  intros o. exists (registry o). unfold emit.
  destruct (fire subs ev); apply withRegistry_id.
Qed.

Lemma regOnly_bind {A B} (m : M A) (k : A -> M B) :
  regOnly m -> (forall a, regOnly (k a)) -> regOnly (bind m k).
Proof.
  intros Hm Hk o. unfold bind. destruct (Hm o) as [r Hr].
  destruct (m o) as [[e|a] o1]; simpl in *; [now exists r|].
  destruct (Hk a o1) as [r' Hr']. exists r'. now rewrite Hr', Hr.
Qed.

Lemma regOnly_tryCatch {A} (m : M A) (h : JsError -> M A) :
  regOnly m -> (forall e, regOnly (h e)) -> regOnly (tryCatch m h).
Proof.
  intros Hm Hh o. unfold tryCatch. destruct (Hm o) as [r Hr].
  destruct (m o) as [[e|a] o1]; simpl in *; [|now exists r].
  destruct (Hh e o1) as [r' Hr']. exists r'. now rewrite Hr', Hr.
Qed.

Lemma regOnly_executeAgent env a session input :
  regOnly (executeAgent env a session input).
Proof.
  intros o. unfold executeAgent.
  destruct (Agent.execute _ a _ (registry o)) as [res r]. now exists r.
Qed.

Lemma regOnly_plannerAgent : regOnly plannerAgent.
Proof.
  intros o. exists (registry o). unfold plannerAgent.
  destruct (agents o !! "planner-agent"); apply withRegistry_id.
Qed.

Lemma regOnly_load loc : regOnly (load loc).
Proof.
  intros o. exists (registry o). unfold load.
  destruct (heap o !! loc); apply withRegistry_id.
Qed.

Lemma regOnly_runAgentStart subs agent session :
  regOnly (runAgentStart subs agent session).
Proof.
  intros o. exists (registry o). unfold runAgentStart, emit.
  destruct (agents o !! agent); [|apply withRegistry_id].
  destruct (fire subs _); apply withRegistry_id.
Qed.

Lemma regOnly_runAgentFinish subs env agent session input a :
  regOnly (runAgentFinish subs env agent session input a).
Proof.
  unfold runAgentFinish. apply regOnly_tryCatch.
  - apply regOnly_bind; [apply regOnly_executeAgent|]. intros result.
    apply regOnly_bind; [apply regOnly_emit|]. intros _. apply regOnly_ret.
  - intros e. apply regOnly_bind; [apply regOnly_emit|]. intros _.
    apply regOnly_throw.
Qed.

Lemma regOnly_settle subs env agent session input p :
  regOnly (settle subs env agent session input p).
Proof.
  intros o. unfold settle. destruct p as [x|a].
  - exists (registry o). apply withRegistry_id.
  - destruct (regOnly_runAgentFinish subs env agent session input a o) as [r Hr].
    destruct (runAgentFinish subs env agent session input a o). now exists r.
Qed.

Lemma regOnly_runAgent subs env agent session input :
  regOnly (runAgent subs env agent session input).
Proof.
  intros o. unfold runAgent.
  destruct (regOnly_runAgentStart subs agent session o) as [r Hr].
  destruct (runAgentStart subs agent session o) as [[x|a] o1]; simpl in *.
  - now exists r.
  - destruct (regOnly_runAgentFinish subs env agent session input a o1)
      as [r' Hr'].
    exists r'. now rewrite Hr', Hr.
Qed.

(** Composition of two steps that return a plain pair. *)
Lemma regOnly_then {X Y} (f : OrchestratorRuntime -> X * OrchestratorRuntime)
    (g : X -> OrchestratorRuntime -> Y * OrchestratorRuntime) :
  regOnly f -> (forall x, regOnly (g x)) ->
  regOnly (fun o => let '(x, o1) := f o in g x o1).
Proof.
  intros Hf Hg o. destruct (Hf o) as [r Hr].
  destruct (f o) as [x o1]. simpl in *.
  destruct (Hg x o1) as [r' Hr']. exists r'. now rewrite Hr', Hr.
Qed.

Lemma regOnly_startAll subs session : regOnly (startAll subs session).
Proof.
  intros o. unfold startAll.
  destruct (regOnly_runAgentStart subs "security-agent" session o) as [r0 H0].
  destruct (runAgentStart subs "security-agent" session o) as [p0 o0].
  destruct (regOnly_runAgentStart subs "quality-agent" session o0) as [r1 H1].
  destruct (runAgentStart subs "quality-agent" session o0) as [p1 o1].
  destruct (regOnly_runAgentStart subs "compliance-agent" session o1) as [r2 H2].
  destruct (runAgentStart subs "compliance-agent" session o1) as [p2 o2].
  simpl in *. exists r2. now rewrite H2, H1, H0.
Qed.

Lemma regOnly_settleSlot subs env session plan cinput slot ps :
  regOnly (settleSlot subs env session plan cinput slot ps).
Proof.
  intros o. unfold settleSlot.
  destruct slot;
    match goal with
    | |- context [settle subs env ?a session ?i ?p o] =>
        destruct (regOnly_settle subs env a session i p o) as [r Hr];
        destruct (settle subs env a session i p o) as [q o1]
    end; now exists r.
Qed.

Lemma regOnly_settleAll subs env session plan cinput slots :
  forall ps, regOnly (settleAll subs env session plan cinput slots ps).
Proof.
  induction slots as [|slot slots IH]; intros ps o; simpl.
  - exists (registry o). apply withRegistry_id.
  - destruct (regOnly_settleSlot subs env session plan cinput slot ps o)
      as [r Hr].
    destruct (settleSlot subs env session plan cinput slot ps o) as [ps1 o1].
    destruct (IH ps1 o1) as [r' Hr']. simpl in *.
    exists r'. now rewrite Hr', Hr.
Qed.

Lemma regOnly_parallelStage subs env session plan request :
  regOnly (parallelStage subs env session plan request).
Proof.
  intros o. unfold parallelStage.
  destruct (regOnly_startAll subs session o) as [r Hr].
  destruct (startAll subs session o) as [ps o1].
  match goal with
  | |- context [settleAll subs env session plan ?c ?sl ps o1] =>
      destruct (regOnly_settleAll subs env session plan c sl ps o1) as [r' Hr'];
      destruct (settleAll subs env session plan c sl ps o1) as [ps1 o2]
  end.
  simpl in *. exists r'. rewrite Hr', Hr.
  destruct (rejected ps1); [reflexivity|].
  destruct (securityP ps1) as [[|]|]; try reflexivity.
  destruct (qualityP ps1) as [[|]|]; try reflexivity.
  destruct (complianceP ps1) as [[|]|]; reflexivity.
Qed.

(** *** Hoare rules *)

Lemma triple_bind {A B} P (m : M A) Q (k : A -> M B) R E :
  triple P m Q E -> (forall a, triple (Q a) (k a) R E) ->
  triple P (bind m k) R E.
Proof.
  intros Hm Hk o Po. unfold bind. specialize (Hm o Po).
  destruct (m o) as [[e|a] o1]; [exact Hm | apply (Hk a o1 Hm)].
Qed.

Lemma triple_frame {A} (m : M A) team sessions older phi psi :
  regOnly m -> (forall s, phi s -> psi s) ->
  triple (current team sessions older phi) m
         (fun _ => current team sessions older phi)
         (current team sessions older psi).
Proof.
  intros Hm Hw o (Ha & Hs & s & Hh & Hp). destruct (Hm o) as [r Hr].
  destruct (m o) as [[e|a] o1]; simpl in Hr; subst o1; simpl.
  - repeat split; [exact Ha | exact Hs|]. exists s. auto.
  - repeat split; [exact Ha | exact Hs|]. exists s. auto.
Qed.

Lemma triple_update (f : AuditSession -> AuditSession) team sessions older
    (phi psi chi : AuditSession -> Prop) :
  (forall s, phi s -> psi (f s)) ->
  triple (current team sessions older phi) (update (length older) f)
         (fun _ => current team sessions older psi)
         (current team sessions older chi).
Proof.
  intros Hf [r a m h] (Ha & Hs & s & Hh & Hp). simpl in Ha, Hs, Hh.
  subst h m a. rewrite OrchestratorFacts.update_last.
  repeat split. exists (f s). auto.
Qed.

Lemma triple_sessionRef session team sessions older phi psi :
  sessions !! session = Some (length older) ->
  triple (current team sessions older phi) (sessionRef session)
         (fun loc o =>
            loc = length older /\ current team sessions older phi o)
         (current team sessions older psi).
Proof.
  intros Hl o (Ha & Hs & s & Hh & Hp). unfold sessionRef. rewrite Hs, Hl.
  split; [reflexivity|]. repeat split; [exact Ha | exact Hs|]. now exists s.
Qed.

Lemma triple_pure {A} (fact : Prop) P (m : M A) Q E :
  (fact -> triple P m Q E) -> triple (fun o => fact /\ P o) m Q E.
Proof. intros H o [F Po]. now apply H. Qed.
End PipelineFacts.

Module OutcomeFacts.
Import Orchestrator MoreProps PipelineFacts.

Create HintDb pipeline.

#[local] Hint Resolve regOnly_emit regOnly_lift regOnly_runAgent
  regOnly_parallelStage regOnly_executeAgent regOnly_plannerAgent
  regOnly_load : pipeline.

(** The pipeline leaves the session completed, or throws with the
    session's identity intact. *)
Lemma runAudit_triple subs env request team sessions older :
  sessions !! uuid env = Some (length older) ->
  triple
    (current team sessions older
       (fun s => born env s /\ session_error s = None))
    (runAudit subs env (uuid env) request)
    (fun _ => current team sessions older (completedWith env))
    (current team sessions older (born env)).
Proof.
  intros Hl. unfold runAudit.
  eapply triple_bind; [apply triple_sessionRef; exact Hl|].
  intros loc. apply triple_pure. intros ->.
  eapply triple_bind;
    [apply (triple_update _ _ _ _ _
              (fun s => born env s /\ session_error s = None));
     intros s [[B1 B2] B3]; repeat split; assumption|].
  intros ?; cbv beta.
  repeat (eapply triple_bind;
    [apply triple_frame; [solve [auto with pipeline] | tauto] | intros ?]).
  eapply triple_bind;
    [apply (triple_update _ _ _ _ _
              (fun s => born env s /\ session_error s = None));
     intros s [[B1 B2] B3]; repeat split; assumption|].
  intros ?; cbv beta.
  repeat (eapply triple_bind;
    [apply triple_frame; [solve [auto with pipeline] | tauto] | intros ?]).
  eapply triple_bind;
    [apply (triple_update _ _ _ _ _
              (fun s => born env s /\ status s = Completed
                        /\ session_error s = None));
     intros s [[B1 B2] B3]; repeat split; assumption|].
  intros ?; cbv beta.
  eapply triple_bind;
    [apply (triple_update _ _ _ _ _
              (fun s => born env s /\ status s = Completed
                        /\ completedAt s = Some (completedNow env)
                        /\ session_error s = None));
     intros s ([B1 B2] & B3 & B4); repeat split; assumption|].
  intros ?; cbv beta.
  repeat (eapply triple_bind;
    [apply triple_frame; [solve [auto with pipeline] | tauto] | intros ?]).
  cbv zeta.
  eapply triple_bind;
    [apply (triple_update _ _ _ _ _ (completedWith env));
     intros s ([B1 B2] & B3 & B4 & B5); repeat split;
     try assumption; discriminate|].
  intros ?; cbv beta.
  eapply triple_bind;
    [apply triple_frame; [auto with pipeline | unfold completedWith; tauto]
    | intros ?].
  apply triple_frame; [auto with pipeline | unfold completedWith; tauto].
Qed.

(** The handler of a failed pipeline leaves the session failed, whether
    or not a listener of 'audit:failed' throws. *)
Lemma onAuditError_triple subs env e team sessions older :
  triple (current team sessions older (born env))
    (onAuditError subs env (uuid env) (length older) e)
    (fun _ => current team sessions older (failedWith env))
    (current team sessions older (failedWith env)).
Proof.
  unfold onAuditError.
  eapply triple_bind;
    [apply (triple_update _ _ _ _ _
              (fun s => born env s /\ status s = Failed));
     intros s [B1 B2]; repeat split; assumption|].
  intros ?; cbv beta.
  eapply triple_bind;
    [apply (triple_update _ _ _ _ _
              (fun s => born env s /\ status s = Failed
                        /\ session_error s <> None));
     intros s ([B1 B2] & B3); repeat split; try assumption; discriminate|].
  intros ?; cbv beta.
  eapply triple_bind;
    [apply (triple_update _ _ _ _ _ (failedWith env));
     intros s ([B1 B2] & B3 & B4); repeat split; assumption|].
  intros ?; cbv beta.
  apply triple_frame; [auto with pipeline | tauto].
Qed.

(** After a started audit, the state differs from the one before in the
    registry, in one more session object, which is completed or failed,
    and in the map entry of that object. *)
Lemma audit_outcome subs env request o :
  fire subs (AuditStarted (uuid env) request) = None ->
  let o' := snd (audit subs env request o) in
  fst (audit subs env request o) = inr (uuid env)
  /\ agents o' = agents o
  /\ activeSessions o' = <[uuid env := length (heap o)]> (activeSessions o)
  /\ exists s, heap o' = heap o ++ [s]
       /\ (completedWith env s \/ failedWith env s).
Proof.
  intros Hs. unfold audit, startAudit, emit. rewrite Hs. cbv zeta. simpl fst.
  simpl snd.
  set (o1 := {| registry := _; agents := agents o; activeSessions := _;
                heap := _ |}).
  assert (P1 : current (agents o)
                 (<[uuid env := length (heap o)]> (activeSessions o))
                 (heap o) (fun s => born env s /\ session_error s = None) o1).
  { repeat split. exists (newSession env). repeat split. }
  assert (Hl : (<[uuid env := length (heap o)]> (activeSessions o))
                 !! uuid env = Some (length (heap o)))
    by apply lookup_insert_eq.
  pose proof (runAudit_triple subs env request _ _ _ Hl o1 P1) as T.
  unfold auditTask, tryCatch.
  destruct (runAudit subs env (uuid env) request o1) as [[e|[]] o2].
  - pose proof (onAuditError_triple subs env e _ _ _ o2 T) as T2.
    destruct (onAuditError subs env (uuid env) (length (heap o)) e o2)
      as [[e'|[]] o3]; simpl;
      destruct T2 as (T1 & T2 & s & T3 & T4); repeat split; auto;
      exists s; auto.
  - simpl. destruct T as (T1 & T2 & s & T3 & T4). repeat split; auto.
    exists s. auto.
Qed.


End OutcomeFacts.

(** * Properties of the specification *)

Import JsString Json SecurityGuardrails Props Examples.

(** C1.  The spans of a session do not form a tree.  On the example
    deployment an audit runs to completion; its trace holds the span of
    the planner's tool call and one span per agent.  Every span names the
    session id as its parent, no span carries that id, so no parent is
    present in the trace and no span is a root; the tool span, which
    starts at 1000 and lasts 5 ms inside the planner's span (950 to
    1900), is not nested under it. *)
Theorem C1_session_trace_has_no_root :
  let o := snd (Orchestrator.audit [] auditEnv request deployment) in
  let trace := Orchestrator.getTrace sid o in
  (status <$> Orchestrator.deref 0 o) = Some Completed
  /\ map (fun e => (component e, spanId e, parentSpanId e,
                      timestamp e, duration e)) trace
     = [ (McpToolC, "span-1000-k3x9", Some sid, 1000, Some 5);
         (AgentC, "span-950-planner-agent", Some sid, 950, Some 950);
         (AgentC, "span-950-security-agent", Some sid, 950, Some 950);
         (AgentC, "span-950-quality-agent", Some sid, 950, Some 950);
         (AgentC, "span-950-compliance-agent", Some sid, 950, Some 950);
         (AgentC, "span-950-validator-agent", Some sid, 950, Some 950);
         (AgentC, "span-950-prioritizer-agent", Some sid, 950, Some 950);
         (AgentC, "span-950-explainer-agent", Some sid, 950, Some 950);
         (AgentC, "span-950-ui-composer-agent", Some sid, 950, Some 950) ]
  /\ roots trace = []
  /\ hasSpan sid trace = false
  /\ parentsPresent trace = false.
Proof. vm_compute. repeat split; reflexivity. Qed.




(** C3.  A request is admitted exactly when fewer than the limit of the
    recorded timestamps are less than 60000 ms old; an admitted request
    leaves exactly those timestamps on record, in order and followed by
    its own, and a rejected one leaves the record alone.  Over the whole
    history of a tracker, with a clock that does not run backwards, this
    is a sliding window: a request is admitted exactly when fewer than
    the limit of the requests admitted before it are less than 60000 ms
    old, so a timestamp stays counted after older ones have been
    dropped.  After [W] requests inside one window of a tracker with
    limit [W] the next request in that window is rejected, and once the
    oldest of them is 60000 ms old a request is admitted again. *)
Theorem C3_sliding_window :
  (forall (now : Z) (key : string) (t : RateLimitTracker),
      (fst (RateLimit.allowRequest now key t) = true
       <-> MoreProps.recent now (RateLimit.window key t) < requestsPerMinute (config t))
      /\ RateLimit.window key (snd (RateLimit.allowRequest now key t))
         = (if fst (RateLimit.allowRequest now key t)
            then List.filter (MoreProps.inWindow now) (RateLimit.window key t) ++ [now]
            else RateLimit.window key t))
  /\ (forall (cfg : RateLimitConfig) (key : string) (before : list Z)
             (now : Z),
        (forall ts, In ts before -> ts <= now) ->
        fst (RateLimit.allowRequest now key
               (snd (RateLimit.requests before key (RateLimit.newTracker cfg))))
        = true
        <-> MoreProps.recent now
              (MoreProps.admitted before
                 (fst (RateLimit.requests before key
                         (RateLimit.newTracker cfg))))
            < requestsPerMinute cfg)
  /\ (forall (cfg : RateLimitConfig) (key : string) (times : list Z) (now : Z),
        requestsPerMinute cfg = Z.of_nat (length times) ->
        (forall ts, In ts times -> now - 60000 < ts <= now) ->
        fst (RateLimit.requests (times ++ [now]) key (RateLimit.newTracker cfg))
        = repeat true (length times) ++ [false])
  /\ (forall (cfg : RateLimitConfig) (key : string) (oldest : Z)
             (rest : list Z) (now later : Z),
        requestsPerMinute cfg = Z.of_nat (length (oldest :: rest)) ->
        (forall ts, In ts (oldest :: rest) -> now - 60000 < ts <= now) ->
        oldest + 60000 <= later ->
        fst (RateLimit.allowRequest later key
               (snd (RateLimit.requests ((oldest :: rest) ++ [now]) key
                       (RateLimit.newTracker cfg))))
        = true).
Proof.
  split; [|split; [|split]].
  - intros now key t. unfold MoreProps.recent.
    rewrite <- RateLimitFacts.prune_inWindow. split.
    + apply RateLimitFacts.allowRequest_iff.
    + destruct (fst (RateLimit.allowRequest now key t)) eqn:E.
      * apply RateLimitFacts.allowRequest_iff in E.
        rewrite (RateLimitFacts.allowRequest_admitted _ _ _ E).
        apply RateLimitFacts.window_insert.
      * now rewrite (RateLimitFacts.allowRequest_false _ _ _ E).
  - intros cfg key before now Hle.
    destruct (RateLimitFacts.requests_history key before
                (RateLimit.newTracker cfg) now Hle) as [A B].
    rewrite RateLimitFacts.window_newTracker in A. simpl in A, B.
    rewrite RateLimitFacts.allowRequest_iff, RateLimitFacts.prune_inWindow.
    unfold MoreProps.recent. now rewrite A, B.
  - intros cfg key times now HW Hin.
    now destruct (RateLimitFacts.requests_full cfg key times now HW Hin).
  - intros cfg key oldest rest now later HW Hin Hold.
    destruct (RateLimitFacts.requests_full cfg key (oldest :: rest) now HW Hin)
      as (_ & Hwin & Hcfg).
    apply RateLimitFacts.allowRequest_iff. rewrite Hwin, Hcfg, HW.
    unfold RateLimit.prune. cbn [List.filter].
    assert (E : (later - 60000 <? oldest) = false) by (apply Z.ltb_ge; lia).
    rewrite E.
    pose proof (RateLimitFacts.length_prune later rest) as L.
    unfold RateLimit.prune in L. simpl. lia.
Qed.

Lemma C3_sliding_window_witness :
  let cfg := {| requestsPerMinute := 2; maxConcurrentRequests := 3 |} in
  fst (RateLimit.requests ([1000; 2000] ++ [3000]) sid
         (RateLimit.newTracker cfg))
  = [true; true; false]
  /\ fst (RateLimit.allowRequest 61000 sid
            (snd (RateLimit.requests ((1000 :: [2000]) ++ [3000]) sid
                    (RateLimit.newTracker cfg))))
     = true
  /\ fst (RateLimit.allowRequest 61500 sid
            (snd (RateLimit.requests [1000; 2000; 3000; 61000] sid
                    (RateLimit.newTracker cfg))))
     <> true.
Proof.
  intros cfg. destruct C3_sliding_window as (_ & H2 & H3 & H4).
  split; [|split].
  - apply (H3 cfg sid [1000; 2000] 3000).
    + reflexivity.
    + simpl. intros ts [<-|[<-|[]]]; lia.
  - apply (H4 cfg sid 1000 [2000] 3000 61000).
    + reflexivity.
    + simpl. intros ts [<-|[<-|[]]]; lia.
    + lia.
  - intros E.
    apply (H2 cfg sid [1000; 2000; 3000; 61000] 61500) in E.
    + vm_compute in E. discriminate.
    + simpl. intros ts [<-|[<-|[<-|[<-|[]]]]]; lia.
Defined.

(** C4, as the code has it.  An invocation the rate check rejects ends
    before the tool server is called and returns, without throwing, a
    result with [success = false], no data, the message
    "Rate limit exceeded for <tool>" and the usual metadata.  The error
    envelope has the fields code, message and retryable and no backoff
    hint. *)
Theorem C4_rate_limited_result (env : InvokeEnv) (post : Registry.Http)
    (req : ToolInvocationRequest) (r : MCPRegistry)
    (tool : MCPToolDefinition) (limiter : RateLimitTracker) :
  tools r !! toolId req = Some tool ->
  validateAgentAccess (agentId (securityContext req)) (toolId req) = inr true ->
  rateLimitTrackers r !! toolId req = Some limiter ->
  fst (RateLimit.allowRequest (rateNow env)
         (sessionId (securityContext req)) limiter) = false ->
  exists res : ToolInvocationResult,
    fst (Registry.invokeBegin env req r) = Registry.Rejected res
    /\ fst (Registry.invokeTool env post req r) = res
    /\ success res = false
    /\ data res = None
    /\ (exists e : InvocationError,
          res_error res = Some e
          /\ err_message e = "Rate limit exceeded for " +:+ toolId req)
    /\ metadata res = Registry.metadataOf env req.
Proof.
  intros Ht Ha Hl Hf.
  unfold Registry.invokeTool. rewrite RegistryFacts.invokeBegin_unfold.
  rewrite (RegistryFacts.checks_limited env req (traced env req r)
             tool limiter Ht Ha Hl Hf).
  eexists. split; [reflexivity|]. split; [reflexivity|].
  simpl. repeat split. eexists. split; reflexivity.
Qed.

(** C4 fails as stated: with a limit of one request per minute the
    second scan of a session is rejected by the rate check, and the
    result carries the generic code with [retryable = false]. *)
Lemma C4_counterexample :
  let r0 := registryWith (toolDef "git-api" "http://localhost:8083" 1 3) in
  let r1 := snd (Registry.invokeTool (envAt 1000 "k3x9") server scan r0) in
  let res := fst (Registry.invokeTool (envAt 1001 "p0q7") server scan r1) in
  success (fst (Registry.invokeTool (envAt 1000 "k3x9") server scan r0)) = true
  /\ res_error res
     = Some {| err_code := "TOOL_INVOCATION_ERROR";
               err_message := "Rate limit exceeded for git-api";
               err_retryable := false |}.
Proof. vm_compute. split; reflexivity. Qed.

Lemma C4_rate_limited_result_witness :
  let r0 := registryWith (toolDef "git-api" "http://localhost:8083" 0 3) in
  exists res : ToolInvocationResult,
    fst (Registry.invokeBegin (envAt 1000 "k3x9") scan r0)
      = Registry.Rejected res
    /\ fst (Registry.invokeTool (envAt 1000 "k3x9") server scan r0) = res
    /\ success res = false
    /\ data res = None
    /\ (exists e : InvocationError,
          res_error res = Some e
          /\ err_message e = "Rate limit exceeded for " +:+ toolId scan)
    /\ metadata res = Registry.metadataOf (envAt 1000 "k3x9") scan.
Proof.
  apply (C4_rate_limited_result (envAt 1000 "k3x9") server scan
           (registryWith (toolDef "git-api" "http://localhost:8083" 0 3))
           (toolDef "git-api" "http://localhost:8083" 0 3)
           (RateLimit.newTracker {| requestsPerMinute := 0;
                                    maxConcurrentRequests := 3 |}));
    reflexivity.
Defined.







(** C7, as the code has it.  [getSession] answers [undefined] for an id
    the map does not hold and otherwise hands out the session object the
    orchestrator itself works on: the object registered by [startAudit]
    is the one returned, and every later write of the orchestrator to it
    is read through the address returned earlier. *)
Theorem C7_getSession_is_a_live_handle :
  (forall (o : OrchestratorRuntime) (session : string),
      activeSessions o !! session = None ->
      Orchestrator.getSession session o = None)
  /\ (forall (subs : list Subscriber) (env : AuditEnv) (request : AuditRequest)
             (o : OrchestratorRuntime),
        Orchestrator.fire subs (AuditStarted (uuid env) request) = None ->
        Orchestrator.getSession (uuid env)
          (snd (Orchestrator.startAudit subs env request o))
        = Some (length (heap o))
        /\ Orchestrator.deref (length (heap o))
             (snd (Orchestrator.startAudit subs env request o))
           = Some (Orchestrator.newSession env))
  /\ (forall (o : OrchestratorRuntime) (session : string) (loc : nat)
             (s : AuditSession) (f : AuditSession -> AuditSession),
        Orchestrator.getSession session o = Some loc ->
        Orchestrator.deref loc o = Some s ->
        Orchestrator.getSession session (snd (Orchestrator.update loc f o))
        = Some loc
        /\ Orchestrator.deref loc (snd (Orchestrator.update loc f o))
           = Some (f s)).
Proof.
  split; [|split].
  - intros o session H. exact H.
  - intros subs env request o H.
    now apply OrchestratorFacts.startAudit_getSession.
  - intros o session loc s f Hg Hd. split.
    + exact Hg.
    + now apply OrchestratorFacts.update_deref.
Qed.

(** C7 fails as stated: the handle obtained while the session is being
    planned shows the completed session once the pipeline has run. *)
Lemma C7_counterexample :
  let o1 := snd (Orchestrator.startAudit [] auditEnv request deployment) in
  let o2 := snd (Orchestrator.auditTask [] auditEnv sid 0 request o1) in
  Orchestrator.getSession sid o1 = Some 0%nat
  /\ (status <$> Orchestrator.deref 0 o1) = Some Planning
  /\ (status <$> Orchestrator.deref 0 o2) = Some Completed
  /\ (completedAt <$> Orchestrator.deref 0 o2) = Some (Some 2000).
Proof. vm_compute. repeat split; reflexivity. Qed.

Lemma C7_getSession_is_a_live_handle_witness :
  let o1 := snd (Orchestrator.startAudit [] auditEnv request deployment) in
  Orchestrator.getSession "unknown" deployment = None
  /\ Orchestrator.getSession sid o1 = Some 0%nat
  /\ Orchestrator.deref 0
       (snd (Orchestrator.update 0 (Orchestrator.setStatus Running) o1))
     = Some (Orchestrator.setStatus Running (Orchestrator.newSession auditEnv)).
Proof.
  destruct C7_getSession_is_a_live_handle as (H1 & H2 & H3).
  split; [|split].
  - apply (H1 deployment "unknown"). reflexivity.
  - apply (H2 [] auditEnv request deployment). reflexivity.
  - apply (H3 (snd (Orchestrator.startAudit [] auditEnv request deployment))
              sid 0%nat (Orchestrator.newSession auditEnv)
              (Orchestrator.setStatus Running)); reflexivity.
Defined.

(** C8, as the code has it.  [maxConcurrentRequests] is stored and never
    read: an invocation returns the same result and leaves the same
    registry, whatever cap the tools declare. *)
Theorem C8_cap_is_only_recorded (cap : Z) (env : InvokeEnv)
    (post : Registry.Http) (req : ToolInvocationRequest) (r : MCPRegistry) :
  Registry.invokeTool env post req (recap cap r)
  = (fst (Registry.invokeTool env post req r),
     recap cap (snd (Registry.invokeTool env post req r))).
Proof. apply RegistryFacts.invokeTool_recap. Qed.

(** C8 fails as stated: with a declared cap of one concurrent request,
    two scans are admitted one after the other and are in flight
    together, both waiting for the tool server. *)
Lemma C8_counterexample :
  let git := toolDef "git-api" "http://localhost:8083" 15 1 in
  let b1 := Registry.invokeBegin (envAt 1000 "k3x9") scan (registryWith git) in
  let b2 := Registry.invokeBegin (envAt 1001 "p0q7") scan (snd b1) in
  maxConcurrentRequests (def_rateLimits git) = 1
  /\ (exists call, fst b1 = Registry.Pending call)
  /\ (exists call, fst b2 = Registry.Pending call)
  /\ inFlight "git-api" (snd b2) = 2%nat.
Proof.
  vm_compute. split; [reflexivity|].
  split; [eexists; reflexivity|]. split; [eexists; reflexivity|reflexivity].
Qed.

(** C9.  An invocation that passes lookup, access control and the rate
    check has its timestamp appended to the pruned window of its tool and
    session before the tool server is called, and nothing that happens
    afterwards (a rejected input, a failing server) takes it back.  An
    invocation stopped by lookup or access control leaves every window
    as it was. *)
Theorem C9_window_update (env : InvokeEnv) (post : Registry.Http)
    (req : ToolInvocationRequest) (r : MCPRegistry) :
  (forall (tool : MCPToolDefinition) (limiter : RateLimitTracker),
      tools r !! toolId req = Some tool ->
      validateAgentAccess (agentId (securityContext req)) (toolId req) = inr true ->
      rateLimitTrackers r !! toolId req = Some limiter ->
      fst (RateLimit.allowRequest (rateNow env)
             (sessionId (securityContext req)) limiter) = true ->
      (exists after : RateLimitTracker,
          rateLimitTrackers (snd (Registry.invokeBegin env req r))
            !! toolId req = Some after
          /\ RateLimit.window (sessionId (securityContext req)) after
             = RateLimit.prune (rateNow env)
                 (RateLimit.window (sessionId (securityContext req)) limiter)
               ++ [rateNow env])
      /\ rateLimitTrackers (snd (Registry.invokeTool env post req r))
         = rateLimitTrackers (snd (Registry.invokeBegin env req r)))
  /\ (tools r !! toolId req = None
      \/ validateAgentAccess (agentId (securityContext req)) (toolId req)
         <> inr true ->
      rateLimitTrackers (snd (Registry.invokeTool env post req r))
      = rateLimitTrackers r).
Proof.
  split.
  - intros tool limiter Ht Ha Hl Hok. split.
    + rewrite RegistryFacts.trackers_invokeBegin.
      rewrite (RegistryFacts.checks_admitted env req (traced env req r)
                 tool limiter Ht Ha Hl Hok).
      eexists. split; [apply lookup_insert_eq|].
      apply RateLimitFacts.allowRequest_iff in Hok.
      rewrite (RateLimitFacts.allowRequest_admitted _ _ _ Hok).
      apply RateLimitFacts.window_insert.
    + apply RegistryFacts.trackers_invokeTool.
  - intros H.
    rewrite RegistryFacts.trackers_invokeTool,
            RegistryFacts.trackers_invokeBegin.
    destruct H as [H|H].
    + now rewrite (RegistryFacts.checks_not_found env req (traced env req r) H).
    + destruct (tools r !! toolId req) as [tool|] eqn:Ht.
      * now rewrite (RegistryFacts.checks_refused env req (traced env req r)
                       tool Ht H).
      * now rewrite (RegistryFacts.checks_not_found env req
                       (traced env req r) Ht).
Qed.

Lemma C9_window_update_witness :
  (exists after : RateLimitTracker,
      rateLimitTrackers
        (snd (Registry.invokeBegin (envAt 1000 "k3x9") scan
                (registryWith gitApi))) !! "git-api" = Some after
      /\ RateLimit.window sid after = [1000])
  /\ rateLimitTrackers
       (snd (Registry.invokeTool (envAt 1000 "k3x9") down scan
               (registryWith gitApi)))
     = rateLimitTrackers
         (snd (Registry.invokeBegin (envAt 1000 "k3x9") scan
                 (registryWith gitApi))).
Proof.
  destruct (C9_window_update (envAt 1000 "k3x9") down scan
              (registryWith gitApi)) as [H _].
  apply (H gitApi (RateLimit.newTracker (def_rateLimits gitApi)));
    reflexivity.
Defined.

(** C10.  A string of at most 8 characters stored under a secret-like
    key is replaced by the mask "***" as a whole. *)
Theorem C10_short_secret_masked (data : json) (p : list seg) (k v : string) :
  getPath (p ++ [Key k]) data = Some (JStr v) ->
  isSensitiveKey k = true ->
  (String.length v <= 8)%nat ->
  getPath (p ++ [Key k]) (filterSensitiveData data) = Some (JStr "***").
Proof.
  intros H S L.
  rewrite (SecurityFacts.filterSensitiveData_path _ _ _ _ H).
  rewrite (SecurityFacts.filterString_sensitive _ _ S).
  unfold redactSecret.
  destruct (String.length v <=? 8)%nat eqn:E; [reflexivity|].
  apply Nat.leb_gt in E. lia.
Qed.

Lemma C10_short_secret_masked_witness :
  getPath [Key "users"; Idx 0; Key "password"]
    (filterSensitiveData
       (JObj [("users", JArr [JObj [("name", JStr "ann");
                                    ("password", JStr "hunter2")]])]))
  = Some (JStr "***").
Proof.
  apply (C10_short_secret_masked
           (JObj [("users", JArr [JObj [("name", JStr "ann");
                                        ("password", JStr "hunter2")]])])
           [Key "users"; Idx 0] "password" "hunter2").
  - reflexivity.
  - reflexivity.
  - simpl. lia.
Defined.

(** * Further properties of the code

    Properties of the functions above that the specification does not
    state: the span accounting and the outcomes of [invokeTool], the
    rate limit windows, the timeline and the retention of traces, input
    sanitisation and output filtering, the life cycle of an audit
    session, the planner's module and file selection, and tool
    discovery. *)
Module InvokeFacts.
Import Registry Props MoreProps.

Lemma tracer_checks env req r :
  tracer (snd (checks env req r)) = tracer r.
Proof.
  unfold checks, getTool.
  destruct (tools r !! toolId req); [|reflexivity].
  destruct (SecurityGuardrails.validateAgentAccess _ _) as [e|[|]];
    [reflexivity| |reflexivity].
  destruct (rateLimitTrackers r !! toolId req); [|reflexivity].
  destruct (RateLimit.allowRequest _ _ _) as [ok l1].
  destruct (negb ok); [reflexivity|].
  now destruct (Sanitize.sanitizeToolInput (params req)).
Qed.

Lemma access_error_plain (agent tool : string) (e : JsError) :
  SecurityGuardrails.validateAgentAccess agent tool = inl e ->
  e = plainError "allowedTools.includes is not a function".
Proof.
  unfold SecurityGuardrails.validateAgentAccess.
  destruct (SecurityGuardrails.lookupAgent _ _); [discriminate|].
  destruct (existsb _ _); [|discriminate].
  now intros [= <-].
Qed.

Lemma sanitize_error_plain (d : json) (e : JsError) :
  Sanitize.sanitizeToolInput d = inl e -> thrownCode e = None.
Proof.
  assert (I : forall n x needle e',
             Sanitize.includesAny n x needle = inl e' -> thrownCode e' = None).
  { intros n x needle e'. destruct x; simpl; intros [= <-]; reflexivity. }
  assert (F : forall files e', Sanitize.checkFiles files = inl e' -> thrownCode e' = None).
  { induction files as [|f files IH]; intros e'; simpl; [discriminate|].
    destruct (Sanitize.includesAny "file" f "..") as [e0|[|]] eqn:E.
    - intros [= <-]. eapply I, E.
    - intros [= <-]. reflexivity.
    - apply IH. }
  assert (P : forall fields e', Sanitize.checkPath fields = inl e' -> thrownCode e' = None).
  { intros fields e'. unfold Sanitize.checkPath.
    destruct (match _ with Some v => Some v | None => _ end) as [path|];
      [|discriminate].
    destruct (Sanitize.includesAny "path" path "..") as [e0|[|]] eqn:E.
    - intros [= <-]. eapply I, E.
    - intros [= <-]. reflexivity.
    - destruct (Sanitize.includesAny "path" path "~") as [e1|[|]] eqn:E1.
      + intros [= <-]. eapply I, E1.
      + intros [= <-]. reflexivity.
      + discriminate. }
  assert (O : forall fields e', Sanitize.sanitizeObject fields = inl e' -> thrownCode e' = None).
  { intros fields e'. unfold Sanitize.sanitizeObject.
    destruct (Sanitize.checkPath fields) as [e0|] eqn:E.
    - intros [= <-]. eapply P, E.
    - destruct (Json.prop "files" fields) as [[| | | |files|]|]; try discriminate.
      destruct (Sanitize.checkFiles files) as [e0|] eqn:E0; [|discriminate].
      intros [= <-]. eapply F, E0. }
  destruct d; simpl; try discriminate; apply O.
Qed.

Lemma checks_error_plain env req r e :
  fst (checks env req r) = inl e -> thrownCode e = None.
Proof.
  unfold checks, getTool.
  destruct (tools r !! toolId req); [|intros [= <-]; reflexivity].
  destruct (SecurityGuardrails.validateAgentAccess _ _) as [e0|[|]] eqn:A;
    [intros [= <-]; now rewrite (access_error_plain _ _ _ A)
    | | intros [= <-]; reflexivity].
  destruct (rateLimitTrackers r !! toolId req); [|intros [= <-]; reflexivity].
  destruct (RateLimit.allowRequest _ _ _) as [ok l1].
  destruct (negb ok); [intros [= <-]; reflexivity|].
  destruct (Sanitize.sanitizeToolInput (params req)) as [e0|] eqn:E; simpl.
  - intros [= <-]. eapply sanitize_error_plain, E.
  - discriminate.
Qed.

(** What [endSpan] makes of the tracer [invokeBegin] left behind. *)
Lemma endSpan_traced env req r (res : Tracer.SpanResult) :
  Tracer.endSpan (endSpanNow env)
    (Tracer.generateSpanId (spanIdNow env) (spanRnd env)) res
    (tracer (traced env req r))
  = let span := Tracer.generateSpanId (spanIdNow env) (spanRnd env) in
    let tid := Tracer.orElse (Some (sessionId (securityContext req))) span in
    {| traces :=
         <[tid := Tracer.getTrace tid (tracer r)
                  ++ [ {| traceId := tid;
                          spanId := span;
                          parentSpanId := Some (sessionId (securityContext req));
                          timestamp := spanNow env;
                          duration :=
                            Some (Tracer.durationOr (Tracer.r_duration res)
                                    (endSpanNow env - spanNow env));
                          component := McpToolC;
                          componentId := toolId req;
                          action := method req;
                          input := Some (Tracer.sanitizeForLogging (params req));
                          output := Tracer.outputOf (Tracer.r_output res);
                          error := Tracer.r_error res;
                          tags := [] |} ]]> (traces (tracer r));
       activeSpans := delete span (activeSpans (tracer r)) |}.
Proof.
  cbv zeta. unfold traced, Tracer.startSpan, withTracer.
  cbn [snd tracer p_parentSpanId p_component p_componentId p_action p_input
       p_tags].
  set (span := Tracer.generateSpanId (spanIdNow env) (spanRnd env)).
  set (tid := Tracer.orElse (Some (sessionId (securityContext req))) span).
  clearbody tid span.
  unfold Tracer.endSpan, Tracer.startTrace, Tracer.getTrace. simpl.
  destruct (traces (tracer r) !! tid) as [trace|] eqn:T; simpl.
  - rewrite lookup_insert_eq. simpl. rewrite T. simpl.
    now rewrite delete_insert_eq.
  - rewrite lookup_insert_eq. simpl. rewrite lookup_insert_eq. simpl.
    now rewrite insert_insert_eq, delete_insert_eq.
Qed.

Lemma invokeTool_cases env post req r :
  (exists e r1,
      checks env req (traced env req r) = (inl e, r1)
      /\ invokeTool env post req r
         = failed env req
             (Tracer.generateSpanId (spanIdNow env) (spanRnd env)) e r1)
  \/ (exists tool args r1,
        checks env req (traced env req r) = (inr (tool, args), r1)
        /\ ((exists e,
               callToolAPI post tool (method req) args = inl e
               /\ invokeTool env post req r
                  = failed env req
                      (Tracer.generateSpanId (spanIdNow env) (spanRnd env))
                      e r1)
            \/ (exists body,
                  callToolAPI post tool (method req) args = inr body
                  /\ invokeTool env post req r
                     = succeeded env req
                         (Tracer.generateSpanId (spanIdNow env) (spanRnd env))
                         body r1))).
Proof.
  unfold invokeTool. rewrite RegistryFacts.invokeBegin_unfold.
  destruct (checks env req (traced env req r)) as [[e|[tool args]] r1].
  - left. exists e, r1. split; [reflexivity|].
    now destruct (failed env req _ e r1).
  - right. exists tool, args, r1. split; [reflexivity|]. simpl.
    destruct (callToolAPI post tool (method req) args) as [e|body].
    + left. now exists e.
    + right. now exists body.
Qed.

Lemma tracer_after_checks env req r x r1 :
  checks env req (traced env req r) = (x, r1) ->
  tracer r1 = tracer (traced env req r).
Proof.
  intros H. pose proof (tracer_checks env req (traced env req r)) as T.
  now rewrite H in T.
Qed.
End InvokeFacts.

Import Registry Props MoreProps.

(** X1.  Every call of [invokeTool], whatever its outcome, files exactly
    one span: the session's trace gains the span of the call, closed with
    the output or the error message of the result, every other trace is
    left as it was, and the span is no longer active. *)
Theorem X1_invocation_files_one_span (env : InvokeEnv) (post : Http)
    (req : ToolInvocationRequest) (r : MCPRegistry) :
  let span := Tracer.generateSpanId (spanIdNow env) (spanRnd env) in
  let tid := Tracer.orElse (Some (sessionId (securityContext req))) span in
  let out := invokeTool env post req r in
  tracer (snd out)
  = {| traces := <[tid := Tracer.getTrace tid (tracer r)
                          ++ [toolSpan env req (fst out)]]>
                   (traces (tracer r));
       activeSpans := delete span (activeSpans (tracer r)) |}.
Proof.
  cbv zeta.
  destruct (InvokeFacts.invokeTool_cases env post req r)
    as [(e & r1 & C & ->)|(tool & args & r1 & C & [(e & _ & ->)|(body & _ & ->)])];
    apply InvokeFacts.tracer_after_checks in C;
    unfold failed, succeeded; simpl; rewrite C;
    now rewrite InvokeFacts.endSpan_traced.
Qed.

(** X2.  An agent that access control does not let through to a
    registered tool gets a failed, non-retryable result, whatever the
    rate limiter, the arguments and the tool would have said, and the
    tools and the rate limit windows are left untouched.  For an agent
    the matrix denies the message names the agent and the tool.  The
    matrix is a plain object, so for an agent id that names a property
    every object inherits ([constructor], [toString], [__proto__], ...),
    and only for those, the lookup throws and the message is that of the
    [TypeError], "allowedTools.includes is not a function". *)
Theorem X2_policy_denial_is_unconditional (env : InvokeEnv) (post : Http)
    (req : ToolInvocationRequest) (r : MCPRegistry) (tool : MCPToolDefinition) :
  let access :=
    SecurityGuardrails.validateAgentAccess
      (agentId (securityContext req)) (toolId req) in
  (tools r !! toolId req = Some tool ->
   access <> inr true ->
   invokeTool env post req r
   = ({| success := false;
         data := None;
         res_error :=
           Some {| err_code := "TOOL_INVOCATION_ERROR";
                   err_message :=
                     match access with
                     | inl e => message e
                     | inr _ =>
                         "Agent " +:+ agentId (securityContext req)
                         +:+ " not authorized to access " +:+ toolId req
                     end;
                   err_retryable := false |};
         metadata := metadataOf env req |},
      {| tools := tools r;
         rateLimitTrackers := rateLimitTrackers r;
         tracer := tracer (snd (invokeTool env post req r)) |}))
  /\ (forall e : JsError,
        access = inl e
        <-> In (agentId (securityContext req))
               SecurityGuardrails.inheritedProperties
            /\ e = plainError "allowedTools.includes is not a function").
Proof.
  cbv zeta. split.
  - intros Ht Ha.
    assert (E : invokeTool env post req r
                = failed env req
                    (Tracer.generateSpanId (spanIdNow env) (spanRnd env))
                    (match SecurityGuardrails.validateAgentAccess
                             (agentId (securityContext req)) (toolId req) with
                     | inl e => e
                     | inr _ =>
                         plainError
                           ("Agent " +:+ agentId (securityContext req)
                            +:+ " not authorized to access " +:+ toolId req)
                     end) (traced env req r)).
    { unfold invokeTool. rewrite RegistryFacts.invokeBegin_unfold.
      now rewrite (RegistryFacts.checks_refused env req (traced env req r)
                     tool Ht Ha). }
    rewrite E. unfold failed. simpl.
    destruct (SecurityGuardrails.validateAgentAccess _ _) as [e|[|]] eqn:A;
      [|congruence|reflexivity].
    now rewrite (InvokeFacts.access_error_plain _ _ _ A).
  - intros e. unfold SecurityGuardrails.validateAgentAccess. split.
    + destruct (SecurityGuardrails.lookupAgent _ _); [discriminate|].
      destruct (existsb _ _) eqn:X; [|discriminate].
      intros [= <-]. split; [|reflexivity].
      apply existsb_exists in X as (x & Hx & Ex).
      apply String.eqb_eq in Ex. now subst x.
    + intros [Hin ->]. simpl in Hin.
      repeat (destruct Hin as [<-|Hin]; [reflexivity|]).
      destruct Hin.
Qed.

Lemma X2_policy_denial_is_unconditional_witness :
  let ask := fun agent =>
    {| toolId := "git-api"; method := "scan_repository";
       params := params scan;
       securityContext :=
         {| agentId := agent; sessionId := sid; userId := None |} |} in
  res_error
    (fst (invokeTool (envAt 1000 "k3x9") server (ask "ui-composer-agent")
            (registryWith gitApi)))
  = Some {| err_code := "TOOL_INVOCATION_ERROR";
            err_message :=
              "Agent ui-composer-agent not authorized to access git-api";
            err_retryable := false |}
  /\ res_error
       (fst (invokeTool (envAt 1000 "k3x9") server (ask "constructor")
               (registryWith gitApi)))
     = Some {| err_code := "TOOL_INVOCATION_ERROR";
               err_message := "allowedTools.includes is not a function";
               err_retryable := false |}
  /\ SecurityGuardrails.validateAgentAccess "constructor" "git-api"
     = inl (plainError "allowedTools.includes is not a function").
Proof.
  intros ask. split; [|split].
  - destruct (X2_policy_denial_is_unconditional (envAt 1000 "k3x9") server
                (ask "ui-composer-agent") (registryWith gitApi) gitApi)
      as [H _].
    rewrite H; [reflexivity | reflexivity | discriminate].
  - destruct (X2_policy_denial_is_unconditional (envAt 1000 "k3x9") server
                (ask "constructor") (registryWith gitApi) gitApi)
      as [H _].
    rewrite H; [reflexivity | reflexivity | discriminate].
  - destruct (X2_policy_denial_is_unconditional (envAt 1000 "k3x9") server
                (ask "constructor") (registryWith gitApi) gitApi)
      as [_ H].
    apply H. split; [now left | reflexivity].
Defined.

(** X3.  [invokeTool] reports success exactly when every step went
    through: the tool is registered, the agent may use it, the rate
    limiter admits the request, the arguments pass sanitisation and the
    tool's endpoint answers. *)
Theorem X3_success_needs_every_step (env : InvokeEnv) (post : Http)
    (req : ToolInvocationRequest) (r : MCPRegistry) :
  success (fst (invokeTool env post req r)) = true
  <-> exists (tool : MCPToolDefinition) (limiter : RateLimitTracker)
             (args body : json),
        tools r !! toolId req = Some tool
        /\ SecurityGuardrails.validateAgentAccess
             (agentId (securityContext req)) (toolId req) = inr true
        /\ rateLimitTrackers r !! toolId req = Some limiter
        /\ fst (RateLimit.allowRequest (rateNow env)
                  (sessionId (securityContext req)) limiter) = true
        /\ Sanitize.sanitizeToolInput (params req) = inr args
        /\ callToolAPI post tool (method req) args = inr body.
Proof.
  unfold invokeTool. rewrite RegistryFacts.invokeBegin_unfold.
  unfold checks, getTool. cbn [tools rateLimitTrackers traced withTracer].
  destruct (tools r !! toolId req) as [tool|]; simpl.
  2:{ split; [discriminate | intros (? & ? & ? & ? & [=] & _)]. }
  destruct (SecurityGuardrails.validateAgentAccess _ _) as [e0|[|]] eqn:A;
    simpl.
  1:{ split; [discriminate | intros (? & ? & ? & ? & _ & [=] & _)]. }
  2:{ split; [discriminate | intros (? & ? & ? & ? & _ & [=] & _)]. }
  destruct (rateLimitTrackers r !! toolId req) as [limiter|]; simpl.
  2:{ split; [discriminate | intros (? & ? & ? & ? & _ & _ & [=] & _)]. }
  destruct (RateLimit.allowRequest _ _ limiter) as [ok l1] eqn:L.
  destruct ok; simpl.
  2:{ split; [discriminate|].
      intros (? & l & ? & ? & _ & _ & [= <-] & H & _).
      rewrite L in H. discriminate. }
  destruct (Sanitize.sanitizeToolInput (params req)) as [e|args] eqn:S; simpl.
  { split; [discriminate | intros (? & ? & ? & ? & _ & _ & _ & _ & [=] & _)]. }
  destruct (callToolAPI post tool (method req) args) as [e|body] eqn:C; simpl.
  - split; [discriminate|].
    intros (t & ? & a & b & [= <-] & _ & _ & _ & [= <-] & H).
    rewrite C in H. discriminate.
  - split; [|reflexivity]. intros _.
    exists tool, limiter, args, body. rewrite L.
    repeat split; assumption || reflexivity.
Qed.

Lemma X3_success_needs_every_step_witness :
  exists (tool : MCPToolDefinition) (limiter : RateLimitTracker)
         (args body : json),
    tools (registryWith gitApi) !! toolId scan = Some tool
    /\ SecurityGuardrails.validateAgentAccess
         (agentId (securityContext scan)) (toolId scan) = inr true
    /\ rateLimitTrackers (registryWith gitApi) !! toolId scan = Some limiter
    /\ fst (RateLimit.allowRequest (rateNow (envAt 1000 "k3x9"))
              (sessionId (securityContext scan)) limiter) = true
    /\ Sanitize.sanitizeToolInput (params scan) = inr args
    /\ callToolAPI server tool (method scan) args = inr body.
Proof.
  apply (X3_success_needs_every_step (envAt 1000 "k3x9") server scan
           (registryWith gitApi)).
  reflexivity.
Defined.

(** X4.  A result refused before the HTTP call (unknown tool, access
    denied, rate limit, bad input) is never retryable; a result is marked
    retryable only when the HTTP call threw an error whose code is one of
    ECONNREFUSED, ETIMEDOUT and RATE_LIMIT_EXCEEDED. *)
Theorem X4_retryable_only_for_upstream_codes (env : InvokeEnv) (post : Http)
    (req : ToolInvocationRequest) (r : MCPRegistry) :
  (forall res : ToolInvocationResult,
      fst (invokeBegin env req r) = Rejected res ->
      success res = false
      /\ exists e : InvocationError,
           res_error res = Some e
           /\ err_code e = "TOOL_INVOCATION_ERROR"
           /\ err_retryable e = false)
  /\ (forall e : InvocationError,
        res_error (fst (invokeTool env post req r)) = Some e ->
        err_retryable e = true ->
        exists (tool : MCPToolDefinition) (args : json) (thrown : JsError),
          callToolAPI post tool (method req) args = inl thrown
          /\ thrownCode thrown = Some (err_code e)
          /\ In (err_code e) retryableCodes).
Proof.
  assert (Plain : forall e0 span r1,
             thrownCode e0 = None ->
             success (fst (failed env req span e0 r1)) = false
             /\ exists e : InvocationError,
                  res_error (fst (failed env req span e0 r1)) = Some e
                  /\ err_code e = "TOOL_INVOCATION_ERROR"
                  /\ err_retryable e = false).
  { intros [msg c] span r1 Hc. unfold thrownCode in Hc. simpl in Hc. subst c.
    split; [reflexivity|]. eexists. split; [reflexivity|]. split; reflexivity. }
  assert (Retry : forall thrown span r1 e,
             res_error (fst (failed env req span thrown r1)) = Some e ->
             err_retryable e = true ->
             thrownCode thrown = Some (err_code e)
             /\ In (err_code e) retryableCodes).
  { intros [msg c] span r1 e [= <-]. unfold isRetryableError, codeOf, thrownCode.
    simpl. destruct c as [c|]; [|discriminate].
    intros H.
    repeat (apply orb_true_iff in H as [H|H]); try discriminate;
      apply String.eqb_eq in H; subst c; simpl; tauto. }
  split.
  - intros res. rewrite RegistryFacts.invokeBegin_unfold.
    destruct (checks env req (traced env req r)) as [[e|[tool args]] r1] eqn:C;
      [|discriminate].
    intros [= <-].
    apply (Plain e (Tracer.generateSpanId (spanIdNow env) (spanRnd env)) r1).
    apply (InvokeFacts.checks_error_plain env req (traced env req r)).
    now rewrite C.
  - intros e He Hr.
    destruct (InvokeFacts.invokeTool_cases env post req r)
      as [(e0 & r1 & C & E)|(tool & args & r1 & C & [(e0 & A & E)|(body & A & E)])];
      rewrite E in He.
    + assert (P : thrownCode e0 = None).
      { apply (InvokeFacts.checks_error_plain env req (traced env req r)).
        now rewrite C. }
      destruct (Plain e0 (Tracer.generateSpanId (spanIdNow env) (spanRnd env))
                  r1 P) as (_ & e' & He' & _ & R).
      rewrite He in He'. injection He' as <-. congruence.
    + exists tool, args, e0. split; [exact A|]. eapply Retry; eassumption.
    + discriminate.
Qed.

Lemma X4_retryable_only_for_upstream_codes_witness :
  exists (tool : MCPToolDefinition) (args : json) (thrown : JsError),
    callToolAPI down tool (method scan) args = inl thrown
    /\ thrownCode thrown = Some "ECONNREFUSED"
    /\ In "ECONNREFUSED" retryableCodes.
Proof.
  destruct (X4_retryable_only_for_upstream_codes (envAt 1000 "k3x9") down scan
              (registryWith gitApi)) as [_ H].
  apply (H {| err_code := "ECONNREFUSED";
              err_message := "connect ECONNREFUSED 127.0.0.1:8083";
              err_retryable := true |}); reflexivity.
Defined.

Module WindowFacts.
Import RateLimit RateLimitFacts MoreProps.

Lemma requests_in_window (now : Z) (key : string) (times : list Z) :
  forall t : RateLimitTracker,
    (forall ts, In ts (window key t ++ times) -> now - 60000 < ts <= now) ->
    window key (snd (requests times key t))
      = window key t ++ admitted times (fst (requests times key t))
    /\ config (snd (requests times key t)) = config t
    /\ (Z.of_nat (length (window key t)) <= Z.max 0 (requestsPerMinute (config t)) ->
        Z.of_nat (length (window key (snd (requests times key t))))
          <= Z.max 0 (requestsPerMinute (config t))).
Proof.
  induction times as [|x times IH]; intros t Hin.
  - simpl. rewrite List.app_nil_r. auto.
  - assert (Hp : prune x (window key t) = window key t).
    { apply prune_all. intros ts Hts.
      assert (now - 60000 < ts <= now) by (apply Hin, in_or_app; now left).
      assert (now - 60000 < x <= now)
        by (apply Hin, in_or_app; right; now left).
      lia. }
    simpl.
    destruct (Z_lt_le_dec (Z.of_nat (length (prune x (window key t))))
                (requestsPerMinute (config t))) as [Hlt|Hge].
    + rewrite (allowRequest_admitted _ _ _ Hlt). rewrite Hp in *.
      set (t1 := {| requestCounts := _; config := config t |}).
      assert (W1 : window key t1 = window key t ++ [x])
        by apply window_insert.
      destruct (IH t1) as (A & B & C).
      { rewrite W1, <- List.app_assoc. exact Hin. }
      destruct (requests times key t1) as [oks t2]. simpl in *.
      split; [|split].
      * now rewrite A, W1, <- List.app_assoc.
      * exact B.
      * intros _. apply C.
        rewrite W1, List.length_app. simpl. lia.
    + rewrite (allowRequest_rejected _ _ _ Hge).
      destruct (IH t) as (A & B & C).
      { intros ts Hts. apply Hin. apply in_app_or in Hts as [H|H];
          apply in_or_app; [now left | right; now right]. }
      destruct (requests times key t) as [oks t2]. simpl in *. auto.
Qed.

Lemma window_other (now : Z) (key other : string) (t : RateLimitTracker) :
  other <> key ->
  window other (snd (allowRequest now key t)) = window other t.
Proof.
  intros N. unfold allowRequest.
  destruct (requestsPerMinute (config t) <=? _); [reflexivity|].
  unfold window. simpl. now rewrite lookup_insert_ne by congruence.
Qed.
End WindowFacts.

Import RateLimit.

(** X5.  For requests of one key that all fall within one minute, the
    window of a fresh tracker holds exactly the admitted requests, and
    there are at most [requestsPerMinute] of them (none for a limit that
    is not positive). *)
Theorem X5_at_most_the_limit_per_window (cfg : RateLimitConfig) (key : string)
    (times : list Z) (now : Z) :
  (forall ts, In ts times -> now - 60000 < ts <= now) ->
  window key (snd (requests times key (newTracker cfg)))
    = admitted times (fst (requests times key (newTracker cfg)))
  /\ Z.of_nat (length (admitted times
                         (fst (requests times key (newTracker cfg)))))
     <= Z.max 0 (requestsPerMinute cfg).
Proof.
  intros Hin.
  destruct (WindowFacts.requests_in_window now key times (newTracker cfg))
    as (A & _ & C).
  - rewrite RateLimitFacts.window_newTracker. exact Hin.
  - rewrite RateLimitFacts.window_newTracker in A. simpl in A.
    split; [exact A|]. rewrite <- A. apply C.
    rewrite RateLimitFacts.window_newTracker. simpl. lia.
Qed.

Lemma X5_at_most_the_limit_per_window_witness :
  window sid
    (snd (requests [1000; 1500; 2000; 2500] sid
            (newTracker {| requestsPerMinute := 2;
                           maxConcurrentRequests := 3 |})))
  = [1000; 1500]
  /\ Z.of_nat (length (admitted [1000; 1500; 2000; 2500]
                 (fst (requests [1000; 1500; 2000; 2500] sid
                         (newTracker {| requestsPerMinute := 2;
                                        maxConcurrentRequests := 3 |})))))
     <= Z.max 0 2.
Proof.
  apply (X5_at_most_the_limit_per_window
           {| requestsPerMinute := 2; maxConcurrentRequests := 3 |}
           sid [1000; 1500; 2000; 2500] 3000).
  simpl. intros ts [<-|[<-|[<-|[<-|[]]]]]; lia.
Defined.

(** X6.  An invocation touches the rate limit window of its own tool
    and session only: the window of any other tool or of any other
    session is what it was. *)
Theorem X6_windows_are_independent (env : InvokeEnv) (post : Registry.Http)
    (req : ToolInvocationRequest) (r : MCPRegistry) (tool session : string) :
  tool <> toolId req \/ session <> sessionId (securityContext req) ->
  windowOf tool session (snd (Registry.invokeTool env post req r))
  = windowOf tool session r.
Proof.
  intros H. unfold windowOf.
  rewrite RegistryFacts.trackers_invokeTool, RegistryFacts.trackers_invokeBegin.
  unfold Registry.checks, Registry.getTool.
  cbn [tools rateLimitTrackers traced Registry.withTracer].
  destruct (tools r !! toolId req); [|reflexivity].
  destruct (SecurityGuardrails.validateAgentAccess _ _) as [e0|[|]];
    [reflexivity| |reflexivity].
  destruct (rateLimitTrackers r !! toolId req) as [limiter|] eqn:L;
    [|reflexivity].
  pose proof (WindowFacts.window_other (rateNow env)
                (sessionId (securityContext req)) session limiter) as W.
  destruct (allowRequest _ _ limiter) as [ok l1]. simpl in W.
  assert (G : window session <$> (<[toolId req := l1]> (rateLimitTrackers r) !! tool)
              = window session <$> (rateLimitTrackers r !! tool)).
  { destruct (decide (tool = toolId req)) as [->|N].
    - rewrite lookup_insert_eq, L. simpl. f_equal. apply W.
      destruct H as [H|H]; [congruence | exact H].
    - now rewrite lookup_insert_ne by congruence. }
  destruct (negb ok); [exact G|].
  destruct (Sanitize.sanitizeToolInput (params req)); exact G.
Qed.

Lemma X6_windows_are_independent_witness :
  windowOf "git-api" "another-session"
    (snd (Registry.invokeTool (envAt 1000 "k3x9") server scan
            (registryWith gitApi)))
  = windowOf "git-api" "another-session" (registryWith gitApi).
Proof.
  apply (X6_windows_are_independent (envAt 1000 "k3x9") server scan
           (registryWith gitApi) "git-api" "another-session").
  right. discriminate.
Defined.

Module TimelineFacts.
Import Timeline.

Lemma minOf_le (xs : list Z) :
  forall x, minOf x xs <= x /\ forall y, In y xs -> minOf x xs <= y.
Proof.
  unfold minOf. induction xs as [|a xs IH]; intros x; simpl.
  - split; [lia | contradiction].
  - destruct (IH (Z.min x a)) as [H1 H2]. split; [lia|].
    intros y [<-|Hy]; [lia | now apply H2].
Qed.

Lemma minOf_in (xs : list Z) : forall x, In (minOf x xs) (x :: xs).
Proof.
  unfold minOf. induction xs as [|a xs IH]; intros x; simpl; [now left|].
  destruct (IH (Z.min x a)) as [H|H].
  - rewrite <- H. destruct (Z.min_spec x a) as [[_ ->]|[_ ->]]; auto.
  - right. now right.
Qed.

Lemma maxOf_ge (xs : list Z) :
  forall x, x <= maxOf x xs /\ forall y, In y xs -> y <= maxOf x xs.
Proof.
  unfold maxOf. induction xs as [|a xs IH]; intros x; simpl.
  - split; [lia | contradiction].
  - destruct (IH (Z.max x a)) as [H1 H2]. split; [lia|].
    intros y [<-|Hy]; [lia | now apply H2].
Qed.

Lemma maxOf_in (xs : list Z) : forall x, In (maxOf x xs) (x :: xs).
Proof.
  unfold maxOf. induction xs as [|a xs IH]; intros x; simpl; [now left|].
  destruct (IH (Z.max x a)) as [H|H].
  - rewrite <- H. destruct (Z.max_spec x a) as [[_ ->]|[_ ->]]; auto.
  - right. now right.
Qed.

Lemma expired_iff (now : Z) (entries : list TraceEntry) :
  expired now entries = false
  <-> exists e, In e entries /\ now - 86400000 <= timestamp e.
Proof.
  unfold expired, latest. destruct entries as [|e rest].
  - split; [discriminate | intros (e & [] & _)].
  - change (24 * 60 * 60 * 1000) with 86400000.
    rewrite Z.ltb_ge. split.
    + intros H.
      destruct (maxOf_in (map timestamp rest) (timestamp e)) as [E|E].
      * exists e. split; [now left | lia].
      * apply in_map_iff in E as (e' & E' & Hin).
        exists e'. split; [now right | lia].
    + intros (e' & [<-|Hin] & H).
      * pose proof (maxOf_ge (map timestamp rest) (timestamp e)) as [M _]. lia.
      * pose proof (maxOf_ge (map timestamp rest) (timestamp e)) as [_ M].
        specialize (M (timestamp e') (in_map timestamp _ _ Hin)). lia.
Qed.
End TimelineFacts.

Import Timeline.

(** X7.  The timeline of a trace lists the spans of the trace in order;
    every start is relative to the earliest span and not negative, every
    span ends within the total duration, a span is marked as an error
    exactly when it carries a non-empty error message, the earliest span
    starts at 0, and an unknown or empty trace gives the empty timeline
    of duration 0. *)
Theorem X7_timeline_is_normalised (id : string) (t : ExecutionTracer) :
  let tl := getTraceTimeline id t in
  map tl_spanId (timeline_spans tl) = map spanId (Tracer.getTrace id t)
  /\ (forall s, In s (timeline_spans tl) ->
        0 <= relativeStartTime s
        /\ relativeStartTime s + tl_duration s <= timeline_duration tl
        /\ (tl_status s = ErrorS
            <-> exists msg, tl_error s = Some msg /\ msg <> ""))
  /\ (Tracer.getTrace id t <> [] ->
      exists s, In s (timeline_spans tl) /\ relativeStartTime s = 0)
  /\ (Tracer.getTrace id t = [] ->
      timeline_duration tl = 0 /\ timeline_spans tl = []).
Proof.
  cbv zeta. unfold getTraceTimeline.
  destruct (Tracer.getTrace id t) as [|e rest]; simpl.
  - repeat split; try contradiction; auto; congruence.
  - set (lo := minOf (timestamp e) (map timestamp rest)).
    set (hi := maxOf (endOf e) (map endOf rest)).
    assert (Lo : forall x, In x (e :: rest) -> lo <= timestamp x).
    { destruct (TimelineFacts.minOf_le (map timestamp rest) (timestamp e))
        as [A B].
      intros x [<-|Hx]; [exact A | apply B; now apply in_map]. }
    assert (Hi : forall x, In x (e :: rest) -> endOf x <= hi).
    { destruct (TimelineFacts.maxOf_ge (map endOf rest) (endOf e))
        as [A B].
      intros x [<-|Hx]; [exact A | apply B; now apply in_map]. }
    assert (St : forall x : TraceEntry,
               statusOf (error x) = ErrorS
               <-> exists msg, error x = Some msg /\ msg <> "").
    { intros x. unfold statusOf. destruct (error x) as [msg|].
      - destruct (String.eqb msg "") eqn:E.
        + apply String.eqb_eq in E. split; [discriminate|].
          intros (m & [= <-] & N). contradiction.
        + apply String.eqb_neq in E. split; [|reflexivity].
          intros _. now exists msg.
      - split; [discriminate | intros (m & [=] & _)]. }
    split; [|split; [|split]].
    + f_equal. rewrite map_map. reflexivity.
    + intros s Hs.
      assert (exists x, In x (e :: rest) /\ s = spanOf lo x) as (x & Hx & ->).
      { destruct Hs as [<-|Hs]; [exists e; split; [now left | reflexivity]|].
        apply in_map_iff in Hs as (x & <- & Hx). exists x. split; [now right|reflexivity]. }
      simpl. specialize (Lo x Hx). specialize (Hi x Hx). unfold endOf in Hi.
      split; [lia|]. split; [lia | apply St].
    + intros _.
      destruct (TimelineFacts.minOf_in (map timestamp rest) (timestamp e))
        as [E|E]; fold lo in E.
      * exists (spanOf lo e). split; [now left|]. simpl. lia.
      * apply in_map_iff in E as (x & E & Hx).
        exists (spanOf lo x). split; [right; now apply in_map|]. simpl. lia.
    + discriminate.
Qed.

Lemma X7_timeline_is_normalised_witness :
  let t := tracer (registry (snd (Orchestrator.audit [] auditEnv request
                                    deployment))) in
  exists s, In s (timeline_spans (getTraceTimeline sid t))
            /\ relativeStartTime s = 0.
Proof.
  intros t.
  destruct (X7_timeline_is_normalised sid t) as (_ & _ & H & _).
  apply H. vm_compute. discriminate.
Defined.

(** X8.  [cleanupOldTraces] keeps a trace, whole, exactly when one of
    its spans is at most 24 hours old, and drops it otherwise (so a trace
    without spans is always dropped); active spans are not touched, and
    a second clean-up at the same time changes nothing. *)
Theorem X8_retention_is_all_or_nothing (now : Z) (t : ExecutionTracer) :
  (forall (id : string) (entries : list TraceEntry),
      traces (cleanupOldTraces now t) !! id = Some entries
      <-> traces t !! id = Some entries
          /\ exists e, In e entries /\ now - 86400000 <= timestamp e)
  /\ activeSpans (cleanupOldTraces now t) = activeSpans t
  /\ cleanupOldTraces now (cleanupOldTraces now t) = cleanupOldTraces now t.
Proof.
  assert (L : forall (t' : ExecutionTracer) id entries,
             traces (cleanupOldTraces now t') !! id = Some entries
             <-> traces t' !! id = Some entries
                 /\ exists e, In e entries /\ now - 86400000 <= timestamp e).
  { intros t' id entries. unfold cleanupOldTraces. simpl.
    rewrite map_lookup_filter_Some. simpl.
    now rewrite TimelineFacts.expired_iff. }
  split; [apply L|]. split; [reflexivity|].
  unfold cleanupOldTraces. simpl. f_equal.
  apply map_eq. intros id. apply option_eq. intros entries.
  rewrite !map_lookup_filter_Some. simpl. tauto.
Qed.

(** X9.  A span that is still active when its trace is purged is lost
    when it ends: [endSpan] finds no trace to file it under, and removes
    it from the active spans. *)
Theorem X9_span_ending_after_purge_is_dropped (now endNow : Z) (id : string)
    (res : Tracer.SpanResult) (t : ExecutionTracer) (span : TraceEntry) :
  activeSpans t !! id = Some span ->
  expired now (Tracer.getTrace (traceId span) t) = true ->
  let t' := Tracer.endSpan endNow id res (cleanupOldTraces now t) in
  traces t' !! traceId span = None
  /\ activeSpans t' !! id = None.
Proof.
  intros Ha He. cbv zeta.
  assert (N : traces (cleanupOldTraces now t) !! traceId span = None).
  { unfold cleanupOldTraces. simpl. apply map_lookup_filter_None.
    right. intros entries Hl. simpl.
    unfold Tracer.getTrace in He. rewrite Hl in He. simpl in He.
    rewrite He. discriminate. }
  unfold Tracer.endSpan.
  change (activeSpans (cleanupOldTraces now t)) with (activeSpans t).
  rewrite Ha. cbv beta iota. rewrite N. cbn [traces activeSpans].
  split; [exact N | apply lookup_delete_eq].
Qed.

Lemma X9_span_ending_after_purge_is_dropped_witness :
  let started :=
    snd (Tracer.startSpan 950 "a1" 950
           {| p_component := AgentC; p_componentId := "planner-agent";
              p_action := "execute"; p_parentSpanId := Some sid;
              p_input := None; p_tags := None |}
           (Tracer.startTrace sid Tracer.empty)) in
  let t' := Tracer.endSpan 1900 "span-950-a1"
              {| Tracer.r_output := None; Tracer.r_error := None;
                 Tracer.r_duration := None |}
              (cleanupOldTraces 1000 started) in
  traces t' !! sid = None /\ activeSpans t' !! "span-950-a1" = None.
Proof.
  intros started.
  apply (X9_span_ending_after_purge_is_dropped 1000 1900 "span-950-a1"
           {| Tracer.r_output := None; Tracer.r_error := None;
              Tracer.r_duration := None |} started
           {| traceId := sid; spanId := "span-950-a1";
              parentSpanId := Some sid; timestamp := 950; duration := None;
              component := AgentC; componentId := "planner-agent";
              action := "execute"; input := None; output := None;
              error := None; tags := [] |}); reflexivity.
Defined.

Lemma X8_retention_is_all_or_nothing_witness :
  let t := tracer (registry (snd (Orchestrator.audit [] auditEnv request
                                    deployment))) in
  exists e, In e (Tracer.getTrace sid t) /\ 2000 - 86400000 <= timestamp e.
Proof.
  intros t.
  destruct (X8_retention_is_all_or_nothing 2000 t) as (H & _ & _).
  apply (H sid (Tracer.getTrace sid t)).
  vm_compute. reflexivity.
Defined.

Module SanitizeFacts.
Import JsString Json Sanitize MoreProps.

Lemma controlFree_stripControl (s : string) :
  controlFree (stripControl s) = true.
Proof.
  unfold controlFree. induction s as [|c s IH]; [reflexivity|].
  simpl. destruct ((code c <=? 31)%N || (code c =? 127)%N) eqn:E.
  - exact IH.
  - simpl. now rewrite E, IH.
Qed.

Lemma stripControl_fixed (s : string) :
  controlFree s = true -> stripControl s = s.
Proof.
  unfold controlFree. induction s as [|c s IH]; [reflexivity|].
  simpl. intros H. apply andb_true_iff in H as [Hc Hs].
  apply negb_true_iff in Hc. rewrite Hc. now rewrite IH.
Qed.

Lemma stripStrings_keys (fields : list (string * json)) :
  map fst (stripStrings fields) = map fst fields.
Proof.
  unfold stripStrings. rewrite map_map. apply map_ext.
  intros [k v]. now destruct v.
Qed.

Lemma stripStrings_In (fields : list (string * json)) (k : string) (v : json) :
  In (k, v) (stripStrings fields) ->
  match v with
  | JStr s => controlFree s = true
              /\ exists s0, In (k, JStr s0) fields /\ s = stripControl s0
  | _ => In (k, v) fields
  end.
Proof.
  unfold stripStrings. rewrite in_map_iff.
  intros ([k0 v0] & E & Hin). simpl in E.
  destruct v0; injection E as <- <-; try exact Hin.
  split; [apply controlFree_stripControl|]. now exists s.
Qed.

Lemma sanitizeObject_ok (fields : list (string * json)) (out : json) :
  sanitizeObject fields = inr out -> out = JObj (stripStrings fields).
Proof.
  unfold sanitizeObject. destruct (checkPath fields); [discriminate|].
  destruct (match prop "files" fields with
            | Some (JArr files) => checkFiles files
            | _ => inr tt
            end); [discriminate|].
  now intros [= <-].
Qed.
End SanitizeFacts.

Import Sanitize.

(** X10.  Accepted tool input is an object with the same keys in the
    same order; each string value is the input's with the control
    characters removed and holds none, and every other value is the
    input's. *)
Theorem X10_sanitized_input_is_control_free (fields : list (string * json))
    (out : json) :
  sanitizeToolInput (JObj fields) = inr out ->
  exists fields' : list (string * json),
    out = JObj fields'
    /\ map fst fields' = map fst fields
    /\ (forall k v, In (k, v) fields' ->
          match v with
          | JStr s => controlFree s = true
                      /\ exists s0, In (k, JStr s0) fields
                                    /\ s = JsString.stripControl s0
          | _ => In (k, v) fields
          end).
Proof.
  intros H. apply SanitizeFacts.sanitizeObject_ok in H.
  exists (stripStrings fields). split; [exact H|].
  split; [apply SanitizeFacts.stripStrings_keys|].
  intros k v. apply SanitizeFacts.stripStrings_In.
Qed.

Lemma X10_sanitized_input_is_control_free_witness :
  exists fields' : list (string * json),
    JObj [("repo_path", JStr "/repo"); ("depth", JNum 3)] = JObj fields'
    /\ map fst fields' = ["repo_path"; "depth"]
    /\ (forall k v, In (k, v) fields' ->
          match v with
          | JStr s => controlFree s = true
                      /\ exists s0,
                           In (k, JStr s0)
                              [("repo_path",
                                JStr (String (ascii_of_N 7) "/repo"));
                               ("depth", JNum 3)]
                           /\ s = JsString.stripControl s0
          | _ => In (k, v) [("repo_path", JStr (String (ascii_of_N 7) "/repo"));
                            ("depth", JNum 3)]
          end).
Proof.
  apply (X10_sanitized_input_is_control_free
           [("repo_path", JStr (String (ascii_of_N 7) "/repo"));
            ("depth", JNum 3)]).
  reflexivity.
Defined.

(** X11.  A path that contains [..] or [~] is refused with 'Path
    traversal detected' when it is the [repo_path], or the [file_path]
    of an input without [repo_path]. *)
Theorem X11_path_traversal_is_rejected (fields : list (string * json))
    (p : string) :
  JsString.includes p ".." = true \/ JsString.includes p "~" = true ->
  Json.prop "repo_path" fields = Some (JStr p)
  \/ (Json.prop "repo_path" fields = None
      /\ Json.prop "file_path" fields = Some (JStr p)) ->
  sanitizeToolInput (JObj fields) = inl (plainError "Path traversal detected").
Proof.
  intros Hbad Hwhere.
  assert (T : Json.truthy (JStr p) = true).
  { simpl. destruct p; [|reflexivity]. destruct Hbad; discriminate. }
  assert (C : checkPath fields = inl (plainError "Path traversal detected")).
  { unfold checkPath.
    destruct Hwhere as [R|[R F]]; rewrite R; [|rewrite F]; rewrite T;
      unfold includesAny;
      destruct (JsString.includes p "..") eqn:E; try reflexivity;
      destruct Hbad as [B|B]; try discriminate; now rewrite B. }
  unfold sanitizeToolInput, sanitizeObject. now rewrite C.
Qed.

Lemma X11_path_traversal_is_rejected_witness :
  sanitizeToolInput (JObj [("file_path", JStr "../../etc/passwd")])
  = inl (plainError "Path traversal detected").
Proof.
  apply (X11_path_traversal_is_rejected
           [("file_path", JStr "../../etc/passwd")] "../../etc/passwd").
  - left. reflexivity.
  - right. split; reflexivity.
Defined.

(** X12.  With a clean, non-empty [repo_path] present the [file_path]
    is not looked at: the input is accepted whatever [file_path] holds,
    a path with [..] included. *)
Theorem X12_file_path_unchecked_beside_repo_path
    (fields : list (string * json)) (p : string) :
  Json.prop "repo_path" fields = Some (JStr p) ->
  p <> "" ->
  JsString.includes p ".." = false ->
  JsString.includes p "~" = false ->
  Json.prop "files" fields = None ->
  sanitizeToolInput (JObj fields) = inr (JObj (stripStrings fields)).
Proof.
  intros R N D T F.
  assert (Tr : Json.truthy (JStr p) = true).
  { simpl. apply negb_true_iff. now apply String.eqb_neq. }
  unfold sanitizeToolInput, sanitizeObject, checkPath.
  rewrite R, Tr. unfold includesAny. now rewrite D, T, F.
Qed.

Lemma X12_file_path_unchecked_beside_repo_path_witness :
  sanitizeToolInput
    (JObj [("repo_path", JStr "/repo");
           ("file_path", JStr "../../etc/passwd")])
  = inr (JObj [("repo_path", JStr "/repo");
               ("file_path", JStr "../../etc/passwd")]).
Proof.
  apply (X12_file_path_unchecked_beside_repo_path
           [("repo_path", JStr "/repo");
            ("file_path", JStr "../../etc/passwd")] "/repo");
    reflexivity || discriminate.
Defined.

Module FilterFacts.
Import JsString Json SecurityGuardrails Props MoreProps StringFacts.

Lemma getPath_leaf (p : list seg) (d : json) :
  container d = false ->
  getPath p d = match p with [] => Some d | _ => None end.
Proof. destruct p as [|[k|i] p], d; simpl; congruence. Qed.

Lemma filterProp_leaf (recur : json -> json) (k : string) (w : json) :
  container w = false -> container (filterProp recur k w) = false.
Proof. destruct w; simpl; congruence. Qed.

(** The filter keeps the shape of a value and its scalar leaves. *)
Lemma filterObjectRecursive_shape (p : list seg) :
  forall d : json,
    (getPath p (filterObjectRecursive d) = None <-> getPath p d = None)
    /\ (forall v, scalar v = true -> getPath p d = Some v ->
          getPath p (filterObjectRecursive d) = Some v).
Proof.
  induction p as [|s p IH]; intros d.
  - simpl. split; [split; discriminate|].
    intros v Sv [= <-]. now destruct d.
  - assert (P : forall k w,
               (getPath p (filterProp filterObjectRecursive k w) = None
                <-> getPath p w = None)
               /\ (forall v, scalar v = true -> getPath p w = Some v ->
                     getPath p (filterProp filterObjectRecursive k w) = Some v)).
    { intros k w. destruct (container w) eqn:C.
      - rewrite (SecurityFacts.filterProp_container _ _ _ C). apply IH.
      - rewrite (getPath_leaf p w C).
        rewrite (getPath_leaf p _ (filterProp_leaf filterObjectRecursive k w C)).
        destruct p.
        + split; [split; discriminate|].
          intros v Sv [= <-]. now destruct w.
        + split; [tauto | intros; congruence]. }
    destruct s as [k|i], d; simpl; try (split; [tauto | intros; congruence]).
    + rewrite SecurityFacts.prop_filterProps.
      destruct (prop k fields) as [w|]; simpl; [apply P|].
      split; [tauto | intros; congruence].
    + rewrite SecurityFacts.nth_error_filterElems.
      destruct (nth_error items i) as [w|]; simpl; [apply P|].
      split; [tauto | intros; congruence].
Qed.

Lemma lowerChar_idem (c : ascii) : lowerChar (lowerChar c) = lowerChar c.
Proof.
  destruct c as [[] [] [] [] [] [] [] []]; reflexivity.
Qed.

Lemma toLowerCase_idem (s : string) : toLowerCase (toLowerCase s) = toLowerCase s.
Proof.
  induction s as [|c s IH]; [reflexivity|].
  simpl. now rewrite lowerChar_idem, IH.
Qed.

Lemma toLowerCase_append (a b : string) :
  toLowerCase (a +:+ b) = toLowerCase a +:+ toLowerCase b.
Proof.
  induction a as [|c a IH]; [reflexivity|].
  rewrite append_cons. simpl. rewrite IH. now rewrite append_cons.
Qed.

Lemma prefix_append (sub s b : string) :
  String.prefix sub s = true -> String.prefix sub (s +:+ b) = true.
Proof.
  revert s. induction sub as [|x sub IH]; intros s; [now destruct s, b|].
  destruct s as [|y s]; [discriminate|].
  rewrite append_cons. simpl.
  destruct (ascii_dec x y); [apply IH | discriminate].
Qed.

Lemma includes_append_r (s sub b : string) :
  includes s sub = true -> includes (s +:+ b) sub = true.
Proof.
  induction s as [|c s IH].
  - destruct sub as [|x sub]; simpl; [|discriminate].
    intros _. destruct b; reflexivity.
  - cbn [includes]. destruct (String.prefix sub (String c s)) eqn:E.
    + intros _. rewrite append_cons. cbn [includes].
      rewrite <- (append_cons c s b).
      now rewrite (prefix_append _ _ b E).
    + intros H. rewrite append_cons. cbn [includes].
      destruct (String.prefix sub (String c (s +:+ b))); [reflexivity|].
      now apply IH.
Qed.

Lemma includes_append_l (a s sub : string) :
  includes s sub = true -> includes (a +:+ s) sub = true.
Proof.
  intros H. induction a as [|c a IH]; [exact H|].
  rewrite append_cons. cbn [includes].
  destruct (String.prefix sub (String c (a +:+ s))); [reflexivity | exact IH].
Qed.
End FilterFacts.

Import Json SecurityGuardrails.

(** X13.  Output filtering keeps the shape of the data: a path leads
    somewhere in the filtered value exactly when it does in the
    original, and a [null], boolean or number found there is
    unchanged. *)
Theorem X13_filter_keeps_shape_and_scalars (data : json) (p : list seg) :
  (getPath p (filterSensitiveData data) = None <-> getPath p data = None)
  /\ (forall v, scalar v = true -> getPath p data = Some v ->
        getPath p (filterSensitiveData data) = Some v).
Proof.
  destruct (container data) eqn:C.
  - destruct data; try discriminate; apply FilterFacts.filterObjectRecursive_shape.
  - assert (E : filterSensitiveData data = data) by now destruct data.
    rewrite E. tauto.
Qed.

Lemma X13_filter_keeps_shape_and_scalars_witness :
  getPath [Key "user"; Key "age"]
    (filterSensitiveData
       (JObj [("user", JObj [("password", JStr "hunter2"); ("age", JNum 41)])]))
  = Some (JNum 41).
Proof.
  destruct (X13_filter_keeps_shape_and_scalars
              (JObj [("user", JObj [("password", JStr "hunter2");
                                    ("age", JNum 41)])])
              [Key "user"; Key "age"]) as [_ H].
  apply H; reflexivity.
Defined.

(** X14.  Sensitive keys are recognised by substring and without
    regard to case: a sensitive key stays sensitive with any text put
    before or after it, and in lower case. *)
Theorem X14_sensitive_keys_match_by_substring (key before after : string) :
  isSensitiveKey key = true ->
  isSensitiveKey (before +:+ key +:+ after) = true
  /\ isSensitiveKey (JsString.toLowerCase key) = true.
Proof.
  unfold isSensitiveKey. rewrite !existsb_exists.
  intros (sk & Hin & H). split; exists sk; (split; [exact Hin|]).
  - rewrite !FilterFacts.toLowerCase_append.
    apply FilterFacts.includes_append_l, FilterFacts.includes_append_r, H.
  - now rewrite FilterFacts.toLowerCase_idem.
Qed.

Lemma X14_sensitive_keys_match_by_substring_witness :
  isSensitiveKey ("co" +:+ "AUTH" +:+ "ors") = true
  /\ isSensitiveKey (JsString.toLowerCase "AUTH") = true.
Proof.
  apply (X14_sensitive_keys_match_by_substring "AUTH" "co" "ors").
  reflexivity.
Defined.


Module SummaryFacts.
Import Orchestrator MoreProps.

Lemma bump_counts (sev : option json) (s : Summary) :
  totalFindings (bump sev s) = totalFindings s
  /\ critical s <= critical (bump sev s)
  /\ high s <= high (bump sev s)
  /\ medium s <= medium (bump sev s)
  /\ low s <= low (bump sev s)
  /\ counted (bump sev s) <= counted s + 1.
Proof.
  unfold bump, counted.
  repeat match goal with
         | |- context [if ?b then _ else _] => destruct b
         end; simpl; lia.
Qed.

Lemma tally_counts (items : list json) :
  forall s s', tally items s = inr s' ->
    totalFindings s' = totalFindings s
    /\ critical s <= critical s' /\ high s <= high s'
    /\ medium s <= medium s' /\ low s <= low s'
    /\ counted s' <= counted s + Z.of_nat (length items).
Proof.
  induction items as [|x items IH]; intros s s' H; simpl in H.
  - inversion H; subst. simpl. lia.
  - destruct (severityOf x) as [e|sev]; [discriminate|].
    apply IH in H. pose proof (bump_counts sev s) as B.
    simpl length. lia.
Qed.
End SummaryFacts.

Module FailFastFacts.
Import Orchestrator MoreProps.

Lemma planning_failure subs env request o e o2 :
  fire subs (AuditStarted (uuid env) request) = None ->
  fire subs (AuditProgress (uuid env) "planning") = None ->
  bind plannerAgent
    (fun planner =>
       executeAgent env planner (uuid env)
         (JObj [("repoPath", JStr (repoPath request))]))
    (snd (startAudit subs env request o)) = (inl e, o2) ->
  registry (snd (audit subs env request o)) = registry o2
  /\ deref (length (heap o)) (snd (audit subs env request o))
     = Some {| session_id := uuid env;
               status := Failed;
               startedAt := startedNow env;
               completedAt := Some (failedNow env);
               results := None;
               session_error := Some (message e) |}.
Proof.
  intros Hs Hp Hplan.
  assert (F : snd (audit subs env request o)
              = {| registry := registry o2;
                   agents := agents o;
                   activeSessions :=
                     <[uuid env := length (heap o)]> (activeSessions o);
                   heap := heap o ++
                     [{| session_id := uuid env;
                         status := Failed;
                         startedAt := startedNow env;
                         completedAt := Some (failedNow env);
                         results := None;
                         session_error := Some (message e) |}] |}).
  { revert Hplan. unfold audit.
    rewrite (OrchestratorFacts.startAudit_ok _ _ _ _ Hs).
    simpl snd. intros Hplan.
    unfold auditTask, tryCatch, runAudit.
    unfold bind at 1. unfold sessionRef. simpl activeSessions.
    rewrite lookup_insert_eq.
    unfold bind at 1. rewrite OrchestratorFacts.update_last.
    unfold bind at 1. unfold emit at 1. rewrite Hp.
    change (setStatus Planning (newSession env)) with (newSession env).
    unfold bind at 1. unfold bind in Hplan.
    match type of Hplan with
    | (let (_, _) := plannerAgent ?st in _) = _ =>
        destruct (plannerAgent st) as [[e1|a] o3] eqn:Ep
    end.
    - inversion Hplan; subst e1 o3. clear Hplan.
      unfold plannerAgent in Ep. simpl agents in Ep.
      destruct (agents o !! "planner-agent"); inversion Ep; subst.
      unfold onAuditError.
      unfold bind at 1. rewrite OrchestratorFacts.update_last.
      unfold bind at 1. rewrite OrchestratorFacts.update_last.
      unfold bind at 1. rewrite OrchestratorFacts.update_last.
      unfold emit.
      destruct (fire subs (AuditFailed _ _)); reflexivity.
    - unfold plannerAgent in Ep. simpl agents in Ep.
      destruct (agents o !! "planner-agent"); inversion Ep; subst. clear Ep.
      unfold bind at 1. unfold executeAgent in *. simpl registry in *.
      destruct (Agent.execute _ a _ _) as [[e1|res] r1].
      + inversion Hplan; subst e1 o2. clear Hplan.
        unfold withRegistry. simpl agents. simpl activeSessions. simpl heap.
        unfold onAuditError.
        unfold bind at 1. rewrite OrchestratorFacts.update_last.
        unfold bind at 1. rewrite OrchestratorFacts.update_last.
        unfold bind at 1. rewrite OrchestratorFacts.update_last.
        unfold emit.
        destruct (fire subs (AuditFailed _ _)); reflexivity.
      + discriminate. }
  rewrite F. split; [reflexivity|].
  unfold deref. simpl. now apply list_lookup_middle.
Qed.
End FailFastFacts.

Import Orchestrator.



(** X16.  An audit writes to its own session only: every session object
    that existed before is unchanged, the ids of other sessions map to
    what they did, and the set of agents is the same. *)
Theorem X16_audit_leaves_other_sessions_alone
    (subs : list Subscriber) (env : AuditEnv) (request : AuditRequest)
    (o : OrchestratorRuntime) :
  fire subs (AuditStarted (uuid env) request) = None ->
  (forall (loc : nat) (s : AuditSession),
      deref loc o = Some s ->
      deref loc (snd (audit subs env request o)) = Some s)
  /\ (forall id : string,
        id <> uuid env ->
        getSession id (snd (audit subs env request o)) = getSession id o)
  /\ agents (snd (audit subs env request o)) = agents o.
Proof.
  intros H.
  destruct (OutcomeFacts.audit_outcome subs env request o H)
    as (_ & Ha & Hm & s & Hh & _).
  repeat split.
  - intros loc s0 Hl. unfold deref in *. rewrite Hh.
    now apply lookup_app_l_Some.
  - intros id Hid. unfold getSession. rewrite Hm.
    now apply lookup_insert_ne.
  - exact Ha.
Qed.

(** X17.  If planning fails, because there is no planner agent or
    because the planner throws, nothing else runs: the registry is the
    one planning left, and the session is Failed with the message of
    that error and without results. *)
Theorem X17_failed_planning_stops_the_audit
    (subs : list Subscriber) (env : AuditEnv) (request : AuditRequest)
    (o o2 : OrchestratorRuntime) (e : JsError) :
  fire subs (AuditStarted (uuid env) request) = None ->
  fire subs (AuditProgress (uuid env) "planning") = None ->
  bind plannerAgent
    (fun planner =>
       executeAgent env planner (uuid env)
         (JObj [("repoPath", JStr (repoPath request))]))
    (snd (startAudit subs env request o)) = (inl e, o2) ->
  registry (snd (audit subs env request o)) = registry o2
  /\ deref (length (heap o)) (snd (audit subs env request o))
     = Some {| session_id := uuid env;
               status := Failed;
               startedAt := startedNow env;
               completedAt := Some (failedNow env);
               results := None;
               session_error := Some (message e) |}.
Proof. apply FailFastFacts.planning_failure. Qed.

(** X18.  [calculateSummary] returns only for an array; then
    [totalFindings] is its length, the four severity counts are not
    negative and together do not exceed [totalFindings]. *)
Theorem X18_summary_counts_are_bounded
    (x : option json) (s : Summary) (fs : list json) :
  calculateSummary x = inr (s, fs) ->
  x = Some (JArr fs)
  /\ totalFindings s = Z.of_nat (length fs)
  /\ 0 <= critical s /\ 0 <= high s /\ 0 <= medium s /\ 0 <= low s
  /\ critical s + high s + medium s + low s <= totalFindings s.
Proof.
  unfold calculateSummary. intros H.
  destruct x as [[| | | |items|]|]; try discriminate.
  destruct (tally items _) as [e|s'] eqn:T; [discriminate|].
  inversion H; subst s' fs. clear H.
  apply SummaryFacts.tally_counts in T. unfold MoreProps.counted in T.
  simpl in T. repeat split; lia.
Qed.

Module PlannerFacts.
Import JsString Planner StringFacts.

Lemma count_filter (p : string -> bool) (l : list string) (f : string) :
  count_occ string_dec (List.filter p l) f
  = if p f then count_occ string_dec l f else 0%nat.
Proof.
  induction l as [|x l IH]; simpl; [now destruct (p f)|].
  destruct (p x) eqn:Px; simpl; destruct (string_dec x f) as [->|N];
    rewrite IH; try rewrite Px; try reflexivity;
    now destruct (p f).
Qed.

Lemma count_moduleFiles (files : list string) (ms : list PriorityModule)
    (f : string) :
  count_occ string_dec (moduleFiles files ms) f
  = (count_occ string_dec files f
     * length (List.filter (fun m => String.prefix (module_path m) f) ms))%nat.
Proof.
  induction ms as [|m ms IH]; simpl; [lia|].
  rewrite count_occ_app, count_filter, IH.
  destruct (String.prefix (module_path m) f); simpl; lia.
Qed.

Lemma includes_path (f : string) (l : list string) :
  existsb (String.eqb f) l = true <-> In f l.
Proof.
  rewrite existsb_exists. split.
  - intros (x & Hx & E). apply String.eqb_eq in E. now subst.
  - intros H. exists f. split; [exact H | apply String.eqb_refl].
Qed.

Lemma keywordOf_Some (path keyword : string) :
  keywordOf path = Some keyword ->
  In keyword highRiskKeywords /\ includes path keyword = true.
Proof. unfold keywordOf. apply find_some. Qed.

Lemma known_In (p : string) (modules : list PriorityModule) :
  known p modules = true <-> In p (map module_path modules).
Proof.
  unfold known. rewrite existsb_exists, in_map_iff. split.
  - intros (m & Hm & E). apply String.eqb_eq in E. now exists m.
  - intros (m & E & Hm). exists m. split; [exact Hm|].
    now apply String.eqb_eq.
Qed.

(** What the loop pushes for [file]. *)
Lemma collectModules_sound (all : list string) (P : PriorityModule -> Prop) :
  (forall file keyword,
      In file all -> keywordOf (toLowerCase file) = Some keyword ->
      P {| module_path := modulePathOf (toLowerCase file);
           module_reason := "Contains " +:+ keyword +:+ "-related code";
           module_risk := "critical" |}) ->
  forall files modules,
    (forall file, In file files -> In file all) ->
    (forall m, In m modules -> P m) ->
    forall m, In m (collectModules files modules) -> P m.
Proof.
  intros HP. induction files as [|file files IH]; intros modules Hall Hm;
    simpl; [exact Hm|].
  assert (Hall' : forall x, In x files -> In x all)
    by (intros x Hx; apply Hall; now right).
  destruct (keywordOf (toLowerCase file)) as [keyword|] eqn:K;
    [|now apply IH].
  destruct (known _ modules); [now apply IH|].
  apply IH; [exact Hall'|].
  intros m Hin. apply in_app_or in Hin as [Hin|[<-|[]]]; [now apply Hm|].
  apply HP; [apply Hall; now left | exact K].
Qed.

Lemma collectModules_NoDup (files : list string) :
  forall modules,
    List.NoDup (map module_path modules) ->
    List.NoDup (map module_path (collectModules files modules)).
Proof.
  induction files as [|file files IH]; intros modules H; simpl; [exact H|].
  destruct (keywordOf (toLowerCase file)) as [keyword|]; [|now apply IH].
  destruct (known _ modules) eqn:K; [now apply IH|].
  apply IH. rewrite map_app. simpl.
  apply NoDup_Add with (a := modulePathOf (toLowerCase file))
                       (l := map module_path modules).
  - rewrite <- (app_nil_r (map module_path modules)) at 1.
    apply Add_app.
  - split; [exact H|]. intros Hin. apply known_In in Hin. congruence.
Qed.

Lemma collectModules_grows (files : list string) :
  forall modules p,
    In p (map module_path modules) ->
    In p (map module_path (collectModules files modules)).
Proof.
  induction files as [|file files IH]; intros modules p H; simpl; [exact H|].
  destruct (keywordOf (toLowerCase file)); [|now apply IH].
  destruct (known _ modules); [now apply IH|].
  apply IH. rewrite map_app. apply in_or_app. now left.
Qed.

Lemma collectModules_complete (files : list string) :
  forall modules file,
    In file files -> keywordOf (toLowerCase file) <> None ->
    In (modulePathOf (toLowerCase file))
       (map module_path (collectModules files modules)).
Proof.
  induction files as [|x files IH]; intros modules file [];
    [subst x | ]; intros K; simpl.
  - destruct (keywordOf (toLowerCase file)) as [keyword|]; [|congruence].
    destruct (known _ modules) eqn:E.
    + apply collectModules_grows. now apply known_In.
    + apply collectModules_grows. rewrite map_app. apply in_or_app.
      right. now left.
  - destruct (keywordOf (toLowerCase x)); [|now apply IH].
    destruct (known _ modules); now apply IH.
Qed.

Lemma NoDup_firstn {A} (n : nat) (l : list A) :
  List.NoDup l -> List.NoDup (firstn n l).
Proof.
  intros H. rewrite <- (firstn_skipn n l) in H.
  now apply NoDup_app_remove_r in H.
Qed.

Lemma In_firstn {A} (n : nat) (l : list A) (x : A) :
  In x (firstn n l) -> In x l.
Proof.
  intros H. rewrite <- (firstn_skipn n l). apply in_or_app. now left.
Qed.

(** *** Lower case *)

Lemma lowered_cons (c : ascii) (s : string) :
  toLowerCase (String c s) = String c s ->
  lowerChar c = c /\ toLowerCase s = s.
Proof. simpl. intros [= H1 H2]. now split. Qed.

Lemma splitSlash_lowered (s : string) :
  forall cur,
    toLowerCase cur = cur -> toLowerCase s = s ->
    Forall (fun piece => toLowerCase piece = piece) (splitSlash cur s).
Proof.
  induction s as [|c s IH]; intros cur Hc Hs; simpl.
  - now constructor.
  - apply lowered_cons in Hs as [H1 H2].
    destruct (code c =? 47)%N.
    + constructor; [exact Hc|]. now apply IH.
    + apply IH; [|exact H2].
      rewrite FilterFacts.toLowerCase_append, Hc. simpl. now rewrite H1.
Qed.

Lemma joinSlash_lowered (parts : list string) :
  Forall (fun piece => toLowerCase piece = piece) parts ->
  toLowerCase (joinSlash parts) = joinSlash parts.
Proof.
  induction 1 as [|x parts Hx Hp IH]; [reflexivity|].
  destruct parts as [|y parts]; [exact Hx|].
  change (joinSlash (x :: y :: parts))
    with (x +:+ "/" +:+ joinSlash (y :: parts)).
  rewrite !FilterFacts.toLowerCase_append, Hx, IH. reflexivity.
Qed.

Lemma Forall_removelast {A} (P : A -> Prop) (l : list A) :
  Forall P l -> Forall P (removelast l).
Proof.
  induction 1 as [|x l Hx Hl IH]; simpl; [constructor|].
  destruct l; [constructor|]. now constructor.
Qed.

Lemma modulePathOf_lowered (path : string) :
  toLowerCase path = path ->
  toLowerCase (modulePathOf path) = modulePathOf path.
Proof.
  intros H. unfold modulePathOf.
  rewrite FilterFacts.toLowerCase_append. f_equal.
  apply joinSlash_lowered, Forall_removelast.
  now apply splitSlash_lowered.
Qed.

Lemma prefix_split (a b : string) :
  String.prefix a b = true -> exists rest, b = a +:+ rest.
Proof.
  revert b. induction a as [|x a IH]; intros b H.
  - now exists b.
  - destruct b as [|y b]; [discriminate|]. simpl in H.
    destruct (ascii_dec x y) as [->|]; [|discriminate].
    destruct (IH b H) as [rest ->]. exists rest.
    now rewrite append_cons.
Qed.

Lemma moduleFiles_In (files : list string) (ms : list PriorityModule)
    (f : string) :
  In f (moduleFiles files ms) <->
  In f files /\ exists m, In m ms /\ String.prefix (module_path m) f = true.
Proof.
  induction ms as [|m ms IH]; simpl.
  - split; [tauto | intros (_ & m & [] & _)].
  - rewrite in_app_iff, filter_In, IH. split.
    + intros [[H1 H2]|(H1 & m' & H2 & H3)].
      * split; [exact H1|]. exists m. auto.
      * split; [exact H1|]. exists m'. auto.
    + intros (H1 & m' & [<-|H2] & H3); [left; auto|].
      right. split; [exact H1|]. exists m'. auto.
Qed.

Lemma identify_sound (files : list string) (m : PriorityModule) :
  In m (identifyHighRiskModules files) ->
  exists file keyword : string,
    In file files
    /\ keywordOf (toLowerCase file) = Some keyword
    /\ m = {| module_path := modulePathOf (toLowerCase file);
              module_reason := "Contains " +:+ keyword +:+ "-related code";
              module_risk := "critical" |}.
Proof.
  unfold identifyHighRiskModules. intros H. apply In_firstn in H.
  revert m H. apply (collectModules_sound files).
  - intros file keyword Hf K. exists file, keyword. auto.
  - auto.
  - intros m [].
Qed.
End PlannerFacts.


Module DiscoveryFacts.
Import Discovery MoreProps.

Lemma mapSet_keys (id : string) (tool : MCPToolDefinition) table :
  map fst (mapSet id tool table)
  = if existsb (fun kv => String.eqb (fst kv) id) table
    then map fst table else map fst table ++ [id].
Proof.
  induction table as [|[k d] table IH]; [reflexivity|]. simpl.
  destruct (String.eqb k id); [reflexivity|]. simpl. rewrite IH.
  now destruct (existsb _ table).
Qed.

Lemma mapSet_NoDup (id : string) (tool : MCPToolDefinition) table :
  List.NoDup (map fst table) -> List.NoDup (map fst (mapSet id tool table)).
Proof.
  intros H. rewrite mapSet_keys.
  destruct (existsb _ table) eqn:E; [exact H|].
  apply NoDup_Add with (a := id) (l := map fst table).
  - rewrite <- (app_nil_r (map fst table)) at 1. apply Add_app.
  - split; [exact H|]. intros Hin. apply in_map_iff in Hin as ([k d] & <- & Hin).
    assert (existsb (fun kv => String.eqb (fst kv) k) table = true).
    { apply existsb_exists. exists (k, d). split; [exact Hin|].
      apply String.eqb_refl. }
    simpl in E. congruence.
Qed.

Lemma mapSet_In (id : string) (tool : MCPToolDefinition) table :
  List.NoDup (map fst table) ->
  forall k d,
    In (k, d) (mapSet id tool table)
    <-> (id = k /\ tool = d) \/ (id <> k /\ In (k, d) table).
Proof.
  induction table as [|[k0 d0] table IH]; intros ND k d; simpl.
  - split.
    + intros [[= <- <-]|[]]. now left.
    + intros [[-> ->]|[_ []]]. now left.
  - inversion ND as [|? ? Hnot ND']; subst.
    destruct (String.eqb k0 id) eqn:E.
    + apply String.eqb_eq in E. subst k0. simpl. split.
      * intros [[= <- <-]|Hin]; [now left|].
        right. split; [|now right].
        intros <-. apply Hnot. apply in_map_iff. now exists (id, d).
      * intros [[-> ->]|[Hne [[= -> ->]|Hin]]]; [now left | congruence |].
        now right.
    + apply String.eqb_neq in E. simpl. rewrite (IH ND'). split.
      * intros [[= <- <-]|[[-> ->]|[Hne Hin]]].
        -- right. split; [congruence | now left].
        -- now left.
        -- right. split; [exact Hne | now right].
      * intros [[-> ->]|[Hne [[= -> ->]|Hin]]].
        -- right. now left.
        -- now left.
        -- right. right. auto.
Qed.

Lemma agree_register (tool : MCPToolDefinition) table r :
  agree table r ->
  agree (registerInto table tool)
        (match Registry.register tool r with
         | inr r' => r'
         | inl _ => r
         end).
Proof.
  intros H. pose proof H as (ND & Hin & Hid).
  unfold registerInto, Registry.register.
  destruct (def_id tool) as [id|] eqn:Eid; [|exact H].
  destruct (def_capabilities tool); [|exact H].
  destruct (Registry.missing (Some id) || Registry.missing (def_endpoint tool));
    [exact H|].
  split; [now apply mapSet_NoDup|]. split.
  - intros k d. rewrite (mapSet_In id tool table ND). simpl.
    rewrite lookup_insert_Some, Hin. reflexivity.
  - intros k d K. apply (mapSet_In id tool table ND) in K
      as [[<- <-]|[_ K]]; [exact Eid | now apply Hid].
Qed.

Lemma agree_fold (defs : list MCPToolDefinition) :
  forall table r,
    agree table r ->
    agree (fold_left registerInto defs table)
          (fold_left (fun r tool => match Registry.register tool r with
                                    | inr r' => r'
                                    | inl _ => r
                                    end) defs r).
Proof.
  induction defs as [|tool defs IH]; intros table r H; [exact H|].
  simpl. apply IH. now apply agree_register.
Qed.

Lemma agree_registered (defs : list MCPToolDefinition) :
  agree (registered defs) (registryOf defs).
Proof.
  apply agree_fold. split; [constructor|]. split.
  - intros id d. simpl. split; [tauto|]. intros H.
    unfold Registry.empty in H. simpl in H.
    now rewrite lookup_empty in H.
  - intros id d [].
Qed.

Lemma NoDup_map_filter {A B} (g : A -> B) (p : A -> bool) (l : list A) :
  List.NoDup (map g l) -> List.NoDup (map g (List.filter p l)).
Proof.
  induction l as [|x l IH]; simpl; intros H; [constructor|].
  inversion H as [|? ? Hx Hl]; subst.
  destruct (p x); simpl; [|now apply IH].
  constructor; [|now apply IH].
  intros Hin. apply Hx. apply in_map_iff in Hin as (y & E & Hy).
  apply filter_In in Hy as [Hy _]. apply in_map_iff. now exists y.
Qed.

Lemma NoDup_map_Some {A} (l : list A) :
  List.NoDup l -> List.NoDup (map Some l).
Proof.
  induction 1 as [|x l Hx Hl IH]; simpl; constructor; [|exact IH].
  intros Hin. apply in_map_iff in Hin as (y & [= ->] & Hy). contradiction.
Qed.

Lemma table_ids (table : list (string * MCPToolDefinition)) :
  (forall id d, In (id, d) table -> def_id d = Some id) ->
  map def_id (map snd table) = map Some (map fst table).
Proof.
  intros H. rewrite !map_map. apply map_ext_in. intros [k d] Hin.
  simpl. now apply H.
Qed.
End DiscoveryFacts.

Import Planner Discovery.

Lemma X16_audit_leaves_other_sessions_alone_witness :
  let o1 := snd (audit [] auditEnv request deployment) in
  let o2 := snd (audit [logger] auditEnv request o1) in
  (exists s, deref 0 o1 = Some s /\ deref 0 o2 = Some s)
  /\ getSession "unknown" o2 = getSession "unknown" o1
  /\ agents o2 = agents o1.
Proof.
  destruct (X16_audit_leaves_other_sessions_alone [logger] auditEnv request
              (snd (audit [] auditEnv request deployment)) eq_refl)
    as (H1 & H2 & H3).
  split; [|split].
  - eexists. split; [vm_compute; reflexivity|].
    apply H1. vm_compute. reflexivity.
  - apply H2. discriminate.
  - exact H3.
Defined.

Lemma X17_failed_planning_stops_the_audit_witness :
  let o := Orchestrator.empty in
  registry (snd (audit [logger] auditEnv request o))
  = registry (snd (startAudit [logger] auditEnv request o))
  /\ deref 0 (snd (audit [logger] auditEnv request o))
     = Some {| session_id := sid;
               status := Failed;
               startedAt := 900;
               completedAt := Some 1500;
               results := None;
               session_error := Some "Planner agent not found" |}.
Proof.
  apply (X17_failed_planning_stops_the_audit [logger] auditEnv request
           Orchestrator.empty
           (snd (startAudit [logger] auditEnv request Orchestrator.empty))
           (plainError "Planner agent not found"));
    reflexivity.
Defined.

Lemma X18_summary_counts_are_bounded_witness :
  let s := {| critical := 0; high := 1; medium := 0; low := 0;
              totalFindings := 2 |} in
  let fs := [finding; JObj [("id", JStr "F-2")]] in
  calculateSummary (Some (JArr fs)) = inr (s, fs)
  /\ totalFindings s = Z.of_nat (length fs)
  /\ critical s + high s + medium s + low s <= totalFindings s.
Proof.
  split; [reflexivity|].
  destruct (X18_summary_counts_are_bounded
              (Some (JArr [finding; JObj [("id", JStr "F-2")]]))
              {| critical := 0; high := 1; medium := 0; low := 0;
                 totalFindings := 2 |}
              [finding; JObj [("id", JStr "F-2")]] eq_refl)
    as (_ & H1 & _ & _ & _ & _ & H2).
  split; [exact H1 | exact H2].
Defined.

(** X19.  [selectFilesToScan] returns the files of the repository and
    no others, but not each once: a file under [k] of the priority
    modules is listed [k] times for each of its occurrences, any other
    file as often as it occurs. *)
Theorem X19_scan_list_multiplicity (files : list string)
    (priorityModules : list PriorityModule) (f : string) :
  count_occ string_dec (selectFilesToScan files priorityModules) f
  = (count_occ string_dec files f
     * Nat.max 1
         (length (List.filter
                    (fun m => String.prefix (module_path m) f)
                    priorityModules)))%nat
  /\ (In f (selectFilesToScan files priorityModules) <-> In f files).
Proof.
  assert (C : count_occ string_dec (selectFilesToScan files priorityModules) f
    = (count_occ string_dec files f
       * Nat.max 1
           (length (List.filter
                      (fun m => String.prefix (module_path m) f)
                      priorityModules)))%nat).
  { unfold selectFilesToScan. cbv zeta.
    rewrite count_occ_app, PlannerFacts.count_filter,
      PlannerFacts.count_moduleFiles.
    set (n := count_occ string_dec files f).
    set (k := length _).
    cbv beta.
    destruct (existsb (String.eqb f) (moduleFiles files priorityModules))
      eqn:E; cbn [negb];
      destruct (Nat.max_spec 1 k) as [[M ->]|[M ->]].
    - apply PlannerFacts.includes_path in E.
      apply (count_occ_In string_dec) in E.
      rewrite PlannerFacts.count_moduleFiles in E. fold n k in E.
      clearbody n k. assert (k <> 0)%nat by (intros ->; lia). nia.
    - apply PlannerFacts.includes_path in E.
      apply (count_occ_In string_dec) in E.
      rewrite PlannerFacts.count_moduleFiles in E. fold n k in E.
      clearbody n k. assert (k <> 0)%nat by (intros ->; lia). nia.
    - assert (N : ~ In f (moduleFiles files priorityModules)).
      { intros H. apply PlannerFacts.includes_path in H. congruence. }
      apply (count_occ_not_In string_dec) in N.
      rewrite PlannerFacts.count_moduleFiles in N. fold n k in N.
      clearbody n k. nia.
    - assert (N : ~ In f (moduleFiles files priorityModules)).
      { intros H. apply PlannerFacts.includes_path in H. congruence. }
      apply (count_occ_not_In string_dec) in N.
      rewrite PlannerFacts.count_moduleFiles in N. fold n k in N.
      clearbody n k. nia. }
  split; [exact C|].
  rewrite (count_occ_In string_dec), (count_occ_In string_dec files), C.
  destruct (Nat.max_spec 1
              (length (List.filter
                         (fun m => String.prefix (module_path m) f)
                         priorityModules))) as [[M ->]|[M ->]]; nia.
Qed.

(** X20.  [identifyHighRiskModules] returns at most five modules with
    distinct paths; each is the directory of the lower-cased path of a
    file that contains a high-risk keyword, and names the first such
    keyword; when fewer than five are returned, the directory of every
    such file is among them. *)
Theorem X20_high_risk_modules (files : list string) :
  (length (identifyHighRiskModules files) <= 5)%nat
  /\ List.NoDup (map module_path (identifyHighRiskModules files))
  /\ (forall m : PriorityModule,
        In m (identifyHighRiskModules files) ->
        exists file keyword : string,
          In file files
          /\ keywordOf (JsString.toLowerCase file) = Some keyword
          /\ m = {| module_path := modulePathOf (JsString.toLowerCase file);
                    module_reason :=
                      "Contains " +:+ keyword +:+ "-related code";
                    module_risk := "critical" |})
  /\ (forall file : string,
        (length (identifyHighRiskModules files) < 5)%nat ->
        In file files ->
        keywordOf (JsString.toLowerCase file) <> None ->
        In (modulePathOf (JsString.toLowerCase file))
           (map module_path (identifyHighRiskModules files))).
Proof.
  split; [apply firstn_le_length|].
  split; [|split; [apply PlannerFacts.identify_sound|]];
    unfold identifyHighRiskModules.
  - rewrite <- firstn_map. apply PlannerFacts.NoDup_firstn.
    apply PlannerFacts.collectModules_NoDup. constructor.
  - intros file L Hf K.
    rewrite firstn_all2.
    + now apply PlannerFacts.collectModules_complete.
    + rewrite length_firstn in L. lia.
Qed.

Lemma X20_high_risk_modules_witness :
  let files := ["src/Auth/login.ts"; "README.md"; "src/Auth/token.ts"] in
  (exists file keyword : string,
      In file files
      /\ keywordOf (JsString.toLowerCase file) = Some keyword
      /\ {| module_path := "src/auth/";
            module_reason := "Contains auth-related code";
            module_risk := "critical" |}
         = {| module_path := modulePathOf (JsString.toLowerCase file);
              module_reason := "Contains " +:+ keyword +:+ "-related code";
              module_risk := "critical" |})
  /\ In (modulePathOf (JsString.toLowerCase "src/Auth/token.ts"))
        (map module_path (identifyHighRiskModules files)).
Proof.
  destruct (X20_high_risk_modules
              ["src/Auth/login.ts"; "README.md"; "src/Auth/token.ts"])
    as (_ & _ & H3 & H4).
  split.
  - apply H3. vm_compute. now left.
  - apply H4.
    + vm_compute. lia.
    + right. right. now left.
    + vm_compute. discriminate.
Defined.

(** X21.  Module paths are lower-cased but compared with the original
    file paths: a file placed in the priority part of the scan list
    starts with a returned module path, which is in lower case, so a file
    in a directory spelled with a capital letter is not placed there on
    account of its own module. *)
Theorem X21_priority_files_start_in_lower_case (files : list string)
    (f : string) :
  In f (moduleFiles files (identifyHighRiskModules files)) ->
  In f files
  /\ exists dir rest : string,
       f = dir +:+ rest
       /\ JsString.toLowerCase dir = dir
       /\ In dir (map module_path (identifyHighRiskModules files)).
Proof.
  intros H. apply PlannerFacts.moduleFiles_In in H as (Hf & m & Hm & Hp).
  split; [exact Hf|].
  apply PlannerFacts.prefix_split in Hp as [rest Hr].
  exists (module_path m), rest. split; [exact Hr|]. split.
  - destruct (PlannerFacts.identify_sound files m Hm)
      as (file & keyword & _ & _ & ->).
    apply PlannerFacts.modulePathOf_lowered, FilterFacts.toLowerCase_idem.
  - apply in_map_iff. now exists m.
Qed.

Lemma X21_priority_files_start_in_lower_case_witness :
  let files := ["src/auth/login.ts"; "src/Auth/token.ts"; "README.md"] in
  In "src/auth/login.ts" files
  /\ exists dir rest : string,
       "src/auth/login.ts" = dir +:+ rest
       /\ JsString.toLowerCase dir = dir
       /\ In dir (map module_path (identifyHighRiskModules files)).
Proof.
  apply (X21_priority_files_start_in_lower_case
           ["src/auth/login.ts"; "src/Auth/token.ts"; "README.md"]
           "src/auth/login.ts").
  vm_compute. now left.
Defined.

(** X22.  After any sequence of registrations, [findByCapability]
    returns exactly the definitions the registry holds that list the
    capability, and no tool id twice. *)
Theorem X22_findByCapability_matches_the_registry
    (defs : list MCPToolDefinition) (capability : string) :
  (forall tool : MCPToolDefinition,
      In tool (findByCapability capability (registered defs))
      <-> exists id : string,
            Registry.getTool id (registryOf defs) = Some tool
            /\ offers capability tool = true)
  /\ List.NoDup
       (map def_id (findByCapability capability (registered defs))).
Proof.
  destruct (DiscoveryFacts.agree_registered defs) as (ND & Hin & Hid).
  unfold findByCapability, Registry.getTool. split.
  - intros tool. rewrite filter_In, in_map_iff. split.
    + intros [([k d] & E & H) Ho]. simpl in E. subst d.
      exists k. split; [now apply Hin | exact Ho].
    + intros (id & H & Ho). split; [|exact Ho].
      exists (id, tool). split; [reflexivity | now apply Hin].
  - apply DiscoveryFacts.NoDup_map_filter.
    rewrite (DiscoveryFacts.table_ids _ Hid).
    now apply DiscoveryFacts.NoDup_map_Some.
Qed.

Module CategorizeFacts.
Import Json Orchestrator SecurityAnalyzer.

Lemma bump_named (x : string) (s : Summary) :
  critical (bump (Some (JStr x)) s)
    = critical s + (if String.eqb x "critical" then 1 else 0)
  /\ high (bump (Some (JStr x)) s)
    = high s + (if String.eqb x "high" then 1 else 0)
  /\ medium (bump (Some (JStr x)) s)
    = medium s + (if String.eqb x "medium" then 1 else 0)
  /\ low (bump (Some (JStr x)) s)
    = low s + (if String.eqb x "low" then 1 else 0).
Proof.
  unfold bump.
  destruct (String.eqb x "critical") eqn:E1;
    [apply String.eqb_eq in E1; subst x; simpl; lia|].
  destruct (String.eqb x "high") eqn:E2;
    [apply String.eqb_eq in E2; subst x; simpl; lia|].
  destruct (String.eqb x "medium") eqn:E3;
    [apply String.eqb_eq in E3; subst x; simpl; lia|].
  destruct (String.eqb x "low") eqn:E4;
    [apply String.eqb_eq in E4; subst x; simpl; lia|].
  lia.
Qed.

(** What the agent's filters and the orchestrator's loop add for one
    finding: [hit name] is the outcome of the filter for [name]. *)
Lemma severity_step (f : json) (sev : option json) (s : Summary) :
  severityOf f = inr sev ->
  exists hit : string -> bool,
    (forall name, name <> "" -> severityIs name f = inr (hit name))
    /\ critical s + (if hit "critical" then 1 else 0) <= critical (bump sev s)
    /\ high s + (if hit "high" then 1 else 0) <= high (bump sev s)
    /\ medium s + (if hit "medium" then 1 else 0) <= medium (bump sev s)
    /\ low s + (if hit "low" then 1 else 0) <= low (bump sev s)
    /\ (getProp "original_severity" f = inr None ->
        critical (bump sev s) = critical s + (if hit "critical" then 1 else 0)
        /\ high (bump sev s) = high s + (if hit "high" then 1 else 0)
        /\ medium (bump sev s) = medium s + (if hit "medium" then 1 else 0)
        /\ low (bump sev s) = low s + (if hit "low" then 1 else 0)).
Proof.
  intros H.
  assert (Falsy :
    (forall name, name <> "" -> severityIs name f = inr false) ->
    getProp "original_severity" f = inr sev ->
    exists hit : string -> bool,
      (forall name, name <> "" -> severityIs name f = inr (hit name))
      /\ critical s + (if hit "critical" then 1 else 0) <= critical (bump sev s)
      /\ high s + (if hit "high" then 1 else 0) <= high (bump sev s)
      /\ medium s + (if hit "medium" then 1 else 0) <= medium (bump sev s)
      /\ low s + (if hit "low" then 1 else 0) <= low (bump sev s)
      /\ (getProp "original_severity" f = inr None ->
          critical (bump sev s)
            = critical s + (if hit "critical" then 1 else 0)
          /\ high (bump sev s) = high s + (if hit "high" then 1 else 0)
          /\ medium (bump sev s) = medium s + (if hit "medium" then 1 else 0)
          /\ low (bump sev s) = low s + (if hit "low" then 1 else 0))).
  { intros F O. exists (fun _ => false). split; [exact F|].
    pose proof (SummaryFacts.bump_counts sev s) as B.
    cbv beta iota. split; [lia|]. split; [lia|]. split; [lia|].
    split; [lia|].
    intros O'. rewrite O in O'. inversion O'; subst sev. unfold bump. simpl. lia. }
  unfold severityOf in H. unfold severityIs in *.
  destruct (getProp "severity" f) as [e|[v|]] eqn:G; [discriminate| |].
  - destruct (truthy v) eqn:T.
    + inversion H; subst sev. clear H Falsy.
      destruct v as [|b|n|x|items|fields].
      * discriminate.
      * exists (fun _ => false). unfold bump. simpl.
        repeat split; intros; lia.
      * exists (fun _ => false). unfold bump. simpl.
        repeat split; intros; lia.
      * exists (String.eqb x). split; [reflexivity|].
        pose proof (bump_named x s). repeat split; intros; lia.
      * exists (fun _ => false). unfold bump. simpl.
        repeat split; intros; lia.
      * exists (fun _ => false). unfold bump. simpl.
        repeat split; intros; lia.
    + apply Falsy; [|exact H]. intros name Hn.
      destruct v as [|b|n|x|items|fields]; try reflexivity.
      simpl in T. apply negb_false_iff, String.eqb_eq in T. subst x.
      f_equal. apply String.eqb_neq. congruence.
  - apply Falsy; [|exact H]. reflexivity.
Qed.

Lemma countWhere_tally (findings : list json) :
  forall s s',
    tally findings s = inr s' ->
    exists c h m l : Z,
      countWhere "critical" findings = inr c
      /\ countWhere "high" findings = inr h
      /\ countWhere "medium" findings = inr m
      /\ countWhere "low" findings = inr l
      /\ 0 <= c /\ 0 <= h /\ 0 <= m /\ 0 <= l
      /\ critical s + c <= critical s' /\ high s + h <= high s'
      /\ medium s + m <= medium s' /\ low s + l <= low s'
      /\ ((forall f, In f findings ->
             getProp "original_severity" f = inr None) ->
          critical s' = critical s + c /\ high s' = high s + h
          /\ medium s' = medium s + m /\ low s' = low s + l).
Proof.
  induction findings as [|f findings IH]; intros s s' H; simpl in H.
  - inversion H; subst s'. exists 0, 0, 0, 0. simpl.
    repeat split; intros; lia.
  - destruct (severityOf f) as [e|sev] eqn:S; [discriminate|].
    destruct (severity_step f sev s S)
      as (hit & Hhit & L1 & L2 & L3 & L4 & Eq).
    destruct (IH _ _ H)
      as (c & h & m & l & C1 & C2 & C3 & C4 & P1 & P2 & P3 & P4
          & B1 & B2 & B3 & B4 & Eq').
    exists ((if hit "critical" then 1 else 0) + c),
           ((if hit "high" then 1 else 0) + h),
           ((if hit "medium" then 1 else 0) + m),
           ((if hit "low" then 1 else 0) + l).
    simpl countWhere.
    rewrite !Hhit, C1, C2, C3, C4 by discriminate.
    repeat split; try reflexivity;
      try (destruct (hit "critical"), (hit "high"), (hit "medium"),
             (hit "low"); lia).
    all: assert (E1 : getProp "original_severity" f = inr None)
           by (apply H0; now left);
         assert (E2 : forall g, In g findings ->
                        getProp "original_severity" g = inr None)
           by (intros g Hg; apply H0; now right);
         specialize (Eq E1); specialize (Eq' E2); lia.
Qed.
End CategorizeFacts.

Import SecurityAnalyzer.

(** X23.  The security agent's own severity summary never exceeds the
    orchestrator's: whenever [calculateSummary] returns for a list of
    findings, [categorizeBySeverity] returns for it too, each of its
    counts is at most the orchestrator's, and they are equal when no
    finding carries an [original_severity]. *)
Theorem X23_agent_summary_is_below_the_audit_summary
    (findings fs : list json) (s : Summary) :
  calculateSummary (Some (JArr findings)) = inr (s, fs) ->
  exists c : SeverityCounts,
    categorizeBySeverity findings = inr c
    /\ 0 <= n_critical c <= critical s /\ 0 <= n_high c <= high s
    /\ 0 <= n_medium c <= medium s /\ 0 <= n_low c <= low s
    /\ ((forall f, In f findings ->
           getProp "original_severity" f = inr None) ->
        n_critical c = critical s /\ n_high c = high s
        /\ n_medium c = medium s /\ n_low c = low s).
Proof.
  unfold calculateSummary. intros H.
  destruct (tally findings _) as [e|s'] eqn:T; [discriminate|].
  inversion H; subst s' fs. clear H.
  destruct (CategorizeFacts.countWhere_tally findings _ _ T)
    as (c & h & m & l & C1 & C2 & C3 & C4 & P1 & P2 & P3 & P4
        & B1 & B2 & B3 & B4 & Eq).
  simpl in B1, B2, B3, B4, Eq.
  exists {| n_critical := c; n_high := h; n_medium := m; n_low := l |}.
  unfold categorizeBySeverity. rewrite C1, C2, C3, C4. simpl.
  repeat split; try lia; specialize (Eq H); lia.
Qed.

Lemma X23_agent_summary_is_below_the_audit_summary_witness :
  let findings :=
    [finding; JObj [("id", JStr "F-2"); ("original_severity", JStr "low")]] in
  exists c : SeverityCounts,
    categorizeBySeverity findings = inr c
    /\ 0 <= n_critical c <= 0 /\ 0 <= n_high c <= 1
    /\ 0 <= n_medium c <= 0 /\ 0 <= n_low c <= 1.
Proof.
  destruct (X23_agent_summary_is_below_the_audit_summary
              [finding;
               JObj [("id", JStr "F-2"); ("original_severity", JStr "low")]]
              [finding;
               JObj [("id", JStr "F-2"); ("original_severity", JStr "low")]]
              {| critical := 0; high := 1; medium := 0; low := 1;
                 totalFindings := 2 |} eq_refl)
    as (c & H1 & H2 & H3 & H4 & H5 & _).
  exists c. simpl in *. auto.
Defined.
